(** * SLA uptime monitor: a shallow embedding of
      [src/monitoring/sla/uptime_monitor.py] and the properties of its
      incident, SLA and statistics engine.

    Conventions of the embedding.
    - A Python [float] is an exact rational ([Q]); rounding is outside the
      model, comparisons are the rational ones and [float('inf')] is a
      separate constructor.  Equality of floats is [Qeq] ([==]).
    - A [datetime] is a number of microseconds since the epoch ([Z]); a
      [timedelta] is a number of microseconds.
    - A [dict] keyed by monitor name is a [gmap string _]; a [list] is a list.
    - The methods of [UptimeMonitor] mutate [self], read the system clock,
      talk to the network and write to the log; they live in a state and
      exception monad [M] whose state survives a raised exception, as the
      mutations of a Python object do. *)

From Stdlib Require Import ZArith QArith Qround Lia Lqa.
From stdpp Require Import base option list strings pretty gmap fin_maps.

Local Close Scope Q_scope.
Local Open Scope Z_scope.
Local Open Scope string_scope.

(** ** Python values used by the module *)

Module Py.

(** [int(x)] on a float truncates towards zero. *)
Definition int (x : Q) : Z := Z.quot (Qnum x) (Z.pos (Qden x)).

(** [str(n)] on an int. *)
Definition str_int (n : Z) : string := pretty n.

(** Truth value of a float: every float but zero is true. *)
Definition truthy (x : Q) : bool := negb (Qeq_bool x 0%Q).

(** Truth value of an [Optional[float]]: [None] and [0.0] are false. *)
Definition truthy_opt (x : option Q) : bool :=
  match x with
  | None => false
  | Some q => truthy q
  end.

Definition ltb (a b : Q) : bool :=
  match (a ?= b)%Q with Lt => true | _ => false end.
Definition leb (a b : Q) : bool :=
  match (a ?= b)%Q with Gt => false | _ => true end.
Definition gtb (a b : Q) : bool := ltb b a.
Definition geb (a b : Q) : bool := leb b a.

(** A float that may be [float('inf')]. *)
Inductive float : Type :=
| Finite (q : Q)
| Inf.

(** [min(a, x)]: the first argument unless the second is smaller. *)
Definition min (a : float) (x : Q) : float :=
  match a with
  | Inf => Finite x
  | Finite q => if ltb x q then Finite x else Finite q
  end.

(** [max(a, x)]: the first argument unless the second is larger. *)
Definition max (a x : Q) : Q := if gtb x a then x else a.

(** [sum(xs)]: left to right, from the int [0]. *)
Definition sum (xs : list Q) : Q := fold_left Qplus xs 0%Q.

(** [xs[-n:]] for a positive [n]. *)
Definition last_n {A} (n : nat) (xs : list A) : list A :=
  drop (length xs - n)%nat xs.

Definition upper_ascii (c : Ascii.ascii) : Ascii.ascii :=
  let n := Ascii.nat_of_ascii c in
  if ((97 <=? n) && (n <=? 122))%nat then Ascii.ascii_of_nat (n - 32) else c.

Definition lower_ascii (c : Ascii.ascii) : Ascii.ascii :=
  let n := Ascii.nat_of_ascii c in
  if ((65 <=? n) && (n <=? 90))%nat then Ascii.ascii_of_nat (n + 32) else c.

Fixpoint map_string (f : Ascii.ascii -> Ascii.ascii) (s : string) : string :=
  match s with
  | EmptyString => EmptyString
  | String c s' => String (f c) (map_string f s')
  end.

(** [s.upper()] and [s.lower()] on ASCII text. *)
Definition upper (s : string) : string := map_string upper_ascii s.
Definition lower (s : string) : string := map_string lower_ascii s.

(** [needle in hay] on strings. *)
Fixpoint contains (needle hay : string) : bool :=
  if String.prefix needle hay then true
  else match hay with
       | EmptyString => false
       | String _ hay' => contains needle hay'
       end.

(** [str(x)] on an [Optional[str]] inside an f-string. *)
Definition str_opt (x : option string) : string :=
  match x with
  | None => "None"
  | Some s => s
  end.

(** The exceptions the module can meet.  All of them derive from
    [Exception]; [e_str] is [str(e)]. *)
Inductive exn : Type :=
| KeyError (key : string)
| AttributeError (msg : string)
| TimeoutError
| Exception (msg : string).

Definition e_str (e : exn) : string :=
  match e with
  | KeyError k => "'" +:+ k +:+ "'"
  | AttributeError m => m
  | TimeoutError => EmptyString
  | Exception m => m
  end.

End Py.

(** ** Dates *)

Definition datetime := Z.
Definition timedelta := Z.

Definition microsecond : timedelta := 1.
Definition seconds (n : Z) : timedelta := n * 1000000.
Definition hours (n : Z) : timedelta := seconds (n * 3600).
Definition days (n : Z) : timedelta := hours (n * 24).

(** [td.total_seconds()]. *)
Definition total_seconds (td : timedelta) : Q := (td # 1000000)%Q.

(** The [datetime] of a clock reading given in seconds. *)
Definition datetime_of_clock (t : Q) : datetime := Qfloor (t * 1000000)%Q.

(** ** Data model (lines 25-57) *)

Inductive AlertSeverity : Type := INFO | WARNING | CRITICAL | EMERGENCY.

Definition severity_value (s : AlertSeverity) : string :=
  match s with
  | INFO => "info"
  | WARNING => "warning"
  | CRITICAL => "critical"
  | EMERGENCY => "emergency"
  end.

Inductive MonitorStatus : Type := UP | DOWN | DEGRADED | MAINTENANCE.

Definition status_value (s : MonitorStatus) : string :=
  match s with
  | UP => "up"
  | DOWN => "down"
  | DEGRADED => "degraded"
  | MAINTENANCE => "maintenance"
  end.

Global Instance MonitorStatus_eq_dec : EqDecision MonitorStatus.
Proof. solve_decision. Defined.

Global Instance AlertSeverity_eq_dec : EqDecision AlertSeverity.
Proof. solve_decision. Defined.

Record SLAThreshold : Type := {
  name : string;
  target_value : Q;
  measurement_unit : string;
  measurement_period : string;
  violation_threshold : Q;
  compensation_rate : Q
}.

Record MonitorResult : Type := {
  timestamp : datetime;
  status : MonitorStatus;
  response_time : option Q;
  status_code : option Z;
  error_message : option string;
  additional_metrics : list (string * Q)
}.

(** ** Configuration *)

(** One entry of [config['monitors']]; a missing key is [None].  The
    defaults are those of [_check_monitor]. *)
Record MonitorConfig : Type := {
  cfg_url : option string;
  cfg_method : option string;
  cfg_timeout : option Q;
  cfg_expected_status : option Z;
  cfg_expected_response_time : option Q
}.

(** One entry of [config['alert_channels']]. *)
Record Channel : Type := {
  ch_type : option string;
  ch_webhook_url : option string
}.

(** The dict built by [_load_sla_thresholds].  Its last loop adds every
    default that the configuration did not give, so the three default keys
    are always present: they are fields here, custom thresholds are [extra]. *)
Record SLAThresholds : Type := {
  uptime : SLAThreshold;
  api_response_time : SLAThreshold;
  harmonic_processing_time : SLAThreshold;
  extra : gmap string SLAThreshold
}.

Definition default_uptime : SLAThreshold :=
  {| name := "Service Uptime"; target_value := (999 # 10)%Q;
     measurement_unit := "percentage"; measurement_period := "monthly";
     violation_threshold := (998 # 10)%Q; compensation_rate := 10%Q |}.

Definition default_api_response_time : SLAThreshold :=
  {| name := "API Response Time"; target_value := 200%Q;
     measurement_unit := "milliseconds"; measurement_period := "daily";
     violation_threshold := 500%Q; compensation_rate := 5%Q |}.

Definition default_harmonic_processing_time : SLAThreshold :=
  {| name := "Harmonic Processing Time"; target_value := 100%Q;
     measurement_unit := "milliseconds"; measurement_period := "hourly";
     violation_threshold := 250%Q; compensation_rate := 2%Q |}.

Definition default_thresholds : SLAThresholds :=
  {| uptime := default_uptime;
     api_response_time := default_api_response_time;
     harmonic_processing_time := default_harmonic_processing_time;
     extra := ∅ |}.

(** ** Monitoring state *)

(** The dict of [_handle_incident]; the three last keys are set by
    [_resolve_incident]. *)
Record Incident : Type := {
  incident_id : string;
  inc_monitor_name : string;
  start_time : datetime;
  inc_status : string;
  inc_error_message : option string;
  alert_sent : bool;
  end_time : option datetime;
  downtime : option Q;
  resolved : bool
}.

(** The dicts appended to [sla_violations]. *)
Record Violation : Type := {
  violation_id : string;
  v_monitor_name : string;
  sla_type : string;
  v_threshold : Q;
  actual_value : Q;
  v_timestamp : datetime;
  v_compensation_rate : Q
}.

Record UptimeStat : Type := {
  total_checks : Z;
  successful_checks : Z;
  failed_checks : Z;
  last_check : option datetime
}.

Record PerfStat : Type := {
  response_times : list Q;
  avg_response_time : Q;
  min_response_time : Py.float;
  max_response_time : Q
}.

(** The attributes of an [UptimeMonitor] (lines 74-86). *)
Record UptimeMonitor : Type := {
  monitors : list (string * MonitorConfig);
  sla_thresholds : SLAThresholds;
  alert_channels : list Channel;
  monitor_results : gmap string (list MonitorResult);
  current_incidents : gmap string Incident;
  sla_violations : list Violation;
  uptime_stats : gmap string UptimeStat;
  performance_stats : gmap string PerfStat
}.

(** [UptimeMonitor.__init__], given the three parts of the configuration. *)
Definition init (ms : list (string * MonitorConfig)) (th : SLAThresholds)
    (chs : list Channel) : UptimeMonitor :=
  {| monitors := ms; sla_thresholds := th; alert_channels := chs;
     monitor_results := ∅; current_incidents := ∅; sla_violations := [];
     uptime_stats := ∅; performance_stats := ∅ |}.

Definition set_monitor_results (f : gmap string (list MonitorResult) ->
    gmap string (list MonitorResult)) (s : UptimeMonitor) : UptimeMonitor :=
  {| monitors := monitors s; sla_thresholds := sla_thresholds s;
     alert_channels := alert_channels s;
     monitor_results := f (monitor_results s);
     current_incidents := current_incidents s;
     sla_violations := sla_violations s;
     uptime_stats := uptime_stats s;
     performance_stats := performance_stats s |}.

Definition set_current_incidents (f : gmap string Incident ->
    gmap string Incident) (s : UptimeMonitor) : UptimeMonitor :=
  {| monitors := monitors s; sla_thresholds := sla_thresholds s;
     alert_channels := alert_channels s;
     monitor_results := monitor_results s;
     current_incidents := f (current_incidents s);
     sla_violations := sla_violations s;
     uptime_stats := uptime_stats s;
     performance_stats := performance_stats s |}.

Definition set_sla_violations (f : list Violation -> list Violation)
    (s : UptimeMonitor) : UptimeMonitor :=
  {| monitors := monitors s; sla_thresholds := sla_thresholds s;
     alert_channels := alert_channels s;
     monitor_results := monitor_results s;
     current_incidents := current_incidents s;
     sla_violations := f (sla_violations s);
     uptime_stats := uptime_stats s;
     performance_stats := performance_stats s |}.

Definition set_uptime_stats (f : gmap string UptimeStat ->
    gmap string UptimeStat) (s : UptimeMonitor) : UptimeMonitor :=
  {| monitors := monitors s; sla_thresholds := sla_thresholds s;
     alert_channels := alert_channels s;
     monitor_results := monitor_results s;
     current_incidents := current_incidents s;
     sla_violations := sla_violations s;
     uptime_stats := f (uptime_stats s);
     performance_stats := performance_stats s |}.

Definition set_performance_stats (f : gmap string PerfStat ->
    gmap string PerfStat) (s : UptimeMonitor) : UptimeMonitor :=
  {| monitors := monitors s; sla_thresholds := sla_thresholds s;
     alert_channels := alert_channels s;
     monitor_results := monitor_results s;
     current_incidents := current_incidents s;
     sla_violations := sla_violations s;
     uptime_stats := uptime_stats s;
     performance_stats := f (performance_stats s) |}.

(** ** The world outside the monitor *)

(** What a request gives back: a response with its status code, a timeout
    ([asyncio.TimeoutError]) or a transport error. *)
Inductive NetOutcome : Type :=
| Response (code : Z)
| TimedOut
| TransportError (msg : string).

(** The [alert_data] dict of [_send_alert]. *)
Record AlertData : Type := {
  a_severity : string;
  a_title : string;
  a_message : string;
  a_incident_id : string;
  a_timestamp : string;
  a_service : string
}.

(** The JSON body of [_send_slack_alert]: one attachment. *)
Record SlackField : Type := {
  f_title : string;
  f_value : string;
  f_short : bool
}.

Record SlackAttachment : Type := {
  color : string;
  att_title : string;
  text : string;
  fields : list SlackField
}.

Inductive LogLevel : Type := LInfo | LWarning | LError.

(** What a run leaves behind, in order: the alerts handed to [_send_alert]
    ([EvAlert], written as soon as [alert_data] is built), the requests made
    with their outcome, and the lines logged. *)
Inductive Event : Type :=
| EvAlert (alert_data : AlertData)
| EvPost (url : string) (body : list SlackAttachment) (r : NetOutcome)
| EvProbe (method url : string) (r : NetOutcome)
| EvLog (level : LogLevel) (msg : string).

(** The environment: the successive readings of the system clock (in
    seconds since the epoch), what the network answers to the k-th request,
    and Python's formatting of floats and dates, which the model does not
    look into. *)
Record Env : Type := {
  clock : nat -> Q;
  net_post : nat -> string -> list SlackAttachment -> NetOutcome;
  net_probe : nat -> string -> string -> NetOutcome;
  harmonic_metrics : nat -> MonitorConfig -> list (string * Q);
  str_float : Q -> string;
  fmt_2f : Q -> string;
  str_timedelta : timedelta -> string;
  isoformat : datetime -> string
}.

(** The state a method runs in: the object, the number of clock readings
    and of requests made so far, and the events so far (latest first). *)
Record Sys : Type := {
  self : UptimeMonitor;
  reads : nat;
  requests : nat;
  trace : list Event
}.

Definition boot (s : UptimeMonitor) : Sys :=
  {| self := s; reads := 0; requests := 0; trace := [] |}.

(** ** The monad of the methods *)

Inductive outcome (A : Type) : Type :=
| Return (a : A)
| Raise (e : Py.exn).
Arguments Return {A} a.
Arguments Raise {A} e.

Definition M (A : Type) : Type := Sys -> outcome A * Sys.

Definition ret {A} (a : A) : M A := fun w => (Return a, w).

Definition bind {A B} (m : M A) (k : A -> M B) : M B :=
  fun w =>
    match m w with
    | (Return a, w') => k a w'
    | (Raise e, w') => (Raise e, w')
    end.

Definition raise {A} (e : Py.exn) : M A := fun w => (Raise e, w).

(** [try: body except Exception as e: handler(e)]. *)
Definition try_except {A} (body : M A) (handler : Py.exn -> M A) : M A :=
  fun w =>
    match body w with
    | (Return a, w') => (Return a, w')
    | (Raise e, w') => handler e w'
    end.

Declare Scope py_scope.
Delimit Scope py_scope with py.
Notation "x <- m ;; k" := (bind m (fun x => k))
  (at level 100, m at next level, right associativity) : py_scope.
Notation "m ;;; k" := (bind m (fun _ => k))
  (at level 100, right associativity) : py_scope.

Definition get_self : M UptimeMonitor := fun w => (Return (self w), w).

Definition modify_self (f : UptimeMonitor -> UptimeMonitor) : M unit :=
  fun w => (Return tt,
            {| self := f (self w); reads := reads w;
               requests := requests w; trace := trace w |}).

Definition emit (e : Event) : M unit :=
  fun w => (Return tt,
            {| self := self w; reads := reads w;
               requests := requests w; trace := e :: trace w |}).

(** Final state and result of a run. *)
Definition exec {A} (m : M A) (w : Sys) : Sys := snd (m w).
Definition eval {A} (m : M A) (w : Sys) : outcome A := fst (m w).

(** ** The methods of [UptimeMonitor] *)

Section Methods.

Variable env : Env.

Local Open Scope py_scope.

(** [time.time()]: the next reading of the clock. *)
Definition time_time : M Q :=
  fun w => (Return (clock env (reads w)),
            {| self := self w; reads := S (reads w);
               requests := requests w; trace := trace w |}).

(** [datetime.utcnow()]: the next reading of the clock, as a date. *)
Definition utcnow : M datetime :=
  t <- time_time ;; ret (datetime_of_clock t).

(** [session.post(url, json=body)] of [_send_slack_alert]. *)
Definition post_json (url : string) (body : list SlackAttachment)
    : M NetOutcome :=
  fun w =>
    let r := net_post env (requests w) url body in
    (Return r,
     {| self := self w; reads := reads w; requests := S (requests w);
        trace := EvPost url body r :: trace w |}).

(** [session.get(url)] and [session.post(url, json=payload)] of
    [_check_monitor]. *)
Definition probe (method url : string) : M NetOutcome :=
  fun w =>
    let r := net_probe env (requests w) method url in
    (Return r,
     {| self := self w; reads := reads w; requests := S (requests w);
        trace := EvProbe method url r :: trace w |}).

(** [_collect_harmonic_metrics] (lines 275-296): one more request whose
    failures it catches itself; the metrics it returns are the
    environment's. *)
Definition _collect_harmonic_metrics (config : MonitorConfig)
    : M (list (string * Q)) :=
  fun w =>
    (Return (harmonic_metrics env (requests w) config),
     {| self := self w; reads := reads w; requests := S (requests w);
        trace := trace w |}).

(** [for x in xs: body(x)]. *)
Fixpoint for_each {A} (xs : list A) (body : A -> M unit) : M unit :=
  match xs with
  | [] => ret tt
  | x :: xs' => body x ;;; for_each xs' body
  end.

(** [d[key]] on a dict whose entry may be missing. *)
Definition item {A} (key : string) (entry : option A) : M A :=
  match entry with
  | Some a => ret a
  | None => raise (Py.KeyError key)
  end.

(** *** [_check_monitor] (lines 192-273) *)

(** The status of the GET branch (lines 218-223). *)
Definition classify_get (code expected_status : Z)
    (response_time expected_response_time : Q) : MonitorStatus :=
  if Z.eqb code expected_status && Py.leb response_time expected_response_time
  then UP
  else if Z.eqb code expected_status then DEGRADED
  else DOWN.

(** The status of the POST branch (line 244). *)
Definition classify_post (code expected_status : Z) : MonitorStatus :=
  if Z.eqb code expected_status then UP else DOWN.

(** What a request of [_check_monitor] hands to the code after it: the
    status code of the response, or the exception raised in its place. *)
Definition response_status (r : NetOutcome) : M Z :=
  match r with
  | Response code => ret code
  | TimedOut => raise Py.TimeoutError
  | TransportError msg => raise (Py.Exception msg)
  end.

Definition down_result (ts : datetime) (msg : string) : MonitorResult :=
  {| timestamp := ts; status := DOWN; response_time := None;
     status_code := None; error_message := Some msg;
     additional_metrics := [] |}.

(** The result is [None] when the method is neither GET nor POST: the
    function then ends without a [return]. *)
Definition _check_monitor (monitor_name : string) (config : MonitorConfig)
    : M (option MonitorResult) :=
  start <- time_time ;;
  try_except
    (url <- item "url" (cfg_url config) ;;
     let method := Py.upper (default "GET" (cfg_method config)) in
     let expected_status := default 200 (cfg_expected_status config) in
     let expected_response_time :=
       default 5000%Q (cfg_expected_response_time config) in
     if String.eqb method "GET" then
       r <- probe "GET" url ;;
       code <- response_status r ;;
       now <- time_time ;;
       let rt := ((now - start) * 1000)%Q in
       let st := classify_get code expected_status rt expected_response_time in
       metrics <- (if Py.contains "harmonic" (Py.lower url)
                   then _collect_harmonic_metrics config
                   else ret []) ;;
       ts <- utcnow ;;
       ret (Some {| timestamp := ts; status := st; response_time := Some rt;
                    status_code := Some code; error_message := None;
                    additional_metrics := metrics |})
     else if String.eqb method "POST" then
       r <- probe "POST" url ;;
       code <- response_status r ;;
       now <- time_time ;;
       let rt := ((now - start) * 1000)%Q in
       let st := classify_post code expected_status in
       ts <- utcnow ;;
       ret (Some {| timestamp := ts; status := st; response_time := Some rt;
                    status_code := Some code; error_message := None;
                    additional_metrics := [] |})
     else ret None)
    (fun e =>
       match e with
       | Py.TimeoutError =>
           ts <- utcnow ;; ret (Some (down_result ts "Request timeout"))
       | _ =>
           ts <- utcnow ;; ret (Some (down_result ts (Py.e_str e)))
       end).

(** *** [_send_alert] and its sinks (lines 422-476) *)

Definition color_map (severity : string) : string :=
  if String.eqb severity "info" then "good"
  else if String.eqb severity "warning" then "warning"
  else if String.eqb severity "critical" then "danger"
  else if String.eqb severity "emergency" then "danger"
  else "warning".

Definition slack_payload (alert_data : AlertData) : list SlackAttachment :=
  [ {| color := color_map (a_severity alert_data);
       att_title := a_title alert_data;
       text := a_message alert_data;
       fields :=
         [ {| f_title := "Incident ID"; f_value := a_incident_id alert_data;
              f_short := true |};
           {| f_title := "Severity";
              f_value := Py.upper (a_severity alert_data); f_short := true |};
           {| f_title := "Service"; f_value := a_service alert_data;
              f_short := true |};
           {| f_title := "Timestamp"; f_value := a_timestamp alert_data;
              f_short := true |} ] |} ].

Definition _send_slack_alert (channel : Channel) (alert_data : AlertData)
    : M unit :=
  webhook_url <- item "webhook_url" (ch_webhook_url channel) ;;
  r <- post_json webhook_url (slack_payload alert_data) ;;
  match r with
  | Response code =>
      if negb (Z.eqb code 200)
      then raise (Py.Exception ("Slack webhook returned " +:+ Py.str_int code))
      else ret tt
  | TimedOut => raise Py.TimeoutError
  | TransportError msg => raise (Py.Exception msg)
  end.

(** The class defines no [_send_email_alert], [_send_webhook_alert] or
    [_send_pagerduty_alert]: looking one up on [self] raises. *)
Definition missing_method {A} (method : string) : M A :=
  raise (Py.AttributeError
           ("'UptimeMonitor' object has no attribute '" +:+ method +:+ "'")).

(** The body of the loop of [_send_alert] for one channel (lines 435-446).
    The handler formats [channel['type']] again, outside any [try]. *)
Definition send_to_channel (alert_data : AlertData) (channel : Channel)
    : M unit :=
  try_except
    (ty <- item "type" (ch_type channel) ;;
     if String.eqb ty "email" then missing_method "_send_email_alert"
     else if String.eqb ty "slack" then _send_slack_alert channel alert_data
     else if String.eqb ty "webhook" then missing_method "_send_webhook_alert"
     else if String.eqb ty "pagerduty" then
       missing_method "_send_pagerduty_alert"
     else ret tt)
    (fun e =>
       ty <- item "type" (ch_type channel) ;;
       emit (EvLog LError
               ("Failed to send alert via " +:+ ty +:+ ": " +:+ Py.e_str e))).

Definition _send_alert (severity : AlertSeverity)
    (title message incident_id : string) : M unit :=
  now <- utcnow ;;
  let alert_data :=
    {| a_severity := severity_value severity; a_title := title;
       a_message := message; a_incident_id := incident_id;
       a_timestamp := isoformat env now;
       a_service := "Harmonic IoT Protocol" |} in
  emit (EvAlert alert_data) ;;;
  s <- get_self ;;
  for_each (alert_channels s) (send_to_channel alert_data).

(** *** Incidents (lines 315-368) *)

Definition mark_alert_sent (i : Incident) : Incident :=
  {| incident_id := incident_id i; inc_monitor_name := inc_monitor_name i;
     start_time := start_time i; inc_status := inc_status i;
     inc_error_message := inc_error_message i; alert_sent := true;
     end_time := end_time i; downtime := downtime i;
     resolved := resolved i |}.

Definition archive (ts : datetime) (dt : timedelta) (i : Incident)
    : Incident :=
  {| incident_id := incident_id i; inc_monitor_name := inc_monitor_name i;
     start_time := start_time i; inc_status := inc_status i;
     inc_error_message := inc_error_message i; alert_sent := alert_sent i;
     end_time := Some ts; downtime := Some (total_seconds dt);
     resolved := true |}.

(** The dict of lines 320-327, [t] being the value of [time.time()]. *)
Definition new_incident (t : Q) (monitor_name : string)
    (result : MonitorResult) : Incident :=
  {| incident_id :=
       "INC_" +:+ Py.str_int (Py.int t) +:+ "_" +:+ monitor_name;
     inc_monitor_name := monitor_name;
     start_time := timestamp result;
     inc_status := status_value (status result);
     inc_error_message := error_message result;
     alert_sent := false;
     end_time := None; downtime := None; resolved := false |}.

Definition _handle_incident (monitor_name : string) (result : MonitorResult)
    : M unit :=
  s <- get_self ;;
  match current_incidents s !! monitor_name with
  | Some _ => ret tt
  | None =>
      t <- time_time ;;
      let incident := new_incident t monitor_name result in
      modify_self (set_current_incidents <[monitor_name := incident]>) ;;;
      _send_alert
        (if decide (status result = DOWN) then CRITICAL else WARNING)
        ("Service " +:+ Py.upper (status_value (status result)) +:+ ": "
           +:+ monitor_name)
        ("Monitor " +:+ monitor_name +:+ " is "
           +:+ status_value (status result) +:+ ". Error: "
           +:+ Py.str_opt (error_message result))
        (incident_id incident) ;;;
      (* the dict stored under [monitor_name] is the one mutated here *)
      modify_self (set_current_incidents (alter mark_alert_sent monitor_name)) ;;;
      emit (EvLog LWarning ("New incident: " +:+ incident_id incident))
  end.

(** The archived incident is reachable from nowhere once its key is
    deleted: the module keeps no history of resolved incidents. *)
Definition _resolve_incident (monitor_name : string) (result : MonitorResult)
    : M unit :=
  s <- get_self ;;
  match current_incidents s !! monitor_name with
  | None => ret tt
  | Some incident =>
      let dt := timestamp result - start_time incident in
      _send_alert INFO
        ("Service RECOVERED: " +:+ monitor_name)
        ("Monitor " +:+ monitor_name +:+ " has recovered. Downtime: "
           +:+ str_timedelta env dt)
        (incident_id incident) ;;;
      modify_self (set_current_incidents
                     (alter (archive (timestamp result) dt) monitor_name)) ;;;
      modify_self (set_current_incidents (delete monitor_name)) ;;;
      emit (EvLog LInfo ("Incident resolved: " +:+ incident_id incident))
  end.

(** *** Uptime over a period (lines 478-505) *)

Definition period_length (period : string) : timedelta :=
  if String.eqb period "hourly" then hours 1
  else if String.eqb period "daily" then days 1
  else if String.eqb period "monthly" then days 30
  else hours 1.

(** [sum(1 for r in results if r.status == MonitorStatus.UP)]. *)
Definition up_count (results : list MonitorResult) : Z :=
  fold_left (fun acc r => if decide (status r = UP) then acc + 1 else acc)
    results 0.

Definition in_window (start : datetime) (r : MonitorResult) : bool :=
  Z.leb start (timestamp r).

Definition _calculate_uptime_percentage (monitor_name period : string)
    : M Q :=
  s <- get_self ;;
  match monitor_results s !! monitor_name with
  | None => ret 100%Q
  | Some recorded =>
      now <- utcnow ;;
      let start := now - period_length period in
      let results := List.filter (in_window start) recorded in
      match results with
      | [] => ret 100%Q
      | _ =>
          let total_count := Z.of_nat (length results) in
          ret ((inject_Z (up_count results) / inject_Z total_count) * 100)%Q
      end
  end.

(** *** SLA violations (lines 370-420) *)

Definition append_violation (v : Violation) : M unit :=
  modify_self (set_sla_violations (fun vs => (vs ++ [v])%list)).

(** The dict of lines 379-387, [t] being the value of [time.time()]. *)
Definition uptime_violation (t : Q) (monitor_name : string)
    (uptime_threshold : SLAThreshold) (uptime_percentage : Q)
    (result : MonitorResult) : Violation :=
  {| violation_id :=
       "SLA_" +:+ Py.str_int (Py.int t) +:+ "_" +:+ monitor_name
         +:+ "_uptime";
     v_monitor_name := monitor_name;
     sla_type := "uptime";
     v_threshold := target_value uptime_threshold;
     actual_value := uptime_percentage;
     v_timestamp := timestamp result;
     v_compensation_rate := compensation_rate uptime_threshold |}.

(** The dict of lines 403-411. *)
Definition response_time_violation (t : Q) (monitor_name : string)
    (response_threshold : SLAThreshold) (rt : Q) (result : MonitorResult)
    : Violation :=
  {| violation_id :=
       "SLA_" +:+ Py.str_int (Py.int t) +:+ "_" +:+ monitor_name
         +:+ "_response_time";
     v_monitor_name := monitor_name;
     sla_type := "response_time";
     v_threshold := target_value response_threshold;
     actual_value := rt;
     v_timestamp := timestamp result;
     v_compensation_rate := compensation_rate response_threshold |}.

(** Lines 373-396: the uptime SLA. *)
Definition check_uptime_sla (monitor_name : string)
    (result : MonitorResult) : M unit :=
  if decide (status result = DOWN) then
    uptime_percentage <- _calculate_uptime_percentage monitor_name "monthly" ;;
    s <- get_self ;;
    let uptime_threshold := uptime (sla_thresholds s) in
    if Py.ltb uptime_percentage (violation_threshold uptime_threshold) then
      t <- time_time ;;
      let violation :=
        uptime_violation t monitor_name uptime_threshold uptime_percentage
          result in
      append_violation violation ;;;
      _send_alert EMERGENCY
        ("SLA VIOLATION: Uptime below "
           +:+ str_float env (target_value uptime_threshold) +:+ "%")
        ("Uptime for " +:+ monitor_name +:+ ": "
           +:+ fmt_2f env uptime_percentage +:+ "%")
        (violation_id violation)
    else ret tt
  else ret tt.

(** Lines 398-420: the response time SLA. *)
Definition check_response_time_sla (monitor_name : string)
    (result : MonitorResult) : M unit :=
  match response_time result with
  | Some rt =>
      if Py.truthy rt then
        s <- get_self ;;
        let response_threshold := api_response_time (sla_thresholds s) in
        if Py.gtb rt (violation_threshold response_threshold) then
          t <- time_time ;;
          let violation :=
            response_time_violation t monitor_name response_threshold rt
              result in
          append_violation violation ;;;
          _send_alert WARNING
            ("SLA VIOLATION: Response time above "
               +:+ str_float env (target_value response_threshold) +:+ "ms")
            ("Response time for " +:+ monitor_name +:+ ": "
               +:+ fmt_2f env rt +:+ "ms")
            (violation_id violation)
        else ret tt
      else ret tt
  | None => ret tt
  end.

Definition _check_sla_violations (monitor_name : string)
    (result : MonitorResult) : M unit :=
  check_uptime_sla monitor_name result ;;;
  check_response_time_sla monitor_name result.

(** *** Statistics (lines 507-548) *)

Definition new_uptime_stat : UptimeStat :=
  {| total_checks := 0; successful_checks := 0; failed_checks := 0;
     last_check := None |}.

Definition new_perf_stat : PerfStat :=
  {| response_times := []; avg_response_time := 0%Q;
     min_response_time := Py.Inf; max_response_time := 0%Q |}.

(** Lines 528-535. *)
Definition count_check (result : MonitorResult) (u : UptimeStat)
    : UptimeStat :=
  {| total_checks := total_checks u + 1;
     successful_checks :=
       if decide (status result = UP) then successful_checks u + 1
       else successful_checks u;
     failed_checks :=
       if decide (status result = UP) then failed_checks u
       else failed_checks u + 1;
     last_check := Some (timestamp result) |}.

(** Lines 539-548. *)
Definition record_response_time (rt : Q) (p : PerfStat) : PerfStat :=
  let appended := (response_times p ++ [rt])%list in
  let kept :=
    if (1000 <? length appended)%nat then Py.last_n 1000 appended
    else appended in
  {| response_times := kept;
     avg_response_time := (Py.sum kept / inject_Z (Z.of_nat (length kept)))%Q;
     min_response_time := Py.min (min_response_time p) rt;
     max_response_time := Py.max (max_response_time p) rt |}.

(** [d.setdefault]-like initialisation of lines 511-525. *)
Definition init_entry {A} (key : string) (fresh : A) (d : gmap string A)
    : gmap string A :=
  match d !! key with
  | None => <[key := fresh]> d
  | Some _ => d
  end.

Definition update_statistics (monitor_name : string)
    (result : MonitorResult) (s : UptimeMonitor) : UptimeMonitor :=
  let s1 := set_uptime_stats (init_entry monitor_name new_uptime_stat) s in
  let s2 :=
    set_performance_stats (init_entry monitor_name new_perf_stat) s1 in
  let s3 := set_uptime_stats (alter (count_check result) monitor_name) s2 in
  match response_time result with
  | Some rt =>
      if Py.truthy rt
      then set_performance_stats
             (alter (record_response_time rt) monitor_name) s3
      else s3
  | None => s3
  end.

Definition _update_statistics (monitor_name : string)
    (result : MonitorResult) : M unit :=
  modify_self (update_statistics monitor_name result).

(** *** [_process_monitor_result] (lines 298-313) *)

Definition is_incident_status (st : MonitorStatus) : bool :=
  bool_decide (st = DOWN) || bool_decide (st = DEGRADED).

Definition _process_monitor_result (monitor_name : string)
    (result : MonitorResult) : M unit :=
  (if is_incident_status (status result)
   then _handle_incident monitor_name result
   else
     s <- get_self ;;
     match current_incidents s !! monitor_name with
     | Some _ => _resolve_incident monitor_name result
     | None => ret tt
     end) ;;;
  _check_sla_violations monitor_name result ;;;
  _update_statistics monitor_name result.

(** *** The loop of [start_monitoring] (lines 166-183) *)

(** Lines 173-180: the result is stored, then processed. *)
Definition store_and_process (monitor_name : string)
    (result : MonitorResult) : M unit :=
  modify_self (set_monitor_results (fun d =>
    <[monitor_name := (default [] (d !! monitor_name) ++ [result])%list]> d)) ;;;
  _process_monitor_result monitor_name result.

(** The results of one monitor after another, in the order given. *)
Definition process_all (results : list (string * MonitorResult)) : M unit :=
  for_each results (fun nr => store_and_process nr.1 nr.2).

(** Lines 550-558. *)
Definition _cleanup_old_results : M unit :=
  now <- utcnow ;;
  let cutoff_time := now - hours 24 in
  modify_self (set_monitor_results
                 (fmap (List.filter (in_window cutoff_time)))).

(** *** [generate_sla_report] (lines 560-615) *)

Record MonitorReport : Type := {
  uptime_percentage : Q;
  sla_target : Q;
  sla_compliant : bool;
  r_total_checks : Z;
  r_failed_checks : Z;
  r_avg_response_time : option Q;
  response_time_sla_target : option Q;
  response_time_compliant : option bool
}.

Record OverallCompliance : Type := {
  compliant : bool;
  violation_count : Z;
  compensation_owed : Q
}.

Record Report : Type := {
  report_period : string;
  generated_at : string;
  r_monitors : list (string * MonitorReport);
  r_sla_violations : list Violation;
  overall_compliance : OverallCompliance
}.

(** Lines 579-593, for one monitor. *)
Definition monitor_report (period monitor_name : string) : M MonitorReport :=
  pct <- _calculate_uptime_percentage monitor_name period ;;
  s <- get_self ;;
  let uptime_target := target_value (uptime (sla_thresholds s)) in
  let latency_target := target_value (api_response_time (sla_thresholds s)) in
  let perf := performance_stats s !! monitor_name in
  ret {| uptime_percentage := pct;
         sla_target := uptime_target;
         sla_compliant := Py.geb pct uptime_target;
         r_total_checks :=
           default 0 (total_checks <$> uptime_stats s !! monitor_name);
         r_failed_checks :=
           default 0 (failed_checks <$> uptime_stats s !! monitor_name);
         r_avg_response_time := avg_response_time <$> perf;
         response_time_sla_target := (fun _ => latency_target) <$> perf;
         response_time_compliant :=
           (fun p => Py.leb (avg_response_time p) latency_target) <$> perf |}.

(** [report['monitors'][name] = ...] for each name, in order. *)
Fixpoint monitor_reports (period : string) (names : list string)
    : M (list (string * MonitorReport)) :=
  match names with
  | [] => ret []
  | n :: names' =>
      r <- monitor_report period n ;;
      rest <- monitor_reports period names' ;;
      ret ((n, r) :: rest)
  end.

(** [all(...)] over a list of booleans. *)
Definition all (bs : list bool) : bool := forallb id bs.

Definition generate_sla_report (period : string) : M Report :=
  at_ <- utcnow ;;
  s <- get_self ;;
  reports <- monitor_reports period (map fst (monitors s)) ;;
  now <- utcnow ;;
  let period_start :=
    now - days (if String.eqb period "monthly" then 30 else 1) in
  s' <- get_self ;;
  let listed :=
    List.filter (fun v => Z.leb period_start (v_timestamp v))
      (sla_violations s') in
  let all_monitors_compliant :=
    all (map (fun m => sla_compliant m.2) reports) in
  ret {| report_period := period;
         generated_at := isoformat env at_;
         r_monitors := reports;
         r_sla_violations := listed;
         overall_compliance :=
           {| compliant := all_monitors_compliant;
              violation_count := Z.of_nat (length listed);
              compensation_owed :=
                Py.sum (map v_compensation_rate listed) |} |}.

End Methods.

(** ** [_load_sla_thresholds] and [__init__] (lines 67-141) *)

(** One entry of [config['sla_thresholds']]: the fields of [SLAThreshold]
    that it gives, and its other keys. *)
Record SLAConfig : Type := {
  c_name : option string;
  c_target_value : option Q;
  c_measurement_unit : option string;
  c_measurement_period : option string;
  c_violation_threshold : option Q;
  c_compensation_rate : option Q;
  c_other_keys : list string
}.

(** [setattr(threshold, key, value)] for each key given (lines 129-130).  A
    key that is no field of [SLAThreshold] adds an attribute that nothing
    reads. *)
Definition override (t : SLAThreshold) (c : SLAConfig) : SLAThreshold :=
  {| name := default (name t) (c_name c);
     target_value := default (target_value t) (c_target_value c);
     measurement_unit := default (measurement_unit t) (c_measurement_unit c);
     measurement_period :=
       default (measurement_period t) (c_measurement_period c);
     violation_threshold :=
       default (violation_threshold t) (c_violation_threshold c);
     compensation_rate :=
       default (compensation_rate t) (c_compensation_rate c) |}.

(** The call of the constructor [SLAThreshold] on the entries of
    [config_data] (line 134): a [TypeError], here [None], unless the six
    fields are given and nothing else. *)
Definition construct (c : SLAConfig) : option SLAThreshold :=
  match c_other_keys c with
  | [] =>
      n ← c_name c; tv ← c_target_value c; mu ← c_measurement_unit c;
      mp ← c_measurement_period c; vt ← c_violation_threshold c;
      cr ← c_compensation_rate c;
      Some {| name := n; target_value := tv; measurement_unit := mu;
              measurement_period := mp; violation_threshold := vt;
              compensation_rate := cr |}
  | _ :: _ => None
  end.

(** [default_thresholds] (lines 97-122). *)
Definition default_table : gmap string SLAThreshold :=
  <["uptime" := default_uptime]>
    (<["api_response_time" := default_api_response_time]>
       (<["harmonic_processing_time" := default_harmonic_processing_time]> ∅)).

(** The loop of lines 125-134 over the items of [sla_config], in order.
    The state is [default_thresholds], whose entries [setattr] mutates, and
    [thresholds]. *)
Fixpoint merge_config (sla_config : list (string * SLAConfig))
    (defaults thresholds : gmap string SLAThreshold)
    : option (gmap string SLAThreshold * gmap string SLAThreshold) :=
  match sla_config with
  | [] => Some (defaults, thresholds)
  | (n, config_data) :: rest =>
      match defaults !! n with
      | Some threshold =>
          let threshold' := override threshold config_data in
          merge_config rest (<[n := threshold']> defaults)
            (<[n := threshold']> thresholds)
      | None =>
          threshold ← construct config_data;
          merge_config rest defaults (<[n := threshold]> thresholds)
      end
  end.

(** [_load_sla_thresholds]; lines 137-139 add each default whose name is
    not in [thresholds] yet, which is the union that prefers [thresholds]. *)
Definition _load_sla_thresholds (sla_config : list (string * SLAConfig))
    : option (gmap string SLAThreshold) :=
  dt ← merge_config sla_config default_table ∅;
  Some (dt.2 ∪ dt.1).

(** The dict of thresholds as the record that the methods read. *)
Definition thresholds_record (d : gmap string SLAThreshold)
    : option SLAThresholds :=
  u ← d !! "uptime"; a ← d !! "api_response_time";
  h ← d !! "harmonic_processing_time";
  Some {| uptime := u; api_response_time := a;
          harmonic_processing_time := h;
          extra := delete "uptime"
                     (delete "api_response_time"
                        (delete "harmonic_processing_time" d)) |}.

(** [UptimeMonitor(config)]: [None] when [_load_sla_thresholds] raises. *)
Definition new_monitor (ms : list (string * MonitorConfig))
    (sla_config : list (string * SLAConfig)) (chs : list Channel)
    : option UptimeMonitor :=
  d ← _load_sla_thresholds sla_config;
  th ← thresholds_record d;
  Some (init ms th chs).

(** ** Vocabulary of the properties *)

(** A monitor has an open incident. *)
Definition incident_open (s : UptimeMonitor) (monitor_name : string) : Prop :=
  is_Some (current_incidents s !! monitor_name).

(** The channels that name their type: [channel['type']] is defined. *)
Definition typed (chs : list Channel) : Prop :=
  Forall (fun c => is_Some (ch_type c)) chs.

(** The alerts of a trace, latest first. *)
Definition alerts (tr : list Event) : list AlertData :=
  omap (fun e => match e with EvAlert a => Some a | _ => None end) tr.

(** The webhooks a trace posted to, latest first. *)
Definition posted (tr : list Event) : list string :=
  omap (fun e => match e with EvPost url _ _ => Some url | _ => None end) tr.

(** The lines a trace logged as errors, latest first. *)
Definition errors_logged (tr : list Event) : list string :=
  omap (fun e => match e with EvLog LError msg => Some msg | _ => None end) tr.

(** The sinks that exist: the Slack channels that have a webhook. *)
Definition slack_urls (chs : list Channel) : list string :=
  flat_map (fun c =>
    match ch_type c, ch_webhook_url c with
    | Some ty, Some url => if String.eqb ty "slack" then [url] else []
    | _, _ => []
    end) chs.

(** The last result of a monitor in a sequence of results. *)
Definition last_result (monitor_name : string)
    (results : list (string * MonitorResult)) : option MonitorResult :=
  snd <$> last (List.filter (fun nr => String.eqb nr.1 monitor_name) results).

(** The results of a monitor that fall in the window of a period that ends
    at [now]; none when the monitor has no recorded result. *)
Definition window (s : UptimeMonitor) (monitor_name period : string)
    (now : datetime) : list MonitorResult :=
  List.filter (fun r => bool_decide (now - period_length period <= timestamp r))
    (default [] (monitor_results s !! monitor_name)).

Definition is_up (r : MonitorResult) : bool := bool_decide (status r = UP).

(** Sum, minimum and maximum of a list of samples. *)
Definition Qsum (xs : list Q) : Q := fold_right Qplus 0%Q xs.

Definition mean (xs : list Q) : Q :=
  (Qsum xs / inject_Z (Z.of_nat (length xs)))%Q.

Definition is_minimum (m : Q) (xs : list Q) : Prop :=
  Exists (fun x => x == m)%Q xs /\ Forall (fun x => m <= x)%Q xs.

Definition is_maximum (m : Q) (xs : list Q) : Prop :=
  Exists (fun x => x == m)%Q xs /\ Forall (fun x => x <= m)%Q xs.

(** The statistics after a sequence of results, each with its monitor. *)
Definition stats_after (results : list (string * MonitorResult))
    (s : UptimeMonitor) : UptimeMonitor :=
  fold_left (fun s nr => update_statistics nr.1 nr.2 s) results s.

(** The results of one monitor, in order, and the latencies that
    [_update_statistics] records for it. *)
Definition results_of (monitor_name : string)
    (results : list (string * MonitorResult)) : list MonitorResult :=
  map snd (List.filter (fun nr => String.eqb nr.1 monitor_name) results).

Definition recorded_latencies (rs : list MonitorResult) : list Q :=
  omap (fun r => match response_time r with
                 | Some rt => if Py.truthy rt then Some rt else None
                 | None => None
                 end) rs.

(** The counters and the performance entry of a monitor after its results
    [rs], from the entries [u] and [p]. *)
Definition counts_after (rs : list MonitorResult) (u : UptimeStat)
    : UptimeStat :=
  fold_left (fun u r => count_check r u) rs u.

Definition record_latency (r : MonitorResult) (p : PerfStat) : PerfStat :=
  match response_time r with
  | Some rt => if Py.truthy rt then record_response_time rt p else p
  | None => p
  end.

Definition perf_after (rs : list MonitorResult) (p : PerfStat) : PerfStat :=
  fold_left (fun p r => record_latency r p) rs p.

(** A result without its latency. *)
Definition without_latency (r : MonitorResult) : MonitorResult :=
  {| timestamp := timestamp r; status := status r; response_time := None;
     status_code := status_code r; error_message := error_message r;
     additional_metrics := additional_metrics r |}.

(** The uptime of a window of [N] results of which [K] are UP. *)
Definition uptime_of (win : list MonitorResult) : Q :=
  let N := length win in
  let K := length (List.filter is_up win) in
  if (N =? 0)%nat then 100%Q
  else (inject_Z (Z.of_nat K) / inject_Z (Z.of_nat N) * 100)%Q.

(** A latency is over the violation threshold of the response time SLA. *)
Definition over_threshold (s : UptimeMonitor) (rt : Q) : Prop :=
  (violation_threshold (api_response_time (sla_thresholds s)) < rt)%Q.

(** The incidents after one result: what [_process_monitor_result] makes
    of [current_incidents], [t] being the clock when the incident opens. *)
Definition open_incident (t : Q) (monitor_name : string)
    (result : MonitorResult) (d : gmap string Incident)
    : gmap string Incident :=
  match d !! monitor_name with
  | Some _ => d
  | None => <[monitor_name := mark_alert_sent (new_incident t monitor_name result)]> d
  end.

Definition incidents_after (t : Q) (monitor_name : string)
    (result : MonitorResult) (d : gmap string Incident)
    : gmap string Incident :=
  if is_incident_status (status result)
  then open_incident t monitor_name result d
  else delete monitor_name d.

(** What a run from [w] to [w'] appended to the violations and sent as
    alerts (latest first), and the latency part of each. *)
Definition new_violations (w w' : Sys) : list Violation :=
  drop (length (sla_violations (self w))) (sla_violations (self w')).

Definition new_alerts (w w' : Sys) : list AlertData :=
  take (length (alerts (trace w')) - length (alerts (trace w)))%nat
    (alerts (trace w')).

Definition latency_violations (vs : list Violation) : list Violation :=
  List.filter (fun v => String.eqb (sla_type v) "response_time") vs.

Definition warning_alerts (al : list AlertData) : list AlertData :=
  List.filter (fun a => String.eqb (a_severity a) "warning") al.

(** What the response time check appends and sends for a result: one
    violation and one WARNING alert that carries its identity, or nothing. *)
Definition latency_outcome (s : UptimeMonitor) (monitor_name : string)
    (result : MonitorResult) (lat_v : list Violation)
    (lat_a : list AlertData) : Prop :=
  match response_time result with
  | Some rt =>
      if Py.truthy rt
         && Py.gtb rt (violation_threshold (api_response_time (sla_thresholds s)))
      then exists t a,
             lat_v = [response_time_violation t monitor_name
                        (api_response_time (sla_thresholds s)) rt result]
             /\ lat_a = [a]
             /\ a_severity a = "warning"
             /\ a_incident_id a =
                  violation_id (response_time_violation t monitor_name
                    (api_response_time (sla_thresholds s)) rt result)
      else lat_v = [] /\ lat_a = []
  | None => lat_v = [] /\ lat_a = []
  end.

(** [keeps R m]: whatever [m] does from a state, it returns or it raises,
    the monitor it leaves is related by [R] to the monitor it found. *)
Definition keeps (R : relation UptimeMonitor) {A} (m : M A) : Prop :=
  forall w, R (self w) (self (exec m w)).

(** The monitor is the same. *)
Definition unchanged : relation UptimeMonitor := fun s s' => s' = s.

(** The configuration of a monitor is the same. *)
Definition same_config : relation UptimeMonitor :=
  fun s s' =>
    monitors s' = monitors s /\ sla_thresholds s' = sla_thresholds s
    /\ alert_channels s' = alert_channels s.

(** The recorded results are the same. *)
Definition same_history : relation UptimeMonitor :=
  fun s s' => monitor_results s' = monitor_results s.

(** The statistics are the same. *)
Definition same_stats : relation UptimeMonitor :=
  fun s s' =>
    uptime_stats s' = uptime_stats s
    /\ performance_stats s' = performance_stats s.

(** The log of violations has only grown. *)
Definition violations_grow : relation UptimeMonitor :=
  fun s s' => sla_violations s `prefix_of` sla_violations s'.

(** The uptime part of what was appended and sent. *)
Definition uptime_violations (vs : list Violation) : list Violation :=
  List.filter (fun v => String.eqb (sla_type v) "uptime") vs.

Definition emergency_alerts (al : list AlertData) : list AlertData :=
  List.filter (fun a => String.eqb (a_severity a) "emergency") al.

(** What the uptime check appends and sends for a result, [pct] being the
    uptime percentage of the monitor: one violation and one EMERGENCY alert
    that carries its identity, or nothing. *)
Definition uptime_outcome (s : UptimeMonitor) (monitor_name : string)
    (result : MonitorResult) (pct : Q) (up_v : list Violation)
    (up_a : list AlertData) : Prop :=
  if bool_decide (status result = DOWN)
     && Py.ltb pct (violation_threshold (uptime (sla_thresholds s)))
  then exists t a,
         up_v = [uptime_violation t monitor_name (uptime (sla_thresholds s))
                   pct result]
         /\ up_a = [a]
         /\ a_severity a = "emergency"
         /\ a_incident_id a =
              violation_id (uptime_violation t monitor_name
                              (uptime (sla_thresholds s)) pct result)
  else up_v = [] /\ up_a = [].

(** The alert that [_send_alert] builds when the clock reads [t]. *)
Definition alert_at (env : Env) (t : Q) (severity : AlertSeverity)
    (title message incident_id : string) : AlertData :=
  {| a_severity := severity_value severity; a_title := title;
     a_message := message; a_incident_id := incident_id;
     a_timestamp := isoformat env (datetime_of_clock t);
     a_service := "Harmonic IoT Protocol" |}.

(** The history of results after a sequence of stored results. *)
Definition history_after (results : list (string * MonitorResult))
    (d : gmap string (list MonitorResult)) : gmap string (list MonitorResult) :=
  fold_left (fun d nr => <[nr.1 := (default [] (d !! nr.1) ++ [nr.2])%list]> d)
    results d.

(** ** Scenarios *)

Module Scenario.

(** An environment whose clock advances by a tenth of a second at each
    reading from [t0], and whose network answers [answer k] to the k-th
    request. *)
Definition env_of (t0 : Q) (answer : nat -> NetOutcome) : Env :=
  {| clock := fun k => (t0 + inject_Z (Z.of_nat k) / 10)%Q;
     net_post := fun k _ _ => answer k;
     net_probe := fun k _ _ => answer k;
     harmonic_metrics := fun _ _ => [];
     str_float := fun _ => "?";
     fmt_2f := fun _ => "?";
     str_timedelta := fun _ => "?";
     isoformat := fun _ => "?" |}.

(** Every request is answered 200. *)
Definition calm : Env := env_of 1700000000%Q (fun _ => Response 200).

(** The first request is answered 500, the others 200. *)
Definition first_fails : Env :=
  env_of 1700000000%Q
    (fun k => match k with O => Response 500 | _ => Response 200 end).

Definition api_config (method : option string) : MonitorConfig :=
  {| cfg_url := Some "https://example.org/api/health";
     cfg_method := method; cfg_timeout := None;
     cfg_expected_status := None; cfg_expected_response_time := None |}.

Definition slack (url : string) : Channel :=
  {| ch_type := Some "slack"; ch_webhook_url := Some url |}.

(** A monitor "api", the default thresholds and the channels given. *)
Definition monitor (chs : list Channel) : UptimeMonitor :=
  init [("api", api_config None)] default_thresholds chs.

(** A result at [1700000000 + k] seconds. *)
Definition result_at (k : Z) (st : MonitorStatus) (rt : option Q)
    : MonitorResult :=
  {| timestamp := seconds (1700000000 + k); status := st;
     response_time := rt; status_code := None; error_message := None;
     additional_metrics := [] |}.

(** The default thresholds, but a response time SLA whose violation
    threshold is negative. *)
Definition negative_threshold : SLAThresholds :=
  {| uptime := default_uptime;
     api_response_time :=
       {| name := "API Response Time"; target_value := 200%Q;
          measurement_unit := "milliseconds"; measurement_period := "daily";
          violation_threshold := (-1)%Q; compensation_rate := 5%Q |};
     harmonic_processing_time := default_harmonic_processing_time;
     extra := ∅ |}.

(** A monitor with two Slack sinks, before anything has run. *)
Definition two_sinks : Sys := boot (monitor [slack "A"; slack "B"]).

(** A monitor without channels: clear, then after a DOWN result, then
    after a MAINTENANCE result in each of these two states. *)
Definition clear : Sys := boot (monitor []).
Definition maintenance : MonitorResult := result_at 0 MAINTENANCE None.
Definition clear_then_maintenance : Sys :=
  exec (_process_monitor_result calm "api" maintenance) clear.
Definition down : Sys :=
  exec (_process_monitor_result calm "api" (result_at 0 DOWN None)) clear.
Definition down_then_maintenance : Sys :=
  exec (_process_monitor_result calm "api" maintenance) down.

(** A monitor whose response time SLA has a negative violation
    threshold, and a result whose latency is exactly zero. *)
Definition lenient : Sys :=
  boot (init [("api", api_config None)] negative_threshold []).
Definition instant : MonitorResult := result_at 0 UP (Some 0%Q).

(** A slow result, for a monitor with a Slack channel. *)
Definition one_sink : Sys := boot (monitor [slack "hook"]).
Definition down_one_sink : Sys :=
  exec (_process_monitor_result calm "api" (result_at 0 DOWN None)) one_sink.
Definition slow : MonitorResult := result_at 0 UP (Some 600%Q).

(** The four results of the specification's scenario, stored for "api":
    UP, UP, DOWN, UP, a minute apart. *)
Definition four_results : Sys :=
  exec (process_all calm
          [("api", result_at 0 UP (Some 150%Q));
           ("api", result_at 60 UP (Some 150%Q));
           ("api", result_at 120 DOWN None);
           ("api", result_at 180 UP (Some 180%Q))]) clear.

(** One latency of 1 ms, then a thousand of 2 ms. *)
Definition evicting : list (string * MonitorResult) :=
  ("api", result_at 0 UP (Some 1%Q))
    :: repeat ("api", result_at 0 UP (Some 2%Q)) 1000.

Definition evicted : option PerfStat :=
  performance_stats (stats_after evicting (monitor [])) !! "api".

(** A monitor "api" after one UP result that took 300 ms: more than the
    200 ms target of the response time SLA, less than its violation
    threshold. *)
Definition sluggish : Sys :=
  exec (process_all calm [("api", result_at 0 UP (Some 300%Q))]) clear.

(** A clock that advances by six seconds at each reading. *)
Definition slow_clock : Env :=
  {| clock := fun k => (1700000000 + 6 * inject_Z (Z.of_nat k))%Q;
     net_post := fun _ _ _ => Response 200;
     net_probe := fun _ _ _ => Response 200;
     harmonic_metrics := fun _ _ => [];
     str_float := fun _ => "?";
     fmt_2f := fun _ => "?";
     str_timedelta := fun _ => "?";
     isoformat := fun _ => "?" |}.

(** A monitor that flaps within one second of the clock of [calm]: DOWN,
    then UP, then DOWN again. *)
Definition flap_down : Sys :=
  exec (store_and_process calm "api" (result_at 0 DOWN None)) clear.
Definition flap_up : Sys :=
  exec (store_and_process calm "api" (result_at 0 UP (Some 150%Q))) flap_down.
Definition flap_down_again : Sys :=
  exec (store_and_process calm "api" (result_at 0 DOWN None)) flap_up.

(** The four results of the scenario, then a clean-up two days later. *)
Definition two_days_later : Env :=
  env_of (1700000000 + 172800)%Q (fun _ => Response 200).

(** A configuration that tightens the uptime SLA and adds a custom one. *)
Definition only (vt : Q) : SLAConfig :=
  {| c_name := None; c_target_value := None; c_measurement_unit := None;
     c_measurement_period := None; c_violation_threshold := Some vt;
     c_compensation_rate := None; c_other_keys := [] |}.

Definition full (n : string) (tv vt : Q) : SLAConfig :=
  {| c_name := Some n; c_target_value := Some tv;
     c_measurement_unit := Some "milliseconds";
     c_measurement_period := Some "daily";
     c_violation_threshold := Some vt; c_compensation_rate := Some 1%Q;
     c_other_keys := [] |}.

Definition sla_config : list (string * SLAConfig) :=
  [("uptime", only (995 # 10)%Q); ("queue_delay", full "Queue delay" 50 80)].

(** A monitor whose first alert channel has no ['type'] entry. *)
Definition untyped_first : Sys :=
  boot (monitor [ {| ch_type := None; ch_webhook_url := Some "A" |};
                  slack "B" ]).

(** A network that answers nothing in time. *)
Definition silent : Env := env_of 1700000000%Q (fun _ => TimedOut).

(** A monitor probed with PUT, a method that [_check_monitor] does not
    know. *)
Definition put_config : MonitorConfig := api_config (Some "put").

End Scenario.

(** ** Reasoning about runs *)

(** [wp m Q w]: from [w], [m] returns normally, with a result and in a
    state that satisfy [Q]. *)
Definition wp {A} (m : M A) (Q : A -> Sys -> Prop) (w : Sys) : Prop :=
  match m w with
  | (Return a, w') => Q a w'
  | (Raise _, _) => False
  end.

Lemma wp_ret {A} (a : A) Q w : Q a w -> wp (ret a) Q w.
Proof. done. Qed.

Lemma wp_bind {A B} (m : M A) (k : A -> M B) Q w :
  wp m (fun a w' => wp (k a) Q w') w -> wp (bind m k) Q w.
Proof. unfold wp, bind. by destruct (m w) as [[a|e] w']. Qed.

Lemma wp_mono {A} (m : M A) (Q Q' : A -> Sys -> Prop) w :
  wp m Q w -> (forall a w', Q a w' -> Q' a w') -> wp m Q' w.
Proof. unfold wp. destruct (m w) as [[a|e] w']; auto. Qed.

Lemma wp_get_self Q w : Q (self w) w -> wp get_self Q w.
Proof. done. Qed.

Lemma wp_modify_self f Q w :
  Q tt {| self := f (self w); reads := reads w; requests := requests w;
          trace := trace w |} ->
  wp (modify_self f) Q w.
Proof. done. Qed.

Lemma wp_emit e Q w :
  Q tt {| self := self w; reads := reads w; requests := requests w;
          trace := e :: trace w |} ->
  wp (emit e) Q w.
Proof. done. Qed.

Lemma wp_time_time env Q w :
  Q (clock env (reads w))
    {| self := self w; reads := S (reads w); requests := requests w;
       trace := trace w |} ->
  wp (time_time env) Q w.
Proof. done. Qed.

Lemma wp_utcnow env Q w :
  Q (datetime_of_clock (clock env (reads w)))
    {| self := self w; reads := S (reads w); requests := requests w;
       trace := trace w |} ->
  wp (utcnow env) Q w.
Proof. done. Qed.

(** A run that satisfies [wp] returns, and its final state is as promised. *)
Lemma wp_run {A} (m : M A) Q w :
  wp m Q w -> exists a, eval m w = Return a /\ Q a (exec m w).
Proof.
  unfold wp, eval, exec. destruct (m w) as [[a|e] w']; simpl; [eauto | done].
Qed.

Lemma wp_run_unit (m : M unit) Q w :
  wp m Q w -> eval m w = Return tt /\ Q tt (exec m w).
Proof. intros H. destruct (wp_run _ _ _ H) as ([] & ? & ?). done. Qed.

(** ** Alert dispatch *)

Section Dispatch.

Variable env : Env.

(** One channel that names its type: whatever its sink does, the loop
    body returns, leaves the monitor as it is, and has posted to the
    sink if there is one. *)
Lemma send_to_channel_typed alert_data c w :
  is_Some (ch_type c) ->
  exists w',
    send_to_channel env alert_data c w = (Return tt, w')
    /\ self w' = self w /\ reads w' = reads w
    /\ alerts (trace w') = alerts (trace w)
    /\ posted (trace w') = (slack_urls [c] ++ posted (trace w))%list.
Proof.
  intros [ty Hty]. destruct c as [cty curl]. simpl in Hty. subst cty.
  unfold send_to_channel, try_except, bind, item, slack_urls. simpl.
  destruct (String.eqb ty "email") eqn:He.
  { apply String.eqb_eq in He. subst ty. destruct curl; simpl; eauto 10. }
  destruct (String.eqb ty "slack") eqn:Hs.
  { unfold _send_slack_alert, bind, item, post_json. simpl.
    destruct curl as [url|]; simpl; [|eauto 10].
    destruct (net_post env (requests w) url (slack_payload alert_data))
      as [code| |msg]; simpl; [|eauto 10..].
    destruct (Z.eqb code 200); simpl; eauto 10. }
  destruct (String.eqb ty "webhook") eqn:Hw.
  { destruct curl; simpl; eauto 10. }
  destruct (String.eqb ty "pagerduty") eqn:Hp.
  { destruct curl; simpl; eauto 10. }
  destruct curl; simpl; eauto 10.
Qed.

Lemma for_each_channels_typed alert_data chs w :
  typed chs ->
  exists w',
    for_each chs (send_to_channel env alert_data) w = (Return tt, w')
    /\ self w' = self w /\ reads w' = reads w
    /\ alerts (trace w') = alerts (trace w)
    /\ posted (trace w') = (rev (slack_urls chs) ++ posted (trace w))%list.
Proof.
  intros Hty. revert w. induction Hty as [|c chs Hc _ IH]; intros w.
  { exists w. done. }
  destruct (send_to_channel_typed alert_data c w Hc)
    as (w1 & Hrun & Hself & Hreads & Hal & Hpost).
  destruct (IH w1) as (w2 & Hrun2 & Hself2 & Hreads2 & Hal2 & Hpost2).
  exists w2. simpl. unfold bind. rewrite Hrun, Hrun2.
  repeat split; try congruence.
  rewrite Hpost2, Hpost.
  change (slack_urls (c :: chs)) with (slack_urls [c] ++ slack_urls chs)%list.
  rewrite rev_app_distr, <- app_assoc. f_equal. f_equal.
  unfold slack_urls. simpl. rewrite app_nil_r.
  by repeat case_match.
Qed.

(** [_send_alert] to channels that name their type. *)
Lemma wp_send_alert severity title message incident_id Q w :
  typed (alert_channels (self w)) ->
  (forall w' a,
     self w' = self w ->
     reads w' = S (reads w) ->
     alerts (trace w') = a :: alerts (trace w) ->
     a_severity a = severity_value severity ->
     a_incident_id a = incident_id ->
     posted (trace w') =
       (rev (slack_urls (alert_channels (self w))) ++ posted (trace w))%list ->
     Q tt w') ->
  wp (_send_alert env severity title message incident_id) Q w.
Proof.
  intros Hty HQ. unfold _send_alert.
  apply wp_bind, wp_utcnow, wp_bind, wp_emit, wp_bind, wp_get_self. simpl.
  match goal with |- wp _ _ ?w0 => set (w1 := w0) end.
  destruct (for_each_channels_typed
              {| a_severity := severity_value severity; a_title := title;
                 a_message := message; a_incident_id := incident_id;
                 a_timestamp :=
                   isoformat env (datetime_of_clock (clock env (reads w)));
                 a_service := "Harmonic IoT Protocol" |}
              (alert_channels (self w)) w1 Hty)
    as (w' & Hrun & Hself & Hreads & Hal & Hpost).
  unfold wp. rewrite Hrun. subst w1. simpl in *.
  eapply HQ; eauto; done.
Qed.

(** A list of channels that does not name every type has a first channel
    without one. *)
Lemma untyped_split chs :
  ~ typed chs ->
  exists before c after,
    chs = (before ++ c :: after)%list /\ typed before /\ ch_type c = None.
Proof.
  induction chs as [|c chs IH]; intros Hnot.
  { exfalso. apply Hnot. constructor. }
  destruct (ch_type c) as [ty|] eqn:Hc.
  - destruct IH as (before & c' & after & -> & Hty & Hc').
    { intros Hty. apply Hnot. constructor; [by rewrite Hc|done]. }
    exists (c :: before), c', after. split; [done|]. split; [|done].
    constructor; [by rewrite Hc|done].
  - exists [], c, chs. split; [done|]. split; [constructor|done].
Qed.

(** One channel without a type: the lookup raises inside the [try], the
    handler looks the type up again and raises outside it. *)
Lemma send_to_channel_untyped alert_data c w :
  ch_type c = None ->
  send_to_channel env alert_data c w = (Raise (Py.KeyError "type"), w).
Proof.
  intros Hc. unfold send_to_channel, try_except, bind, item. by rewrite Hc.
Qed.

(** The loop stops at the first channel without a type: the channels
    before it have been served, those after it are never reached. *)
Lemma for_each_channels_untyped alert_data before c after w :
  typed before ->
  ch_type c = None ->
  exists w',
    for_each (before ++ c :: after) (send_to_channel env alert_data) w
      = (Raise (Py.KeyError "type"), w')
    /\ self w' = self w /\ reads w' = reads w
    /\ alerts (trace w') = alerts (trace w)
    /\ posted (trace w') = (rev (slack_urls before) ++ posted (trace w))%list.
Proof.
  intros Hty Hc. revert w. induction Hty as [|b before Hb _ IH]; intros w.
  { exists w. simpl. unfold bind.
    by rewrite (send_to_channel_untyped alert_data c w Hc). }
  destruct (send_to_channel_typed alert_data b w Hb)
    as (w1 & Hrun & Hself & Hreads & Hal & Hpost).
  destruct (IH w1) as (w2 & Hrun2 & Hself2 & Hreads2 & Hal2 & Hpost2).
  exists w2. simpl. unfold bind. rewrite Hrun. simpl in Hrun2. rewrite Hrun2.
  repeat split; try congruence.
  rewrite Hpost2, Hpost.
  change (slack_urls (b :: before))
    with (slack_urls [b] ++ slack_urls before)%list.
  rewrite rev_app_distr, <- app_assoc. f_equal. f_equal.
  unfold slack_urls. simpl. rewrite app_nil_r.
  by repeat case_match.
Qed.

(** [_send_alert] on any list of channels: the alert is built and the
    monitor is left as it is; the call returns when every channel names its
    type and raises [KeyError] otherwise. *)
Lemma send_alert_run severity title message incident_id w :
  exists w',
    exec (_send_alert env severity title message incident_id) w = w'
    /\ self w' = self w /\ reads w' = S (reads w)
    /\ alerts (trace w') =
         alert_at env (clock env (reads w)) severity title message incident_id
           :: alerts (trace w)
    /\ (typed (alert_channels (self w)) ->
        eval (_send_alert env severity title message incident_id) w
          = Return tt)
    /\ (~ typed (alert_channels (self w)) ->
        eval (_send_alert env severity title message incident_id) w
          = Raise (Py.KeyError "type")).
Proof.
  eexists. split; [reflexivity|].
  unfold _send_alert, exec, eval, bind, utcnow, bind, time_time, emit,
    get_self, ret.
  simpl.
  fold (alert_at env (clock env (reads w)) severity title message incident_id).
  match goal with |- context [for_each _ _ ?w0] => set (w1 := w0) end.
  destruct (decide (Forall (fun c => is_Some (ch_type c))
                      (alert_channels (self w)))) as [Hty|Hnot].
  - destruct (for_each_channels_typed
                (alert_at env (clock env (reads w)) severity title message
                   incident_id)
                (alert_channels (self w)) w1 Hty)
      as (w' & Hrun & Hself & Hreads & Hal & _).
    rewrite Hrun. simpl. split_and!; try done.
  - destruct (untyped_split _ Hnot) as (before & c & after & Hch & Hty & Hc).
    destruct (for_each_channels_untyped
                (alert_at env (clock env (reads w)) severity title message
                   incident_id)
                before c after w1 Hty Hc)
      as (w' & Hrun & Hself & Hreads & Hal & _).
    rewrite Hch, Hrun. simpl. split_and!; try done.
    intros Hty'. exfalso. apply Hnot. by rewrite Hch.
Qed.

End Dispatch.

(** ** Incidents *)

Lemma set_current_incidents_id f s :
  f (current_incidents s) = current_incidents s ->
  set_current_incidents f s = s.
Proof. destruct s. unfold set_current_incidents. simpl. by intros ->. Qed.

Lemma update_statistics_frame monitor_name result s :
  current_incidents (update_statistics monitor_name result s)
    = current_incidents s
  /\ alert_channels (update_statistics monitor_name result s)
    = alert_channels s
  /\ sla_violations (update_statistics monitor_name result s)
    = sla_violations s
  /\ sla_thresholds (update_statistics monitor_name result s)
    = sla_thresholds s
  /\ monitor_results (update_statistics monitor_name result s)
    = monitor_results s.
Proof. unfold update_statistics. by repeat case_match. Qed.

Section Incidents.

Variable env : Env.

Lemma wp_handle_incident monitor_name result Q w :
  typed (alert_channels (self w)) ->
  (forall w',
     self w' =
       set_current_incidents
         (open_incident (clock env (reads w)) monitor_name result) (self w) ->
     Q tt w') ->
  wp (_handle_incident env monitor_name result) Q w.
Proof.
  intros Hty HQ. unfold _handle_incident.
  apply wp_bind, wp_get_self.
  destruct (current_incidents (self w) !! monitor_name) as [i|] eqn:Hlook.
  { apply wp_ret, HQ. symmetry. apply set_current_incidents_id.
    unfold open_incident. by rewrite Hlook. }
  apply wp_bind, wp_time_time, wp_bind, wp_modify_self, wp_bind.
  apply wp_send_alert; [done|]. simpl.
  intros w1 a Hself _ _ _ _ _.
  apply wp_bind, wp_modify_self, wp_emit, HQ. simpl. rewrite Hself.
  unfold set_current_incidents, open_incident. simpl.
  by rewrite Hlook, alter_insert_eq.
Qed.

Lemma wp_resolve_incident monitor_name result Q w :
  typed (alert_channels (self w)) ->
  (forall w',
     self w' = set_current_incidents (delete monitor_name) (self w) ->
     Q tt w') ->
  wp (_resolve_incident env monitor_name result) Q w.
Proof.
  intros Hty HQ. unfold _resolve_incident.
  apply wp_bind, wp_get_self.
  destruct (current_incidents (self w) !! monitor_name) as [i|] eqn:Hlook.
  2:{ apply wp_ret, HQ. symmetry. apply set_current_incidents_id.
      by apply delete_id. }
  apply wp_bind, wp_send_alert; [done|].
  intros w1 a Hself _ _ _ _ _.
  apply wp_bind, wp_modify_self, wp_bind, wp_modify_self, wp_emit, HQ.
  simpl. rewrite Hself. unfold set_current_incidents. simpl. f_equal.
  apply map_eq. intros k. destruct (decide (k = monitor_name)) as [->|Hne].
  - by rewrite !lookup_delete_eq.
  - by rewrite !lookup_delete_ne, lookup_alter_ne.
Qed.

End Incidents.

(** ** Uptime over a period *)

Lemma up_count_filter rs :
  up_count rs = Z.of_nat (length (List.filter is_up rs)).
Proof.
  unfold up_count.
  assert (forall acc,
    fold_left (fun acc r => if decide (status r = UP) then acc + 1 else acc)
      rs acc = acc + Z.of_nat (length (List.filter is_up rs))) as H.
  { induction rs as [|r rs IH]; intros acc; simpl; [lia|].
    rewrite IH. unfold is_up at 2.
    destruct (decide (status r = UP)) as [Hup|Hup].
    - rewrite bool_decide_eq_true_2 by done. simpl. lia.
    - rewrite bool_decide_eq_false_2 by done. lia. }
  by rewrite H.
Qed.

Lemma in_window_filter start rs :
  List.filter (in_window start) rs
    = List.filter (fun r => bool_decide (start <= timestamp r)) rs.
Proof.
  apply List.filter_ext. intros r. unfold in_window.
  destruct (Z.leb_spec start (timestamp r)).
  - by rewrite bool_decide_eq_true_2.
  - rewrite bool_decide_eq_false_2; [done | lia].
Qed.

Section Uptime.

Variable env : Env.

Lemma wp_calculate_uptime_percentage monitor_name period Q w :
  (forall w',
     self w' = self w -> trace w' = trace w ->
     Q (uptime_of (window (self w) monitor_name period
                     (datetime_of_clock (clock env (reads w))))) w') ->
  wp (_calculate_uptime_percentage env monitor_name period) Q w.
Proof.
  intros HQ. unfold _calculate_uptime_percentage.
  apply wp_bind, wp_get_self. unfold window in HQ.
  destruct (monitor_results (self w) !! monitor_name) as [recorded|].
  2:{ apply wp_ret. by apply HQ. }
  apply wp_bind, wp_utcnow. simpl in *.
  rewrite in_window_filter.
  match goal with |- context [List.filter ?f recorded] =>
    set (win := List.filter f recorded) in * end.
  specialize (HQ {| self := self w; reads := S (reads w);
                    requests := requests w; trace := trace w |} eq_refl eq_refl).
  unfold uptime_of in HQ. fold win in HQ.
  destruct win as [|r win'] eqn:Hwin; [by apply wp_ret|].
  apply wp_ret. rewrite up_count_filter. exact HQ.
Qed.

End Uptime.

(** ** SLA violations *)

Lemma set_sla_violations_id vs s :
  vs = sla_violations s -> set_sla_violations (fun _ => vs) s = s.
Proof. destruct s. unfold set_sla_violations. simpl. by intros ->. Qed.

Section SLA.

Variable env : Env.

Lemma wp_check_uptime_sla monitor_name result Q w :
  typed (alert_channels (self w)) ->
  (forall w' up_v up_a,
     self w' =
       set_sla_violations
         (fun _ => (sla_violations (self w) ++ up_v)%list) (self w) ->
     alerts (trace w') = (up_a ++ alerts (trace w))%list ->
     Forall (fun v => sla_type v = "uptime") up_v ->
     Forall (fun a => a_severity a = "emergency") up_a ->
     Q tt w') ->
  wp (check_uptime_sla env monitor_name result) Q w.
Proof.
  intros Hty HQ. unfold check_uptime_sla.
  assert (Q tt w) as Hskip.
  { apply (HQ w [] []); try done.
    symmetry. apply set_sla_violations_id. by rewrite app_nil_r. }
  destruct (decide (status result = DOWN)); [|by apply wp_ret].
  apply wp_bind, wp_calculate_uptime_percentage.
  intros w1 Hself Htrace. apply wp_bind, wp_get_self.
  match goal with |- context [Py.ltb ?a ?b] => destruct (Py.ltb a b) end.
  2:{ apply wp_ret. apply (HQ w1 [] []); try done.
      - rewrite Hself. symmetry. apply set_sla_violations_id.
        by rewrite app_nil_r.
      - by rewrite Htrace. }
  apply wp_bind, wp_time_time, wp_bind. unfold append_violation.
  apply wp_modify_self, wp_send_alert; simpl; [by rewrite Hself|].
  intros w2 a Hself2 _ Hal Hsev _ _. simpl in *.
  eapply (HQ w2 [_] [a]).
  - rewrite Hself2, Hself. reflexivity.
  - rewrite Hal, Htrace. reflexivity.
  - by repeat constructor.
  - by repeat constructor.
Qed.

Lemma wp_check_response_time_sla monitor_name result Q w :
  typed (alert_channels (self w)) ->
  (forall w' lat_v lat_a,
     self w' =
       set_sla_violations
         (fun _ => (sla_violations (self w) ++ lat_v)%list) (self w) ->
     alerts (trace w') = (lat_a ++ alerts (trace w))%list ->
     latency_outcome (self w) monitor_name result lat_v lat_a ->
     Q tt w') ->
  wp (check_response_time_sla env monitor_name result) Q w.
Proof.
  intros Hty HQ. unfold check_response_time_sla.
  assert (self w = set_sla_violations
            (fun _ => (sla_violations (self w) ++ [])%list) (self w)) as Hid.
  { symmetry. apply set_sla_violations_id. by rewrite app_nil_r. }
  pose proof (HQ w [] [] Hid eq_refl) as Hskip.
  unfold latency_outcome in *.
  destruct (response_time result) as [rt|]; [|by apply wp_ret, Hskip].
  destruct (Py.truthy rt); simpl in *; [|by apply wp_ret, Hskip].
  apply wp_bind, wp_get_self.
  destruct (Py.gtb rt _); [|by apply wp_ret, Hskip].
  clear Hskip.
  apply wp_bind, wp_time_time, wp_bind. unfold append_violation.
  apply wp_modify_self, wp_send_alert; simpl; [done|].
  intros w2 a Hself2 _ Hal Hsev Hid2 _. simpl in *.
  eapply (HQ w2 [_] [a]); [by rewrite Hself2 | by rewrite Hal |].
  eauto 10.
Qed.

Lemma wp_check_sla_violations monitor_name result Q w :
  typed (alert_channels (self w)) ->
  (forall w' up_v lat_v up_a lat_a,
     self w' =
       set_sla_violations
         (fun _ => (sla_violations (self w) ++ up_v ++ lat_v)%list) (self w) ->
     alerts (trace w') = (lat_a ++ up_a ++ alerts (trace w))%list ->
     Forall (fun v => sla_type v = "uptime") up_v ->
     Forall (fun a => a_severity a = "emergency") up_a ->
     latency_outcome (self w) monitor_name result lat_v lat_a ->
     Q tt w') ->
  wp (_check_sla_violations env monitor_name result) Q w.
Proof.
  intros Hty HQ. unfold _check_sla_violations.
  apply wp_bind, wp_check_uptime_sla; [done|].
  intros w1 up_v up_a Hself1 Hal1 Hup_v Hup_a.
  apply wp_check_response_time_sla; [by rewrite Hself1|].
  intros w2 lat_v lat_a Hself2 Hal2 Hlat.
  apply (HQ w2 up_v lat_v up_a lat_a); try done.
  - rewrite Hself2, Hself1. unfold set_sla_violations. simpl.
    by rewrite app_assoc.
  - by rewrite Hal2, Hal1.
  - by rewrite Hself1 in Hlat.
Qed.

End SLA.

(** ** One result through the pipeline *)

Section Pipeline.

Variable env : Env.

Lemma wp_process_monitor_result monitor_name result Q w :
  typed (alert_channels (self w)) ->
  (forall w',
     alert_channels (self w') = alert_channels (self w) ->
     current_incidents (self w') =
       incidents_after (clock env (reads w)) monitor_name result
         (current_incidents (self w)) ->
     Q tt w') ->
  wp (_process_monitor_result env monitor_name result) Q w.
Proof.
  intros Hty HQ. unfold _process_monitor_result.
  apply wp_bind.
  (* the incident branch leaves [current_incidents] as [incidents_after] says *)
  assert (wp (if is_incident_status (status result)
              then _handle_incident env monitor_name result
              else bind get_self (fun s =>
                     match current_incidents s !! monitor_name with
                     | Some _ => _resolve_incident env monitor_name result
                     | None => ret tt
                     end))
            (fun _ w1 =>
               self w1 =
                 set_current_incidents
                   (incidents_after (clock env (reads w)) monitor_name result)
                   (self w)) w) as Hinc.
  { unfold incidents_after.
    destruct (is_incident_status (status result)).
    - by apply wp_handle_incident.
    - apply wp_bind, wp_get_self.
      destruct (current_incidents (self w) !! monitor_name) eqn:Hlook.
      + by apply wp_resolve_incident.
      + apply wp_ret. symmetry. apply set_current_incidents_id.
        by apply delete_id. }
  eapply wp_mono; [exact Hinc|]. clear Hinc. simpl.
  intros [] w1 Hself1.
  apply wp_bind, wp_check_sla_violations; [by rewrite Hself1|].
  intros w2 up_v lat_v up_a lat_a Hself2 _ _ _ _.
  unfold _update_statistics. apply wp_modify_self, HQ; simpl.
  - destruct (update_statistics_frame monitor_name result (self w2))
      as (_ & -> & _).
    by rewrite Hself2, Hself1.
  - destruct (update_statistics_frame monitor_name result (self w2))
      as (-> & _).
    by rewrite Hself2, Hself1.
Qed.

Lemma wp_store_and_process monitor_name result Q w :
  typed (alert_channels (self w)) ->
  (forall w',
     alert_channels (self w') = alert_channels (self w) ->
     current_incidents (self w') =
       incidents_after (clock env (reads w)) monitor_name result
         (current_incidents (self w)) ->
     Q tt w') ->
  wp (store_and_process env monitor_name result) Q w.
Proof.
  intros Hty HQ. unfold store_and_process.
  apply wp_bind, wp_modify_self, wp_process_monitor_result; [done|].
  simpl. intros w' Hch Hinc. by apply HQ.
Qed.

End Pipeline.

Lemma is_incident_status_spec st :
  is_incident_status st = true <-> st = DOWN \/ st = DEGRADED.
Proof.
  destruct st; unfold is_incident_status; simpl;
    (split; [intros ? | intros [?|?]]); try done; auto.
Qed.

(** The incident of a monitor after one result depends on the result
    alone; the other monitors keep theirs. *)
Lemma incidents_after_open t monitor_name result d :
  is_Some (incidents_after t monitor_name result d !! monitor_name)
  <-> is_incident_status (status result) = true.
Proof.
  unfold incidents_after, open_incident.
  destruct (is_incident_status (status result)).
  - split; [done|]. intros _.
    destruct (d !! monitor_name) eqn:Hd; [by rewrite Hd|].
    by rewrite lookup_insert_eq.
  - rewrite lookup_delete_eq. split; [by intros [? ?] | done].
Qed.

Lemma incidents_after_other t monitor_name result d other :
  other <> monitor_name ->
  incidents_after t monitor_name result d !! other = d !! other.
Proof.
  intros Hne. unfold incidents_after, open_incident.
  destruct (is_incident_status (status result)).
  - destruct (d !! monitor_name); [done|]. by rewrite lookup_insert_ne.
  - by rewrite lookup_delete_ne.
Qed.

Lemma incidents_after_ongoing t monitor_name result d i :
  d !! monitor_name = Some i ->
  is_incident_status (status result) = true ->
  incidents_after t monitor_name result d = d.
Proof.
  intros Hd Hst. unfold incidents_after, open_incident. by rewrite Hst, Hd.
Qed.

(** ** Sequences of results *)

Lemma last_result_cons monitor_name n r rest :
  last_result monitor_name ((n, r) :: rest) =
    if String.eqb n monitor_name
    then match last_result monitor_name rest with
         | Some r' => Some r'
         | None => Some r
         end
    else last_result monitor_name rest.
Proof.
  unfold last_result. simpl.
  destruct (String.eqb n monitor_name); [|done].
  rewrite last_cons.
  by destruct (last (List.filter _ rest)).
Qed.

Section Sequences.

Variable env : Env.

Lemma wp_process_all monitor_name results w :
  typed (alert_channels (self w)) ->
  wp (process_all env results)
    (fun _ w' =>
       alert_channels (self w') = alert_channels (self w)
       /\ match last_result monitor_name results with
          | Some r =>
              incident_open (self w') monitor_name
              <-> is_incident_status (status r) = true
          | None =>
              current_incidents (self w') !! monitor_name
                = current_incidents (self w) !! monitor_name
          end) w.
Proof.
  revert w. unfold process_all.
  induction results as [|[n r] rest IH]; intros w Hty.
  { by apply wp_ret. }
  simpl. apply wp_bind, wp_store_and_process; [done|].
  intros w1 Hch1 Hinc1.
  eapply wp_mono; [apply IH; by rewrite Hch1|].
  intros [] w2 [Hch2 Hlast]. split; [congruence|].
  rewrite last_result_cons.
  destruct (String.eqb n monitor_name) eqn:Hn.
  - apply String.eqb_eq in Hn. subst n.
    destruct (last_result monitor_name rest) as [r'|]; [done|].
    unfold incident_open. rewrite Hlast, Hinc1.
    apply incidents_after_open.
  - apply String.eqb_neq in Hn.
    destruct (last_result monitor_name rest) as [r'|]; [done|].
    rewrite Hlast, Hinc1. by apply incidents_after_other.
Qed.

End Sequences.

(** C1, as the code has it.  With alert channels that name their type,
    processing a result leaves the monitor with an open incident exactly
    when the result is DOWN or DEGRADED, whatever the state before: Clear
    goes to Open exactly on DOWN or DEGRADED, Open goes to Clear exactly on a
    result that is neither (UP, and MAINTENANCE as well), an ongoing incident
    is kept as it is, and the other monitors are untouched.  Hence after any
    sequence of results a monitor has an open incident exactly when its last
    result was DOWN or DEGRADED, and none when it was UP. *)
Theorem incident_follows_last_result env w monitor_name results :
  typed (alert_channels (self w)) ->
  (forall result,
     let w' := exec (_process_monitor_result env monitor_name result) w in
     eval (_process_monitor_result env monitor_name result) w = Return tt
     /\ (incident_open (self w') monitor_name
         <-> status result = DOWN \/ status result = DEGRADED)
     /\ (incident_open (self w) monitor_name ->
         status result = DOWN \/ status result = DEGRADED ->
         current_incidents (self w') = current_incidents (self w))
     /\ (forall other, other <> monitor_name ->
         current_incidents (self w') !! other
           = current_incidents (self w) !! other))
  /\ (let w' := exec (process_all env results) w in
      eval (process_all env results) w = Return tt
      /\ forall r, last_result monitor_name results = Some r ->
           (incident_open (self w') monitor_name
            <-> status r = DOWN \/ status r = DEGRADED)
           /\ (status r = UP -> ~ incident_open (self w') monitor_name)).
Proof.
  intros Hty. split.
  - intros result w'.
    pose proof (wp_process_monitor_result env monitor_name result
                  (fun _ w1 =>
                     current_incidents (self w1) =
                       incidents_after (clock env (reads w)) monitor_name
                         result (current_incidents (self w)))
                  w Hty (fun _ _ H => H)) as Hwp.
    apply wp_run_unit in Hwp as [Hret Hinc]. fold w' in Hinc.
    split; [done|]. unfold incident_open. rewrite Hinc.
    split; [|split].
    + rewrite incidents_after_open. apply is_incident_status_spec.
    + intros [i Hi] Hst. apply is_incident_status_spec in Hst.
      by eapply incidents_after_ongoing.
    + intros other Hne. by apply incidents_after_other.
  - intros w'.
    pose proof (wp_process_all env monitor_name results w Hty) as Hwp.
    apply wp_run_unit in Hwp as [Hret [_ Hlast]]. fold w' in Hlast.
    split; [done|]. intros r Hr. rewrite Hr in Hlast.
    rewrite is_incident_status_spec in Hlast. split; [done|].
    intros Hup Hopen. apply Hlast in Hopen as [?|?]; congruence.
Qed.

(** A monitor with one Slack channel: after DOWN then UP no incident is
    open. *)
Lemma incident_follows_last_result_witness :
  typed (alert_channels (self (boot (Scenario.monitor [Scenario.slack "hook"]))))
  /\ ~ incident_open
         (self (exec (process_all Scenario.calm
                        [("api", Scenario.result_at 0 DOWN None);
                         ("api", Scenario.result_at 60 UP (Some 150%Q))])
                  (boot (Scenario.monitor [Scenario.slack "hook"]))))
         "api".
Proof.
  assert (typed (alert_channels
            (self (boot (Scenario.monitor [Scenario.slack "hook"]))))) as Hty.
  { repeat constructor. simpl. by eexists. }
  split; [exact Hty|].
  destruct (incident_follows_last_result Scenario.calm _ "api"
              [("api", Scenario.result_at 0 DOWN None);
               ("api", Scenario.result_at 60 UP (Some 150%Q))] Hty)
    as [_ [_ Hseq]].
  by apply (Hseq (Scenario.result_at 60 UP (Some 150%Q))).
Defined.

(** C1 as stated fails on the fourth status of [MonitorStatus]: a
    MAINTENANCE result is not UP, yet it opens no incident on a clear
    monitor, and it resolves the incident of a monitor that has one. *)
Lemma maintenance_opens_no_incident :
  status Scenario.maintenance <> UP
  /\ ~ incident_open (self Scenario.clear) "api"
  /\ ~ incident_open (self Scenario.clear_then_maintenance) "api"
  /\ incident_open (self Scenario.down) "api"
  /\ ~ incident_open (self Scenario.down_then_maintenance) "api".
Proof.
  unfold incident_open. vm_compute.
  repeat split; try done; try (by intros [? ?]). by eexists.
Qed.

(** An alert dispatched to channels that name their type: whatever
    each sink does (any answer of the network, any missing webhook, any
    sink method that the class lacks), [_send_alert] returns normally, the
    monitor is unchanged, and every Slack webhook configured has been posted
    to, once and in the order of the channels.  A failed sink stops nothing:
    the environment, hence the outcome of each sink, is arbitrary. *)
Lemma send_alert_isolates_sink_failures env severity title message
    incident_id w :
  typed (alert_channels (self w)) ->
  let w' := exec (_send_alert env severity title message incident_id) w in
  eval (_send_alert env severity title message incident_id) w = Return tt
  /\ posted (trace w') =
       (rev (slack_urls (alert_channels (self w))) ++ posted (trace w))%list
  /\ self w' = self w.
Proof.
  intros Hty w'.
  pose proof (wp_send_alert env severity title message incident_id
                (fun _ w1 =>
                   posted (trace w1) =
                     (rev (slack_urls (alert_channels (self w)))
                        ++ posted (trace w))%list
                   /\ self w1 = self w)
                w Hty) as Hwp.
  apply wp_run_unit in Hwp; [done|]. by intros w1 a ? _ _ _ _ ?.
Qed.

(** Two Slack sinks of which the first answers 500: the dispatch returns
    and the second has been posted to. *)
Lemma send_alert_isolates_sink_failures_witness :
  typed (alert_channels (self Scenario.two_sinks))
  /\ eval (_send_alert Scenario.first_fails CRITICAL "t" "m" "i")
        Scenario.two_sinks = Return tt
  /\ posted (trace (exec (_send_alert Scenario.first_fails CRITICAL "t" "m" "i")
                      Scenario.two_sinks))
     = ["B"; "A"].
Proof.
  assert (typed (alert_channels (self Scenario.two_sinks))) as Hty.
  { repeat constructor; simpl; by eexists. }
  split; [exact Hty|].
  destruct (send_alert_isolates_sink_failures Scenario.first_fails
              CRITICAL "t" "m" "i" Scenario.two_sinks Hty)
    as (Hret & Hposted & _).
  split; [exact Hret | exact Hposted].
Defined.

(** What the trace of that dispatch holds: the failure of the first sink is
    logged, the second sink is served. *)
Example first_sink_fails_second_served :
  let w' := exec (_send_alert Scenario.first_fails CRITICAL "t" "m" "i")
              Scenario.two_sinks in
  errors_logged (trace w')
    = ["Failed to send alert via slack: Slack webhook returned 500"]
  /\ omap (fun e => match e with
                    | EvPost url _ r => Some (url, r)
                    | _ => None
                    end) (trace w')
     = [("B", Response 200); ("A", Response 500)].
Proof. vm_compute. done. Qed.

(** The sinks that the class does not define fail as well, and are caught. *)
Example missing_sinks_are_caught :
  let chs := [ {| ch_type := Some "email"; ch_webhook_url := None |};
               {| ch_type := Some "pagerduty"; ch_webhook_url := None |};
               Scenario.slack "B" ] in
  let w := boot (Scenario.monitor chs) in
  let w' := exec (_send_alert Scenario.calm INFO "t" "m" "i") w in
  eval (_send_alert Scenario.calm INFO "t" "m" "i") w = Return tt
  /\ posted (trace w') = ["B"]
  /\ length (errors_logged (trace w')) = 2%nat.
Proof. vm_compute. done. Qed.

(** C7.  The isolation of sinks fails on a channel without a ['type']
    entry.  Its lookup raises inside the [try]; the handler of line 446
    formats [channel['type']] again, and this second [KeyError] is raised
    outside any [try].  So, when the channels before it name their type,
    [_send_alert] does not return: it raises [KeyError('type')] to its
    caller, having posted to the Slack webhooks before that channel only;
    no sink after it is invoked, whatever it would have answered. *)
Theorem untyped_sink_aborts_dispatch env severity title message incident_id
    w before c after :
  alert_channels (self w) = (before ++ c :: after)%list ->
  typed before ->
  ch_type c = None ->
  let w' := exec (_send_alert env severity title message incident_id) w in
  eval (_send_alert env severity title message incident_id) w
    = Raise (Py.KeyError "type")
  /\ posted (trace w') = (rev (slack_urls before) ++ posted (trace w))%list
  /\ self w' = self w.
Proof.
  intros Hch Hty Hc w'. subst w'.
  unfold _send_alert, exec, eval, bind, utcnow, bind, time_time, emit,
    get_self, ret.
  simpl. rewrite Hch.
  match goal with |- context [for_each _ (send_to_channel env ?a) ?w0] =>
    destruct (for_each_channels_untyped env a before c after w0 Hty Hc)
      as (w2 & Hrun & Hself & _ & _ & Hpost)
  end.
  rewrite Hrun. simpl. split; [done|]. split; [exact Hpost | exact Hself].
Qed.

(** Two sinks: the first has no ['type'], the second is a Slack webhook
    that would answer 200.  The dispatch raises and the second is never
    posted to. *)
Lemma untyped_sink_aborts_dispatch_witness :
  alert_channels (self Scenario.untyped_first)
    = ([] ++ {| ch_type := None; ch_webhook_url := Some "A" |}
          :: [Scenario.slack "B"])%list
  /\ net_post Scenario.calm 0 "B" [] = Response 200
  /\ eval (_send_alert Scenario.calm CRITICAL "t" "m" "i")
       Scenario.untyped_first
     = Raise (Py.KeyError "type")
  /\ posted (trace (exec (_send_alert Scenario.calm CRITICAL "t" "m" "i")
                      Scenario.untyped_first))
     = [].
Proof.
  split; [reflexivity|]. split; [reflexivity|].
  destruct (untyped_sink_aborts_dispatch Scenario.calm CRITICAL "t" "m" "i"
              Scenario.untyped_first []
              {| ch_type := None; ch_webhook_url := Some "A" |}
              [Scenario.slack "B"] eq_refl (Forall_nil_2 _) eq_refl)
    as (Hraise & Hposted & _).
  split; [exact Hraise | exact Hposted].
Defined.

(** The same on the channels of the example above. *)
Example untyped_channel_raises :
  let chs := [ {| ch_type := None; ch_webhook_url := Some "A" |};
               Scenario.slack "B" ] in
  let w := boot (Scenario.monitor chs) in
  eval (_send_alert Scenario.calm INFO "t" "m" "i") w
    = Raise (Py.KeyError "type")
  /\ posted (trace (exec (_send_alert Scenario.calm INFO "t" "m" "i") w)) = [].
Proof. vm_compute. done. Qed.

(** ** Comparisons of floats *)

Lemma truthy_spec q : Py.truthy q = true <-> ~ (q == 0)%Q.
Proof.
  unfold Py.truthy. rewrite negb_true_iff.
  destruct (Qeq_bool q 0) eqn:H.
  - apply Qeq_bool_iff in H. split; [done | tauto].
  - split; [|done]. intros _ Hq. apply Qeq_bool_iff in Hq. congruence.
Qed.

Lemma ltb_spec a b : Py.ltb a b = true <-> (a < b)%Q.
Proof.
  unfold Py.ltb. rewrite Qlt_alt. by destruct (a ?= b)%Q.
Qed.

Lemma gtb_spec a b : Py.gtb a b = true <-> (b < a)%Q.
Proof. apply ltb_spec. Qed.

Lemma leb_spec a b : Py.leb a b = true <-> (a <= b)%Q.
Proof.
  unfold Py.leb. rewrite Qle_alt. by destruct (a ?= b)%Q.
Qed.

Lemma geb_spec a b : Py.geb a b = true <-> (b <= a)%Q.
Proof. apply leb_spec. Qed.

(** ** The response time SLA *)

Lemma latency_violations_uptime vs :
  Forall (fun v => sla_type v = "uptime") vs -> latency_violations vs = [].
Proof.
  induction 1 as [|v vs Hv _ IH]; [done|].
  unfold latency_violations in *. simpl. by rewrite Hv.
Qed.

Lemma warning_alerts_emergency al :
  Forall (fun a => a_severity a = "emergency") al -> warning_alerts al = [].
Proof.
  induction 1 as [|a al Ha _ IH]; [done|].
  unfold warning_alerts in *. simpl. by rewrite Ha.
Qed.

Section ResponseTimeSLA.

Variable env : Env.

(** What [_check_sla_violations] adds for the response time SLA. *)
Lemma check_sla_violations_latency monitor_name result w :
  typed (alert_channels (self w)) ->
  let w' := exec (_check_sla_violations env monitor_name result) w in
  eval (_check_sla_violations env monitor_name result) w = Return tt
  /\ latency_outcome (self w) monitor_name result
       (latency_violations (new_violations w w'))
       (warning_alerts (new_alerts w w')).
Proof.
  intros Hty w'.
  pose proof (wp_check_sla_violations env monitor_name result
    (fun _ w1 =>
       latency_outcome (self w) monitor_name result
         (latency_violations (new_violations w w1))
         (warning_alerts (new_alerts w w1))) w Hty) as Hwp.
  apply wp_run_unit in Hwp; [done|].
  intros w1 up_v lat_v up_a lat_a Hself Hal Hup_v Hup_a Hlat.
  unfold new_violations, new_alerts. rewrite Hself, Hal. simpl.
  rewrite drop_app_length.
  rewrite !length_app, Nat.add_assoc, Nat.add_sub.
  rewrite <- length_app, app_assoc, take_app_length.
  pose proof (latency_violations_uptime up_v Hup_v) as Hv0.
  pose proof (warning_alerts_emergency up_a Hup_a) as Ha0.
  unfold latency_violations, warning_alerts in *.
  rewrite !List.filter_app, Hv0, Ha0, app_nil_r. simpl.
  unfold latency_outcome in *.
  destruct (response_time result) as [rt|]; [|by destruct Hlat as [-> ->]].
  destruct (Py.truthy rt && Py.gtb rt _); [|by destruct Hlat as [-> ->]].
  destruct Hlat as (t & a & -> & -> & Hsev & Hid).
  simpl. rewrite Hsev. simpl. eauto 10.
Qed.

End ResponseTimeSLA.

(** C4, as the code has it.  For a result that carries a latency, checked
    on a monitor whose alert channels name their type: a response time
    violation is recorded, and a WARNING alert that carries its identity is
    sent, if and only if the latency is not zero and is strictly over the
    violation threshold of the response time SLA.  A latency equal to the
    threshold records nothing; at most one violation is recorded, for this
    monitor and with this latency. *)
Theorem latency_violation_iff_over_threshold env w monitor_name result rt :
  typed (alert_channels (self w)) ->
  response_time result = Some rt ->
  let w' := exec (_check_sla_violations env monitor_name result) w in
  let emitted := latency_violations (new_violations w w') in
  let warned := warning_alerts (new_alerts w w') in
  eval (_check_sla_violations env monitor_name result) w = Return tt
  /\ (emitted <> [] <-> ~ (rt == 0)%Q /\ over_threshold (self w) rt)
  /\ (warned <> [] <-> emitted <> [])
  /\ ((rt == violation_threshold (api_response_time (sla_thresholds (self w))))%Q ->
      emitted = [] /\ warned = [])
  /\ (forall v, v ∈ emitted ->
        emitted = [v] /\ actual_value v = rt /\ v_monitor_name v = monitor_name
        /\ sla_type v = "response_time"
        /\ exists a, warned = [a] /\ a_incident_id a = violation_id v).
Proof.
  intros Hty Hrt w' emitted warned.
  destruct (check_sla_violations_latency env monitor_name result w Hty)
    as [Hret Hout].
  fold w' in Hout. fold emitted in Hout. fold warned in Hout.
  split; [done|]. unfold latency_outcome in Hout. rewrite Hrt in Hout.
  unfold over_threshold.
  destruct (Py.truthy rt) eqn:Htr; destruct (Py.gtb rt _) eqn:Hgt;
    simpl in Hout.
  - destruct Hout as (t & a & Hv & Ha & Hsev & Hid).
    apply truthy_spec in Htr. apply gtb_spec in Hgt.
    rewrite Hv, Ha. split; [|split; [|split]].
    + split; [by intros _ | done].
    + split; by intros _.
    + intros Heq. rewrite Heq in Hgt. by apply Qlt_irrefl in Hgt.
    + intros v Hin. apply list_elem_of_singleton in Hin. subst v.
      repeat split; eauto.
  - destruct Hout as [Hv Ha]. rewrite Hv, Ha.
    assert (~ (violation_threshold
                 (api_response_time (sla_thresholds (self w))) < rt)%Q) as Hn.
    { intros Hlt. apply gtb_spec in Hlt. congruence. }
    split; [|split; [|split]]; [| done | done |].
    + split; [done | tauto].
    + intros v Hin. by apply elem_of_nil in Hin.
  - destruct Hout as [Hv Ha]. rewrite Hv, Ha.
    assert (~ ~ (rt == 0)%Q) as Hn.
    { intros Hne. apply truthy_spec in Hne. congruence. }
    split; [|split; [|split]]; [| done | done |].
    + split; [done | tauto].
    + intros v Hin. by apply elem_of_nil in Hin.
  - destruct Hout as [Hv Ha]. rewrite Hv, Ha.
    assert (~ ~ (rt == 0)%Q) as Hn.
    { intros Hne. apply truthy_spec in Hne. congruence. }
    split; [|split; [|split]]; [| done | done |].
    + split; [done | tauto].
    + intros v Hin. by apply elem_of_nil in Hin.
Qed.

(** A latency of 600 ms against the default threshold of 500 ms, on a
    monitor with one Slack channel: a violation is recorded. *)
Lemma latency_violation_iff_over_threshold_witness :
  typed (alert_channels (self Scenario.one_sink))
  /\ response_time Scenario.slow = Some 600%Q
  /\ latency_violations
       (new_violations Scenario.one_sink
          (exec (_check_sla_violations Scenario.calm "api" Scenario.slow)
             Scenario.one_sink)) <> [].
Proof.
  assert (typed (alert_channels (self Scenario.one_sink))) as Hty.
  { repeat constructor; simpl; by eexists. }
  split; [exact Hty|]. split; [reflexivity|].
  destruct (latency_violation_iff_over_threshold Scenario.calm
              Scenario.one_sink "api" Scenario.slow 600%Q Hty eq_refl)
    as (_ & Hiff & _).
  apply Hiff. split; [by intros H | reflexivity].
Defined.

(** C4 as stated fails at a latency of exactly zero when the violation
    threshold is negative: the latency is carried and is over the threshold,
    yet no violation is recorded. *)
Lemma zero_latency_never_violates :
  response_time Scenario.instant = Some 0%Q
  /\ over_threshold (self Scenario.lenient) 0%Q
  /\ latency_violations
       (new_violations Scenario.lenient
          (exec (_check_sla_violations Scenario.calm "api" Scenario.instant)
             Scenario.lenient)) = [].
Proof. split; [reflexivity|]. split; [reflexivity|]. by vm_compute. Qed.

(** ** A latency of zero *)

(** C10.  A result whose latency is exactly zero is handled as a result
    without latency: the SLA check runs as it does for the same result with
    [response_time = None] (same outcome, same final state), its response
    time part does nothing at all, and the statistics are those of the
    result without latency: no sample is recorded, the performance entry of
    the monitor is only created if it was missing. *)
Theorem zero_latency_is_no_latency env w monitor_name result rt :
  response_time result = Some rt ->
  (rt == 0)%Q ->
  _check_sla_violations env monitor_name result w
    = _check_sla_violations env monitor_name (without_latency result) w
  /\ (forall w1, check_response_time_sla env monitor_name result w1
                 = (Return tt, w1))
  /\ update_statistics monitor_name result (self w)
     = update_statistics monitor_name (without_latency result) (self w)
  /\ performance_stats (update_statistics monitor_name result (self w))
     = init_entry monitor_name new_perf_stat (performance_stats (self w)).
Proof.
  intros Hrt Hzero.
  assert (Py.truthy rt = false) as Hfalse.
  { destruct (Py.truthy rt) eqn:H; [|done]. by apply truthy_spec in H. }
  assert (forall w1, check_response_time_sla env monitor_name result w1
                     = (Return tt, w1)) as Hskip.
  { intros w1. unfold check_response_time_sla. by rewrite Hrt, Hfalse. }
  split; [|split; [exact Hskip|split]].
  - unfold _check_sla_violations, bind.
    change (check_uptime_sla env monitor_name (without_latency result))
      with (check_uptime_sla env monitor_name result).
    destruct (check_uptime_sla env monitor_name result w) as [[[]|e] w1];
      [|done].
    by rewrite Hskip.
  - unfold update_statistics. simpl. by rewrite Hrt, Hfalse.
  - unfold update_statistics. by rewrite Hrt, Hfalse.
Qed.

Lemma zero_latency_is_no_latency_witness :
  response_time Scenario.instant = Some 0%Q
  /\ performance_stats
       (update_statistics "api" Scenario.instant (self Scenario.clear))
     = init_entry "api" new_perf_stat (performance_stats (self Scenario.clear)).
Proof.
  split; [reflexivity|].
  apply (zero_latency_is_no_latency Scenario.calm Scenario.clear "api"
           Scenario.instant 0%Q eq_refl).
  reflexivity.
Defined.

(** ** Uptime percentage *)

(** C3.  The uptime percentage of a monitor over a period is computed
    without error and is [K / N * 100], [N] being the number of results of
    the monitor in the window of the period and [K] the number of those
    that are UP; it is exactly 100 when the window holds no result, which
    covers the monitor that has no recorded result at all.  (Floats are
    exact rationals here.) *)
Theorem uptime_percentage_is_K_over_N env w monitor_name period :
  let now := datetime_of_clock (clock env (reads w)) in
  let win := window (self w) monitor_name period now in
  let N := length win in
  let K := length (List.filter is_up win) in
  eval (_calculate_uptime_percentage env monitor_name period) w
    = Return (if (N =? 0)%nat then 100%Q
              else (inject_Z (Z.of_nat K) / inject_Z (Z.of_nat N) * 100)%Q)
  /\ (monitor_results (self w) !! monitor_name = None -> N = 0%nat)
  /\ self (exec (_calculate_uptime_percentage env monitor_name period) w)
     = self w.
Proof.
  intros now win N K.
  pose proof (wp_calculate_uptime_percentage env monitor_name period
    (fun q w' => q = uptime_of win /\ self w' = self w) w) as Hwp.
  apply wp_run in Hwp as (q & Hret & Hq & Hself); [|done].
  split; [by rewrite Hret, Hq|]. split; [|done].
  intros Hnone. subst N win. unfold window. by rewrite Hnone.
Qed.

(** The scenario of the specification: four results of which three are UP
    give 75 %, and a monitor without results gives 100 %. *)
Example uptime_of_four_results :
  eval (_calculate_uptime_percentage Scenario.calm "api" "monthly")
    Scenario.four_results = Return ((3 # 4) * 100)%Q
  /\ eval (_calculate_uptime_percentage Scenario.calm "other" "monthly")
       Scenario.four_results = Return 100%Q.
Proof. split; reflexivity. Qed.

(** ** Statistics *)

Lemma init_entry_lookup {A} key (fresh : A) d :
  init_entry key fresh d !! key = Some (default fresh (d !! key)).
Proof.
  unfold init_entry. destruct (d !! key) eqn:H; simpl.
  - by rewrite H.
  - by rewrite lookup_insert_eq.
Qed.

Lemma init_entry_lookup_ne {A} key (fresh : A) d other :
  other <> key -> init_entry key fresh d !! other = d !! other.
Proof.
  intros Hne. unfold init_entry. destruct (d !! key); [done|].
  by rewrite lookup_insert_ne.
Qed.

Lemma update_statistics_uptime monitor_name result s :
  uptime_stats (update_statistics monitor_name result s) !! monitor_name
    = Some (count_check result
              (default new_uptime_stat (uptime_stats s !! monitor_name))).
Proof.
  unfold update_statistics.
  repeat case_match; simpl; by rewrite lookup_alter_eq, init_entry_lookup.
Qed.

Lemma update_statistics_uptime_ne monitor_name result s other :
  other <> monitor_name ->
  uptime_stats (update_statistics monitor_name result s) !! other
    = uptime_stats s !! other.
Proof.
  intros Hne. unfold update_statistics.
  repeat case_match; simpl;
    by rewrite lookup_alter_ne, init_entry_lookup_ne.
Qed.

Lemma update_statistics_perf monitor_name result s :
  performance_stats (update_statistics monitor_name result s) !! monitor_name
    = Some (record_latency result
              (default new_perf_stat (performance_stats s !! monitor_name))).
Proof.
  unfold update_statistics, record_latency.
  repeat case_match; simpl;
    by rewrite ?lookup_alter_eq, init_entry_lookup.
Qed.

Lemma update_statistics_perf_ne monitor_name result s other :
  other <> monitor_name ->
  performance_stats (update_statistics monitor_name result s) !! other
    = performance_stats s !! other.
Proof.
  intros Hne. unfold update_statistics.
  repeat case_match; simpl;
    by rewrite ?lookup_alter_ne, init_entry_lookup_ne.
Qed.

(** The entries of a monitor depend on its own results only. *)
Lemma stats_after_uptime monitor_name results s :
  uptime_stats (stats_after results s) !! monitor_name =
    match results_of monitor_name results with
    | [] => uptime_stats s !! monitor_name
    | rs => Some (counts_after rs
                    (default new_uptime_stat (uptime_stats s !! monitor_name)))
    end.
Proof.
  revert s. induction results as [|[n r] rest IH]; intros s; [done|].
  unfold stats_after in *. simpl. rewrite IH. unfold results_of. simpl.
  destruct (String.eqb n monitor_name) eqn:Hn.
  - apply String.eqb_eq in Hn. subst n. simpl.
    rewrite update_statistics_uptime. simpl.
    by destruct (map snd _).
  - apply String.eqb_neq in Hn.
    by rewrite update_statistics_uptime_ne.
Qed.

Lemma stats_after_perf monitor_name results s :
  performance_stats (stats_after results s) !! monitor_name =
    match results_of monitor_name results with
    | [] => performance_stats s !! monitor_name
    | rs => Some (perf_after rs
                    (default new_perf_stat
                       (performance_stats s !! monitor_name)))
    end.
Proof.
  revert s. induction results as [|[n r] rest IH]; intros s; [done|].
  unfold stats_after in *. simpl. rewrite IH. unfold results_of. simpl.
  destruct (String.eqb n monitor_name) eqn:Hn.
  - apply String.eqb_eq in Hn. subst n. simpl.
    rewrite update_statistics_perf. simpl.
    by destruct (map snd _).
  - apply String.eqb_neq in Hn.
    by rewrite update_statistics_perf_ne.
Qed.

Lemma counts_after_spec rs u :
  total_checks (counts_after rs u)
    = total_checks u + Z.of_nat (length rs)
  /\ successful_checks (counts_after rs u)
    = successful_checks u + Z.of_nat (length (List.filter is_up rs))
  /\ failed_checks (counts_after rs u)
    = failed_checks u
      + Z.of_nat (length (List.filter (fun r => negb (is_up r)) rs)).
Proof.
  revert u. induction rs as [|r rs IH]; intros u.
  { simpl. lia. }
  unfold counts_after in *. simpl.
  destruct (IH (count_check r u)) as (-> & -> & ->).
  unfold count_check, is_up. simpl.
  destruct (decide (status r = UP)) as [Hup|Hup].
  - rewrite bool_decide_eq_true_2 by done. simpl. lia.
  - rewrite bool_decide_eq_false_2 by done. simpl. lia.
Qed.

(** C9.  After any sequence of statistics updates the counters of a
    monitor that balanced before (or that had none) still balance:
    [total_checks = successful_checks + failed_checks]; the successful
    checks have grown by the number of UP results of the monitor and the
    failed ones by the number of its other results, DEGRADED included. *)
Theorem counters_balance s0 results monitor_name u :
  (forall u0, uptime_stats s0 !! monitor_name = Some u0 ->
     total_checks u0 = successful_checks u0 + failed_checks u0) ->
  uptime_stats (stats_after results s0) !! monitor_name = Some u ->
  let rs := results_of monitor_name results in
  let base := default new_uptime_stat (uptime_stats s0 !! monitor_name) in
  total_checks u = successful_checks u + failed_checks u
  /\ successful_checks u
     = successful_checks base + Z.of_nat (length (List.filter is_up rs))
  /\ failed_checks u
     = failed_checks base
       + Z.of_nat (length (List.filter (fun r => negb (is_up r)) rs))
  /\ total_checks u = total_checks base + Z.of_nat (length rs).
Proof.
  intros Hbal Hu rs base.
  assert (total_checks base = successful_checks base + failed_checks base)
    as Hbase.
  { subst base. destruct (uptime_stats s0 !! monitor_name) as [u0|] eqn:H0.
    - by apply Hbal.
    - done. }
  assert (u = counts_after rs base) as ->.
  { rewrite stats_after_uptime in Hu. fold rs in Hu.
    destruct rs as [|r rs'] eqn:Hrs.
    - subst base. by rewrite Hu.
    - by injection Hu as <-. }
  destruct (counts_after_spec rs base) as (Ht & Hs & Hf).
  rewrite Ht, Hs, Hf. repeat split; try done.
  assert (length rs = length (List.filter is_up rs)
                      + length (List.filter (fun r => negb (is_up r)) rs))%nat
    as Hlen.
  { clear. induction rs as [|r rs IH]; [done|]. simpl.
    destruct (is_up r); simpl; lia. }
  lia.
Qed.

(** A fresh monitor after an UP, a DEGRADED and a DOWN result: three
    checks, one successful and two failed. *)
Lemma counters_balance_witness :
  uptime_stats
    (stats_after [("api", Scenario.result_at 0 UP (Some 150%Q));
                  ("api", Scenario.result_at 60 DEGRADED (Some 900%Q));
                  ("api", Scenario.result_at 120 DOWN None)]
       (Scenario.monitor [])) !! "api"
  = Some {| total_checks := 3; successful_checks := 1; failed_checks := 2;
            last_check := Some (seconds 1700000120) |}
  /\ 3 = 1 + 2.
Proof.
  split; [reflexivity|].
  apply (counters_balance (Scenario.monitor [])
           [("api", Scenario.result_at 0 UP (Some 150%Q));
            ("api", Scenario.result_at 60 DEGRADED (Some 900%Q));
            ("api", Scenario.result_at 120 DOWN None)] "api"
           {| total_checks := 3; successful_checks := 1; failed_checks := 2;
              last_check := Some (seconds 1700000120) |}).
  - intros u0 H. discriminate H.
  - reflexivity.
Defined.

(** *** The retained latencies *)

Lemma last_n_short {A} n (xs : list A) :
  (length xs <= n)%nat -> Py.last_n n xs = xs.
Proof.
  intros H. unfold Py.last_n.
  by replace (length xs - n)%nat with 0%nat by lia.
Qed.

Lemma length_last_n {A} n (xs : list A) :
  length (Py.last_n n xs) = Nat.min n (length xs).
Proof. unfold Py.last_n. rewrite length_drop. lia. Qed.

Lemma last_n_snoc {A} n (xs : list A) x :
  (1 <= n)%nat ->
  Py.last_n n (Py.last_n n xs ++ [x]) = Py.last_n n (xs ++ [x]).
Proof.
  intros Hn. destruct (decide (length xs <= n)%nat) as [Hle|Hgt].
  { by rewrite (last_n_short n xs). }
  unfold Py.last_n. rewrite !length_app, length_drop. simpl.
  rewrite !drop_app_le by (rewrite ?length_drop; lia).
  rewrite drop_drop. f_equal. f_equal. lia.
Qed.

(** Lines 543-544 keep the last thousand. *)
Lemma kept_last_n (xs : list Q) :
  (if (1000 <? length xs)%nat then Py.last_n 1000 xs else xs)
    = Py.last_n 1000 xs.
Proof.
  destruct (Nat.ltb_spec 1000 (length xs)); [done|].
  by rewrite last_n_short.
Qed.

Lemma perf_after_samples rs p :
  perf_after rs p
    = fold_left (fun p rt => record_response_time rt p)
        (recorded_latencies rs) p.
Proof.
  revert p. induction rs as [|r rs IH]; intros p; [done|].
  unfold perf_after in *. simpl. rewrite IH.
  unfold recorded_latencies, record_latency. simpl.
  destruct (response_time r) as [rt|]; [|done].
  by destruct (Py.truthy rt).
Qed.

Lemma sum_is_Qsum xs : (Py.sum xs == Qsum xs)%Q.
Proof.
  unfold Py.sum.
  assert (forall acc, fold_left Qplus xs acc == acc + Qsum xs)%Q as H.
  { induction xs as [|x xs IH]; intros acc; simpl.
    - lra.
    - rewrite IH. lra. }
  rewrite H. lra.
Qed.

(** The running minimum and maximum are those of all the latencies seen. *)
Lemma running_min_spec samples :
  samples <> [] ->
  exists m, fold_left Py.min samples Py.Inf = Py.Finite m
            /\ is_minimum m samples.
Proof.
  induction samples as [|x l IH] using rev_ind; [done|]. intros _.
  rewrite fold_left_app. simpl.
  destruct l as [|y l'] using rev_ind.
  { simpl. exists x. split; [done|].
    split; [apply Exists_cons_hd; reflexivity|].
    constructor; [apply Qle_refl | constructor]. }
  clear IHl'. destruct IH as (m & -> & Hex & Hall).
  { by destruct l'. }
  simpl. destruct (Py.ltb x m) eqn:Hlt.
  - apply ltb_spec in Hlt. exists x. split; [done|]. split.
    + apply Exists_app. right. apply Exists_cons_hd. reflexivity.
    + apply Forall_app. split.
      * eapply Forall_impl; [exact Hall|]. simpl. intros z Hz. lra.
      * constructor; [apply Qle_refl | constructor].
  - assert (m <= x)%Q as Hle.
    { apply Qnot_lt_le. intros H. apply ltb_spec in H. congruence. }
    exists m. split; [done|]. split.
    + apply Exists_app. by left.
    + apply Forall_app. split; [done|]. constructor; [done | constructor].
Qed.

Lemma running_max_spec samples :
  is_maximum (fold_left Py.max samples 0%Q) (0%Q :: samples).
Proof.
  induction samples as [|x l IH] using rev_ind.
  { simpl. split; [apply Exists_cons_hd; reflexivity|].
    constructor; [apply Qle_refl | constructor]. }
  rewrite fold_left_app. simpl.
  destruct IH as [Hex Hall]. set (m := fold_left Py.max l 0%Q) in *.
  unfold Py.max. destruct (Py.gtb x m) eqn:Hgt.
  - apply gtb_spec in Hgt. split.
    + apply Exists_cons_tl, Exists_app. right. apply Exists_cons_hd.
      reflexivity.
    + change (0%Q :: l ++ [x])%list with ((0%Q :: l) ++ [x])%list.
      apply Forall_app. split.
      * eapply Forall_impl; [exact Hall|]. simpl. intros z Hz. lra.
      * constructor; [apply Qle_refl | constructor].
  - assert (x <= m)%Q as Hle.
    { apply Qnot_lt_le. intros H. apply gtb_spec in H. congruence. }
    change (0%Q :: l ++ [x])%list with ((0%Q :: l) ++ [x])%list. split.
    + apply Exists_app. by left.
    + apply Forall_app. split; [done|]. constructor; [done | constructor].
Qed.

Lemma record_response_time_fields rt p :
  response_times (record_response_time rt p)
    = Py.last_n 1000 (response_times p ++ [rt])
  /\ avg_response_time (record_response_time rt p)
    = (Py.sum (response_times (record_response_time rt p))
         / inject_Z (Z.of_nat
                       (length (response_times (record_response_time rt p)))))%Q
  /\ min_response_time (record_response_time rt p)
    = Py.min (min_response_time p) rt
  /\ max_response_time (record_response_time rt p)
    = Py.max (max_response_time p) rt.
Proof. unfold record_response_time. simpl. by rewrite kept_last_n. Qed.

(** The performance entry after the latencies [samples], from a fresh one. *)
Lemma record_all_spec samples :
  let p := fold_left (fun p rt => record_response_time rt p) samples
             new_perf_stat in
  response_times p = Py.last_n 1000 samples
  /\ (samples <> [] ->
      avg_response_time p
        = (Py.sum (response_times p)
             / inject_Z (Z.of_nat (length (response_times p))))%Q)
  /\ min_response_time p = fold_left Py.min samples Py.Inf
  /\ max_response_time p = fold_left Py.max samples 0%Q.
Proof.
  induction samples as [|x l IH] using rev_ind; [done|].
  rewrite !fold_left_app. cbn [fold_left]. cbv zeta in IH.
  destruct IH as (Hrt & _ & Hmin & Hmax).
  set (p0 := fold_left _ l new_perf_stat) in *.
  destruct (record_response_time_fields x p0) as (Hrt' & Havg' & Hmin' & Hmax').
  rewrite Havg', Hmin', Hmax', Hrt', Hrt, Hmin, Hmax.
  by rewrite last_n_snoc by lia.
Qed.

(** C8, as the code has it.  From a monitor without performance entry,
    after any sequence of statistics updates: the entry retains the last
    thousand of the latencies recorded for the monitor, hence at most a
    thousand; once it retains one, the average is the mean of the retained
    latencies.  The minimum and the maximum are running ones: the minimum is
    the least of all the latencies ever recorded, the maximum the greatest
    of them and of the initial 0, and they bound the retained latencies
    without having to be among them. *)
Theorem retained_latencies_and_extremes s0 results monitor_name p :
  performance_stats s0 !! monitor_name = None ->
  performance_stats (stats_after results s0) !! monitor_name = Some p ->
  let samples := recorded_latencies (results_of monitor_name results) in
  (length (response_times p) <= 1000)%nat
  /\ response_times p = Py.last_n 1000 samples
  /\ (response_times p <> [] ->
      (avg_response_time p == mean (response_times p))%Q)
  /\ (samples <> [] ->
      exists m, min_response_time p = Py.Finite m /\ is_minimum m samples)
  /\ is_maximum (max_response_time p) (0%Q :: samples)
  /\ (forall x, x ∈ response_times p ->
        exists m, min_response_time p = Py.Finite m
                  /\ (m <= x)%Q /\ (x <= max_response_time p)%Q).
Proof.
  intros Hfresh Hp samples.
  rewrite stats_after_perf, Hfresh in Hp.
  assert (p = fold_left (fun p rt => record_response_time rt p) samples
                new_perf_stat) as Hfold.
  { subst samples.
    destruct (results_of monitor_name results) as [|r rs]; [done|].
    injection Hp as <-. by rewrite <- (perf_after_samples (r :: rs)). }
  destruct (record_all_spec samples) as (Hrt & Havg & Hmin & Hmax).
  cbv zeta in *. rewrite <- Hfold in *. clear Hfold Hp.
  assert (response_times p <> [] -> samples <> []) as Hne.
  { intros H1 H2. apply H1. rewrite Hrt, H2. reflexivity. }
  assert (forall x, x ∈ response_times p -> x ∈ samples) as Hsub.
  { intros x. rewrite Hrt. unfold Py.last_n. apply subseteq_drop. }
  pose proof (running_max_spec samples) as Hmaxspec. rewrite <- Hmax in Hmaxspec.
  split; [|split; [done|split; [|split; [|split; [done|]]]]].
  - rewrite Hrt, length_last_n. lia.
  - intros H. rewrite (Havg (Hne H)). unfold mean.
    by rewrite sum_is_Qsum.
  - intros H. rewrite Hmin. by apply running_min_spec.
  - intros x Hx. pose proof (Hsub x Hx) as Hin.
    destruct (running_min_spec samples) as (m & Hm & _ & Hall).
    { intros ->. by apply elem_of_nil in Hin. }
    exists m. split; [by rewrite Hmin|]. split.
    + rewrite Forall_forall in Hall. by apply Hall.
    + destruct Hmaxspec as [_ Hall']. rewrite Forall_forall in Hall'.
      apply Hall'. by apply list_elem_of_further.
Qed.

(** A fresh monitor after three latencies: all three are retained. *)
Lemma retained_latencies_and_extremes_witness :
  performance_stats (Scenario.monitor []) !! "api" = None
  /\ exists p,
       performance_stats
         (stats_after [("api", Scenario.result_at 0 UP (Some 150%Q));
                       ("api", Scenario.result_at 60 UP (Some 120%Q));
                       ("api", Scenario.result_at 120 UP (Some 180%Q))]
            (Scenario.monitor [])) !! "api" = Some p
       /\ response_times p = [150%Q; 120%Q; 180%Q]
       /\ (length (response_times p) <= 1000)%nat.
Proof.
  split; [reflexivity|]. eexists. split; [reflexivity|]. split; [reflexivity|].
  eapply (retained_latencies_and_extremes (Scenario.monitor [])
            [("api", Scenario.result_at 0 UP (Some 150%Q));
             ("api", Scenario.result_at 60 UP (Some 120%Q));
             ("api", Scenario.result_at 120 UP (Some 180%Q))] "api");
    reflexivity.
Defined.

(** C8 as stated fails once a latency has left the retained thousand: after
    one latency of 1 ms and a thousand of 2 ms, the thousand retained are
    all 2 ms, yet the minimum kept is still 1 ms. *)
Lemma minimum_outlives_its_sample :
  exists p,
    Scenario.evicted = Some p
    /\ length (response_times p) = 1000%nat
    /\ Forall (fun x => x == 2)%Q (response_times p)
    /\ min_response_time p = Py.Finite 1%Q
    /\ ~ is_minimum 1%Q (response_times p).
Proof.
  eexists. split; [vm_compute; reflexivity|].
  assert (Forall (fun x => x == 2)%Q (repeat 2%Q 1000)) as Hall.
  { apply Forall_forall. intros x Hx. apply list_elem_of_In in Hx.
    apply repeat_spec in Hx. by subst x. }
  split; [reflexivity|]. split; [exact Hall|]. split; [reflexivity|].
  intros [Hex _]. apply Exists_exists in Hex as (x & Hin & Hx).
  rewrite Forall_forall in Hall. apply Hall in Hin.
  rewrite Hx in Hin. discriminate Hin.
Qed.

(** ** The report *)

Lemma all_map {A} (f : A -> bool) (xs : list A) :
  all (map f xs) = forallb f xs.
Proof. unfold all. induction xs as [|x xs IH]; simpl; [done|]. by rewrite IH. Qed.

Section Reports.

Variable env : Env.

Lemma wp_monitor_report period monitor_name Q w :
  (forall w' r,
     self w' = self w ->
     sla_compliant r
       = Py.geb (uptime_percentage r)
           (target_value (uptime (sla_thresholds (self w)))) ->
     response_time_compliant r
       = (fun p => Py.leb (avg_response_time p)
                     (target_value (api_response_time (sla_thresholds (self w)))))
           <$> performance_stats (self w) !! monitor_name ->
     Q r w') ->
  wp (monitor_report env period monitor_name) Q w.
Proof.
  intros HQ. unfold monitor_report.
  apply wp_bind, wp_calculate_uptime_percentage. intros w1 Hself _.
  apply wp_bind, wp_get_self, wp_ret. rewrite Hself. by apply HQ.
Qed.

Lemma wp_monitor_reports period names w :
  wp (monitor_reports env period names)
    (fun reports w' =>
       self w' = self w
       /\ map fst reports = names
       /\ Forall (fun nr =>
            sla_compliant nr.2
              = Py.geb (uptime_percentage nr.2)
                  (target_value (uptime (sla_thresholds (self w))))
            /\ response_time_compliant nr.2
              = (fun p => Py.leb (avg_response_time p)
                            (target_value
                               (api_response_time (sla_thresholds (self w)))))
                  <$> performance_stats (self w) !! nr.1) reports) w.
Proof.
  revert w. induction names as [|n names IH]; intros w.
  { by apply wp_ret. }
  simpl. apply wp_bind, wp_monitor_report. intros w1 r Hself Hc Hl.
  apply wp_bind. eapply wp_mono; [apply IH|].
  intros reports w2 (Hself2 & Hnames & Hall). apply wp_ret.
  rewrite Hself2, Hself. split; [done|]. split; [by rewrite <- Hnames|].
  constructor; [done|]. by rewrite Hself in Hall.
Qed.

End Reports.

(** C5, as the code has it.  A report is always produced.  Its overall
    compliance is the conjunction of the uptime compliance booleans
    ([sla_compliant]) of the monitors of the report, one per configured
    monitor, each of which says that the uptime percentage reaches the
    target of the uptime SLA; the response time compliance booleans do not
    enter it.  The compensation owed is the sum of the compensation rates of
    the violations listed in the report, each occurrence counted, and the
    violation count is their number. *)
Theorem report_compliance_and_compensation env w period :
  exists rep,
    eval (generate_sla_report env period) w = Return rep
    /\ compliant (overall_compliance rep)
       = forallb (fun nr => sla_compliant nr.2) (r_monitors rep)
    /\ (compensation_owed (overall_compliance rep)
        == Qsum (map v_compensation_rate (r_sla_violations rep)))%Q
    /\ violation_count (overall_compliance rep)
       = Z.of_nat (length (r_sla_violations rep))
    /\ map fst (r_monitors rep) = map fst (monitors (self w))
    /\ Forall (fun nr =>
         sla_compliant nr.2 = true
         <-> (target_value (uptime (sla_thresholds (self w)))
              <= uptime_percentage nr.2)%Q) (r_monitors rep)
    /\ r_sla_violations rep ⊆ sla_violations (self w).
Proof.
  apply (wp_run (generate_sla_report env period)
           (fun rep _ =>
              compliant (overall_compliance rep)
                = forallb (fun nr => sla_compliant nr.2) (r_monitors rep)
              /\ (compensation_owed (overall_compliance rep)
                  == Qsum (map v_compensation_rate (r_sla_violations rep)))%Q
              /\ violation_count (overall_compliance rep)
                 = Z.of_nat (length (r_sla_violations rep))
              /\ map fst (r_monitors rep) = map fst (monitors (self w))
              /\ Forall (fun nr =>
                   sla_compliant nr.2 = true
                   <-> (target_value (uptime (sla_thresholds (self w)))
                        <= uptime_percentage nr.2)%Q) (r_monitors rep)
              /\ r_sla_violations rep ⊆ sla_violations (self w)) w).
  unfold generate_sla_report.
  apply wp_bind, wp_utcnow, wp_bind, wp_get_self, wp_bind. simpl.
  eapply wp_mono; [apply wp_monitor_reports|].
  intros reports w1 (Hself & Hnames & Hall). simpl in *.
  apply wp_bind, wp_utcnow, wp_bind, wp_get_self, wp_ret. simpl.
  rewrite Hself. simpl.
  split; [apply all_map|]. split; [apply sum_is_Qsum|].
  split; [done|]. split; [done|]. split.
  - eapply Forall_impl; [exact Hall|]. simpl. intros nr [-> _]. apply geb_spec.
  - intros v Hv. apply list_elem_of_In in Hv. apply List.filter_In in Hv as [Hv _].
    by apply list_elem_of_In.
Qed.

(** C5 as stated fails on the response time: a monitor whose average
    response time is over the target of the response time SLA is reported
    as not compliant on response time, and the overall compliance is true
    all the same. *)
Lemma overall_compliance_ignores_response_time :
  exists rep m,
    eval (generate_sla_report Scenario.calm "monthly") Scenario.sluggish
      = Return rep
    /\ r_monitors rep = [("api", m)]
    /\ sla_compliant m = true
    /\ response_time_compliant m = Some false
    /\ compliant (overall_compliance rep) = true.
Proof. do 2 eexists. split; [vm_compute; reflexivity|]. by vm_compute. Qed.

(** ** Probes *)

Section Probes.

Variable env : Env.

(** A GET probe that is answered: the status follows the code and the
    latency measured between the two readings of the clock. *)
Lemma check_monitor_get monitor_name config url code w :
  cfg_url config = Some url ->
  Py.upper (default "GET" (cfg_method config)) = "GET" ->
  net_probe env (requests w) "GET" url = Response code ->
  let E := default 200 (cfg_expected_status config) in
  let L := default 5000%Q (cfg_expected_response_time config) in
  let t := ((clock env (S (reads w)) - clock env (reads w)) * 1000)%Q in
  exists r,
    eval (_check_monitor env monitor_name config) w = Return (Some r)
    /\ response_time r = Some t /\ status_code r = Some code
    /\ (code = E -> (t <= L)%Q -> status r = UP)
    /\ (code = E -> (L < t)%Q -> status r = DEGRADED)
    /\ (code <> E -> status r = DOWN).
Proof.
  intros Hurl Hget Hnet E L t.
  unfold _check_monitor, eval, bind, try_except, time_time, utcnow, bind,
    probe, item, _collect_harmonic_metrics.
  simpl. rewrite Hurl, Hget. simpl. rewrite Hnet. simpl.
  assert ((code = E -> (t <= L)%Q -> classify_get code E t L = UP)
          /\ (code = E -> (L < t)%Q -> classify_get code E t L = DEGRADED)
          /\ (code <> E -> classify_get code E t L = DOWN)) as Hclass.
  { unfold classify_get. destruct (Z.eqb_spec code E) as [Heq|Hne]; simpl.
    - destruct (Py.leb t L) eqn:Hle.
      + apply leb_spec in Hle. repeat split; try done.
        intros _ Hlt. apply Qlt_not_le in Hlt. contradiction.
      + repeat split; try done.
        intros _ Hle'. apply leb_spec in Hle'. congruence.
    - repeat split; done. }
  destruct (Py.contains "harmonic" (Py.lower url)); simpl;
    (eexists; split; [reflexivity|]; simpl;
     split; [done|]; split; [done|]; exact Hclass).
Qed.

(** A POST probe that is answered: the status follows the code alone. *)
Lemma check_monitor_post monitor_name config url code w :
  cfg_url config = Some url ->
  Py.upper (default "GET" (cfg_method config)) = "POST" ->
  net_probe env (requests w) "POST" url = Response code ->
  let E := default 200 (cfg_expected_status config) in
  let t := ((clock env (S (reads w)) - clock env (reads w)) * 1000)%Q in
  exists r,
    eval (_check_monitor env monitor_name config) w = Return (Some r)
    /\ response_time r = Some t /\ status_code r = Some code
    /\ (code = E -> status r = UP)
    /\ (code <> E -> status r = DOWN).
Proof.
  intros Hurl Hpost Hnet E t.
  unfold _check_monitor, eval, bind, try_except, time_time, utcnow, bind,
    probe, item.
  simpl. rewrite Hurl, Hpost. simpl. rewrite Hnet. simpl.
  eexists. split; [reflexivity|]. simpl. split; [done|]. split; [done|].
  fold E. unfold classify_post.
  destruct (Z.eqb_spec code E); split; done.
Qed.

(** A probe that times out or fails in transport: DOWN, without latency
    and without status code. *)
Lemma check_monitor_failure monitor_name config url method w :
  cfg_url config = Some url ->
  Py.upper (default "GET" (cfg_method config)) = method ->
  method = "GET" \/ method = "POST" ->
  (forall code, net_probe env (requests w) method url <> Response code) ->
  exists r,
    eval (_check_monitor env monitor_name config) w = Return (Some r)
    /\ status r = DOWN /\ response_time r = None /\ status_code r = None.
Proof.
  intros Hurl Hm Hmethod Hnet.
  unfold _check_monitor, eval, bind, try_except, time_time, utcnow, bind,
    probe, item.
  simpl. rewrite Hurl, Hm. simpl.
  destruct Hmethod as [-> | ->]; simpl;
    destruct (net_probe env (requests w) _ url) as [code| |msg];
    simpl; try (by destruct (Hnet code)); by eexists.
Qed.

End Probes.

(** C2, at the input where the code departs from it.  A POST probe answered
    200 after six seconds, against the expected status 200 and the expected
    response time of 5000 ms: the result is UP, where the classification
    policy, and the GET branch on the same answer, give DEGRADED. *)
Theorem post_probe_over_latency_is_up :
  exists r_post r_get t,
    eval (_check_monitor Scenario.slow_clock "api"
            (Scenario.api_config (Some "POST"))) Scenario.clear
      = Return (Some r_post)
    /\ eval (_check_monitor Scenario.slow_clock "api"
               (Scenario.api_config (Some "GET"))) Scenario.clear
      = Return (Some r_get)
    /\ status_code r_post = Some 200
    /\ response_time r_post = Some t /\ (t == 6000)%Q
    /\ response_time r_get = Some t
    /\ status r_post = UP
    /\ status r_get = DEGRADED.
Proof.
  do 3 eexists. split; [vm_compute; reflexivity|].
  split; [vm_compute; reflexivity|]. simpl.
  repeat split; reflexivity.
Qed.

(** ** Identity of incidents *)

Lemma string_length_app (a b : string) :
  String.length (a +:+ b) = (String.length a + String.length b)%nat.
Proof. induction a as [|c a IH]; simpl; [done|]. by rewrite IH. Qed.

Lemma string_app_inv_tail (a b s : string) : a +:+ s = b +:+ s -> a = b.
Proof.
  revert b. induction a as [|c a IH]; intros [|d b] H; simpl in *.
  - done.
  - apply (f_equal String.length) in H.
    rewrite !string_length_app in H. simpl in H.
    rewrite ?string_length_app in H. lia.
  - apply (f_equal String.length) in H.
    rewrite !string_length_app in H. simpl in H.
    rewrite ?string_length_app in H. lia.
  - injection H as -> H. f_equal. by apply IH.
Qed.

(** Two incidents of a monitor bear the same identity only if they were
    opened within the same second of the clock. *)
Lemma incident_id_same_second t1 t2 monitor_name r1 r2 :
  incident_id (new_incident t1 monitor_name r1)
    = incident_id (new_incident t2 monitor_name r2) ->
  Py.int t1 = Py.int t2.
Proof.
  unfold new_incident. simpl. intros H. injection H as H.
  apply (string_app_inv_tail (Py.str_int (Py.int t1))
           (Py.str_int (Py.int t2)) ("_" +:+ monitor_name)) in H.
  unfold Py.str_int in H. by apply (inj pretty) in H.
Qed.

(** C6, at the input where the code departs from it.  A monitor goes DOWN,
    recovers, and goes DOWN again while the clock stays within one second:
    the incident opened by the second DOWN is a new record, yet it bears the
    identity of the incident that was resolved. *)
Theorem flapping_reuses_incident_identity :
  incident_id <$> current_incidents (self Scenario.flap_down) !! "api"
    = Some "INC_1700000000_api"
  /\ current_incidents (self Scenario.flap_up) !! "api" = None
  /\ incident_id <$> current_incidents (self Scenario.flap_down_again) !! "api"
     = Some "INC_1700000000_api"
  /\ alert_sent <$> current_incidents (self Scenario.flap_down_again) !! "api"
     = Some true.
Proof. by vm_compute. Qed.

(** ** What a run leaves, whatever its outcome *)

Global Instance unchanged_preorder : PreOrder unchanged.
Proof. split; [by intros s | intros s1 s2 s3 H1 H2; unfold unchanged in *; congruence]. Qed.

Global Instance same_config_preorder : PreOrder same_config.
Proof.
  split; [by intros s|].
  intros s1 s2 s3 (? & ? & ?) (? & ? & ?). unfold same_config.
  repeat split; congruence.
Qed.

Global Instance same_history_preorder : PreOrder same_history.
Proof.
  split; [by intros s|]. intros s1 s2 s3. unfold same_history. congruence.
Qed.

Global Instance same_stats_preorder : PreOrder same_stats.
Proof.
  split; [by intros s|].
  intros s1 s2 s3 [? ?] [? ?]. unfold same_stats. split; congruence.
Qed.

Global Instance violations_grow_preorder : PreOrder violations_grow.
Proof.
  split.
  - intros s. unfold violations_grow. reflexivity.
  - intros s1 s2 s3. unfold violations_grow. intros H1 H2.
    by etransitivity.
Qed.

Section Keeps.

Context (R : relation UptimeMonitor) `{!PreOrder R}.

Lemma keeps_ret {A} (a : A) : keeps R (ret a).
Proof. by intros w. Qed.

Lemma keeps_raise {A} e : keeps R (@raise A e).
Proof. by intros w. Qed.

Lemma keeps_bind {A B} (m : M A) (k : A -> M B) :
  keeps R m -> (forall a, keeps R (k a)) -> keeps R (bind m k).
Proof.
  intros Hm Hk w. specialize (Hm w). unfold exec, bind in *.
  destruct (m w) as [[a|e] w1]; simpl in *; [|done].
  etransitivity; [exact Hm | apply (Hk a w1)].
Qed.

Lemma keeps_try_except {A} (body : M A) handler :
  keeps R body -> (forall e, keeps R (handler e)) ->
  keeps R (try_except body handler).
Proof.
  intros Hm Hk w. specialize (Hm w). unfold exec, try_except in *.
  destruct (body w) as [[a|e] w1]; simpl in *; [done|].
  etransitivity; [exact Hm | apply (Hk e w1)].
Qed.

Lemma keeps_for_each {A} (xs : list A) body :
  (forall x, keeps R (body x)) -> keeps R (for_each xs body).
Proof.
  intros Hbody. induction xs as [|x xs IH]; simpl.
  - apply keeps_ret.
  - apply keeps_bind; [apply Hbody | by intros _].
Qed.

Lemma keeps_get_self : keeps R get_self.
Proof. by intros w. Qed.

Lemma keeps_emit e : keeps R (emit e).
Proof. by intros w. Qed.

Lemma keeps_item {A} key (entry : option A) : keeps R (item key entry).
Proof. by destruct entry; intros w. Qed.

Lemma keeps_modify_self f : (forall s, R s (f s)) -> keeps R (modify_self f).
Proof. intros Hf w. apply Hf. Qed.

Section WithEnv.

Variable env : Env.

Lemma keeps_time_time : keeps R (time_time env).
Proof. by intros w. Qed.

Lemma keeps_utcnow : keeps R (utcnow env).
Proof. apply keeps_bind; [apply keeps_time_time | intros; apply keeps_ret]. Qed.

Lemma keeps_post_json url body : keeps R (post_json env url body).
Proof. by intros w. Qed.

Lemma keeps_probe method url : keeps R (probe env method url).
Proof. by intros w. Qed.

Lemma keeps_send_slack_alert channel alert_data :
  keeps R (_send_slack_alert env channel alert_data).
Proof.
  unfold _send_slack_alert.
  apply keeps_bind; [apply keeps_item|]. intros url.
  apply keeps_bind; [apply keeps_post_json|]. intros [code| |msg].
  - destruct (negb (Z.eqb code 200)); [apply keeps_raise | apply keeps_ret].
  - apply keeps_raise.
  - apply keeps_raise.
Qed.

Lemma keeps_send_to_channel alert_data channel :
  keeps R (send_to_channel env alert_data channel).
Proof.
  unfold send_to_channel, missing_method. apply keeps_try_except.
  - apply keeps_bind; [apply keeps_item|]. intros ty.
    repeat case_match;
      first [apply keeps_raise | apply keeps_send_slack_alert | apply keeps_ret].
  - intros e. apply keeps_bind; [apply keeps_item|]. intros ty.
    apply keeps_emit.
Qed.

Lemma keeps_send_alert severity title message incident_id :
  keeps R (_send_alert env severity title message incident_id).
Proof.
  unfold _send_alert.
  apply keeps_bind; [apply keeps_utcnow|]. intros now.
  apply keeps_bind; [apply keeps_emit|]. intros _.
  apply keeps_bind; [apply keeps_get_self|]. intros s.
  apply keeps_for_each. intros c. apply keeps_send_to_channel.
Qed.

Lemma keeps_calculate_uptime_percentage monitor_name period :
  keeps R (_calculate_uptime_percentage env monitor_name period).
Proof.
  unfold _calculate_uptime_percentage.
  apply keeps_bind; [apply keeps_get_self|]. intros s.
  destruct (monitor_results s !! monitor_name); [|apply keeps_ret].
  apply keeps_bind; [apply keeps_utcnow|]. intros now.
  case_match; apply keeps_ret.
Qed.

Lemma keeps_check_monitor monitor_name config :
  keeps R (_check_monitor env monitor_name config).
Proof.
  unfold _check_monitor, response_status, _collect_harmonic_metrics.
  apply keeps_bind; [apply keeps_time_time|]. intros start.
  apply keeps_try_except.
  - apply keeps_bind; [apply keeps_item|]. intros url.
    repeat case_match.
    + apply keeps_bind; [apply keeps_probe|]. intros r.
      apply keeps_bind; [destruct r; (apply keeps_ret || apply keeps_raise)|].
      intros code. apply keeps_bind; [apply keeps_time_time|]. intros now.
      apply keeps_bind; [by intros w|]. intros metrics.
      apply keeps_bind; [apply keeps_utcnow|]. intros ts. apply keeps_ret.
    + apply keeps_bind; [apply keeps_probe|]. intros r.
      apply keeps_bind; [destruct r; (apply keeps_ret || apply keeps_raise)|].
      intros code. apply keeps_bind; [apply keeps_time_time|]. intros now.
      apply keeps_bind; [apply keeps_ret|]. intros metrics.
      apply keeps_bind; [apply keeps_utcnow|]. intros ts. apply keeps_ret.
    + apply keeps_bind; [apply keeps_probe|]. intros r.
      apply keeps_bind; [destruct r; (apply keeps_ret || apply keeps_raise)|].
      intros code. apply keeps_bind; [apply keeps_time_time|]. intros now.
      apply keeps_bind; [apply keeps_utcnow|]. intros ts. apply keeps_ret.
    + apply keeps_ret.
  - intros e. destruct e;
      (apply keeps_bind; [apply keeps_utcnow|]; intros ts; apply keeps_ret).
Qed.

(** The methods that write to the monitor, for a relation that allows
    their writes. *)
Hypothesis R_incidents : forall f s, R s (set_current_incidents f s).
Hypothesis R_violations : forall f s, R s (set_sla_violations (fun vs => (vs ++ f)%list) s).
Hypothesis R_statistics :
  forall monitor_name result s, R s (update_statistics monitor_name result s).

Lemma keeps_handle_incident monitor_name result :
  keeps R (_handle_incident env monitor_name result).
Proof.
  unfold _handle_incident.
  apply keeps_bind; [apply keeps_get_self|]. intros s.
  destruct (current_incidents s !! monitor_name); [apply keeps_ret|].
  apply keeps_bind; [apply keeps_time_time|]. intros t.
  apply keeps_bind; [by apply keeps_modify_self|]. intros _.
  apply keeps_bind; [apply keeps_send_alert|]. intros _.
  apply keeps_bind; [by apply keeps_modify_self|]. intros _.
  apply keeps_emit.
Qed.

Lemma keeps_resolve_incident monitor_name result :
  keeps R (_resolve_incident env monitor_name result).
Proof.
  unfold _resolve_incident.
  apply keeps_bind; [apply keeps_get_self|]. intros s.
  destruct (current_incidents s !! monitor_name); [|apply keeps_ret].
  apply keeps_bind; [apply keeps_send_alert|]. intros _.
  apply keeps_bind; [by apply keeps_modify_self|]. intros _.
  apply keeps_bind; [by apply keeps_modify_self|]. intros _.
  apply keeps_emit.
Qed.

Lemma keeps_check_sla_violations monitor_name result :
  keeps R (_check_sla_violations env monitor_name result).
Proof.
  unfold _check_sla_violations, check_uptime_sla, check_response_time_sla,
    append_violation.
  apply keeps_bind.
  - destruct (decide (status result = DOWN)); [|apply keeps_ret].
    apply keeps_bind; [apply keeps_calculate_uptime_percentage|]. intros pct.
    apply keeps_bind; [apply keeps_get_self|]. intros s.
    case_match; [|apply keeps_ret].
    apply keeps_bind; [apply keeps_time_time|]. intros t.
    apply keeps_bind; [by apply keeps_modify_self|]. intros _.
    apply keeps_send_alert.
  - intros _. destruct (response_time result) as [rt|]; [|apply keeps_ret].
    destruct (Py.truthy rt); [|apply keeps_ret].
    apply keeps_bind; [apply keeps_get_self|]. intros s.
    case_match; [|apply keeps_ret].
    apply keeps_bind; [apply keeps_time_time|]. intros t.
    apply keeps_bind; [by apply keeps_modify_self|]. intros _.
    apply keeps_send_alert.
Qed.

Lemma keeps_process_monitor_result monitor_name result :
  keeps R (_process_monitor_result env monitor_name result).
Proof.
  unfold _process_monitor_result, _update_statistics.
  apply keeps_bind.
  - destruct (is_incident_status (status result)).
    + apply keeps_handle_incident.
    + apply keeps_bind; [apply keeps_get_self|]. intros s.
      destruct (current_incidents s !! monitor_name);
        [apply keeps_resolve_incident | apply keeps_ret].
  - intros _. apply keeps_bind; [apply keeps_check_sla_violations|].
    intros _. by apply keeps_modify_self.
Qed.

End WithEnv.

End Keeps.

Lemma same_config_update_statistics monitor_name result s :
  same_config s (update_statistics monitor_name result s).
Proof. unfold update_statistics, same_config. by repeat case_match. Qed.

Lemma same_history_update_statistics monitor_name result s :
  same_history s (update_statistics monitor_name result s).
Proof. unfold update_statistics, same_history. by repeat case_match. Qed.

Lemma violations_grow_update_statistics monitor_name result s :
  violations_grow s (update_statistics monitor_name result s).
Proof. unfold update_statistics, violations_grow. by repeat case_match. Qed.

Lemma keeps_store_and_process (R : relation UptimeMonitor) `{!PreOrder R}
    env monitor_name result :
  (forall f s, R s (set_monitor_results f s)) ->
  (forall f s, R s (set_current_incidents f s)) ->
  (forall f s, R s (set_sla_violations (fun vs => (vs ++ f)%list) s)) ->
  (forall n r s, R s (update_statistics n r s)) ->
  keeps R (store_and_process env monitor_name result).
Proof.
  intros Hres Hinc Hvio Hst. unfold store_and_process.
  apply keeps_bind; [done | by apply keeps_modify_self |]. intros _.
  by apply keeps_process_monitor_result.
Qed.

(** X1.  Processing results never rewrites the configuration: the
    monitors, the SLA thresholds and the alert channels after
    [process_all] are those before it, whether every result went through or
    an exception stopped the loop. *)
Theorem processing_keeps_configuration env results w :
  let w' := exec (process_all env results) w in
  monitors (self w') = monitors (self w)
  /\ sla_thresholds (self w') = sla_thresholds (self w)
  /\ alert_channels (self w') = alert_channels (self w).
Proof.
  intros w'.
  assert (keeps same_config (process_all env results)) as H.
  { unfold process_all. apply keeps_for_each; [apply _|]. intros [n r].
    apply keeps_store_and_process; [apply _|..]; try done.
    apply same_config_update_statistics. }
  exact (H w).
Qed.

(** X2.  The log of SLA violations is append-only: whatever a run of
    [process_all] does, and whether it returns or raises, the violations
    recorded before it are a prefix of those recorded after it. *)
Theorem violations_are_append_only env results w :
  sla_violations (self w)
    `prefix_of` sla_violations (self (exec (process_all env results) w)).
Proof.
  assert (keeps violations_grow (process_all env results)) as H.
  { unfold process_all. apply keeps_for_each; [apply _|]. intros [n r].
    apply keeps_store_and_process; [apply _|..].
    - intros f s. unfold violations_grow. simpl. reflexivity.
    - intros f s. unfold violations_grow. simpl. reflexivity.
    - intros f s. unfold violations_grow. simpl. by apply prefix_app_r.
    - apply violations_grow_update_statistics. }
  exact (H w).
Qed.

(** X3.  A result is recorded before it is processed: after
    [store_and_process] the history of the monitor is its history before
    with the result at the end, and the histories of the other monitors are
    untouched, also when the processing of the result raises. *)
Theorem result_is_stored_before_processing env monitor_name result w :
  let w' := exec (store_and_process env monitor_name result) w in
  monitor_results (self w') !! monitor_name
    = Some (default [] (monitor_results (self w) !! monitor_name) ++ [result])%list
  /\ forall other, other <> monitor_name ->
       monitor_results (self w') !! other = monitor_results (self w) !! other.
Proof.
  intros w'.
  assert (monitor_results (self w') =
          <[monitor_name :=
              (default [] (monitor_results (self w) !! monitor_name)
                 ++ [result])%list]> (monitor_results (self w))) as ->.
  { subst w'. unfold store_and_process, exec, bind. simpl.
    match goal with |- context [_process_monitor_result _ _ _ ?w0] =>
      pose proof (keeps_process_monitor_result same_history env
                    (fun _ _ => eq_refl) (fun _ _ => eq_refl)
                    same_history_update_statistics monitor_name result w0)
        as H
    end.
    unfold exec, same_history in H. simpl in H.
    by destruct (_process_monitor_result _ _ _ _) as [[[]|e] w1]. }
  split; [by rewrite lookup_insert_eq|].
  intros other Hne. by rewrite lookup_insert_ne.
Qed.

(** ** Probes, whatever the network does *)

(** X4.  [_check_monitor] never raises and never touches the monitor: for
    every configuration and every answer of the network it returns, and the
    monitor is as before.  It returns no result at all ([None]) exactly when
    the URL is configured and the method is neither GET nor POST; without a
    URL it returns a DOWN result whose error is the missing key, and makes no
    request. *)
Theorem check_monitor_always_returns env monitor_name config w :
  let method := Py.upper (default "GET" (cfg_method config)) in
  let w' := exec (_check_monitor env monitor_name config) w in
  exists r,
    eval (_check_monitor env monitor_name config) w = Return r
    /\ self w' = self w
    /\ (r = None
        <-> is_Some (cfg_url config) /\ method <> "GET" /\ method <> "POST")
    /\ (cfg_url config = None ->
        r = Some (down_result (datetime_of_clock (clock env (S (reads w))))
                    "'url'")
        /\ trace w' = trace w).
Proof.
  intros method w'.
  pose proof (keeps_check_monitor unchanged env monitor_name config w) as Hself.
  fold w' in Hself. unfold unchanged in Hself. subst w'.
  unfold _check_monitor, eval, exec, bind, try_except, time_time, utcnow,
    bind, probe, item, response_status, _collect_harmonic_metrics in *.
  simpl in *. fold method in Hself |- *.
  destruct (cfg_url config) as [url|]; simpl in *.
  2:{ eexists. split; [reflexivity|]. split; [done|]. split; [|done].
      split; [done | by intros [[? ?] _]]. }
  destruct (String.eqb method "GET") eqn:Hget; simpl in *.
  { apply String.eqb_eq in Hget.
    destruct (net_probe env (requests w) "GET" url) as [code| |msg];
      simpl in *;
      [destruct (Py.contains "harmonic" (Py.lower url)); simpl in *|..];
      (eexists; split; [reflexivity|]; split; [done|]; split; [|done];
       split; [done | by intros (_ & ? & _)]). }
  destruct (String.eqb method "POST") eqn:Hpost; simpl in *.
  { apply String.eqb_eq in Hpost.
    destruct (net_probe env (requests w) "POST" url) as [code| |msg];
      simpl in *;
      (eexists; split; [reflexivity|]; split; [done|]; split; [|done];
       split; [done | by intros (_ & _ & ?)]). }
  apply String.eqb_neq in Hget, Hpost.
  eexists. split; [reflexivity|]. split; [done|]. split; [|done].
  split; [by intros _; split; [eexists|] | done].
Qed.

(** X5.  A probe with GET or POST reports what the network did.  An answer
    gives a result that carries its status code and the latency measured
    between the two readings of the clock, in milliseconds, and no error; a
    timeout gives the DOWN result with the error "Request timeout", a
    transport error the DOWN result with the text of the exception, both
    without latency and without status code. *)
Theorem probe_reports_the_network env monitor_name config url method w :
  cfg_url config = Some url ->
  Py.upper (default "GET" (cfg_method config)) = method ->
  method = "GET" \/ method = "POST" ->
  let ts := datetime_of_clock (clock env (S (reads w))) in
  match net_probe env (requests w) method url with
  | Response code =>
      exists r,
        eval (_check_monitor env monitor_name config) w = Return (Some r)
        /\ status_code r = Some code
        /\ response_time r
           = Some ((clock env (S (reads w)) - clock env (reads w)) * 1000)%Q
        /\ error_message r = None
  | TimedOut =>
      eval (_check_monitor env monitor_name config) w
        = Return (Some (down_result ts "Request timeout"))
  | TransportError msg =>
      eval (_check_monitor env monitor_name config) w
        = Return (Some (down_result ts msg))
  end.
Proof.
  intros Hurl Hm Hmethod ts.
  unfold _check_monitor, eval, bind, try_except, time_time, utcnow, bind,
    probe, item, response_status, _collect_harmonic_metrics.
  simpl. rewrite Hurl, Hm. simpl.
  destruct Hmethod as [-> | ->]; simpl;
    destruct (net_probe env (requests w) _ url) as [code| |msg]; simpl;
    try reflexivity.
  - destruct (Py.contains "harmonic" (Py.lower url)); simpl; by eexists.
  - by eexists.
Qed.

Lemma probe_reports_the_network_witness :
  eval (_check_monitor Scenario.silent "api" (Scenario.api_config None))
    Scenario.clear
  = Return (Some (down_result
                    (datetime_of_clock (clock Scenario.silent 1))
                    "Request timeout")).
Proof.
  apply (probe_reports_the_network Scenario.silent "api"
           (Scenario.api_config None) "https://example.org/api/health" "GET"
           Scenario.clear eq_refl eq_refl (or_introl eq_refl)).
Defined.

(** X6.  The status of an answered probe, [E] being the expected status
    code and [L] the expected response time.  It is DOWN exactly when the
    code is not [E].  With GET it is UP exactly when the code is [E] and the
    latency is at most [L], and DEGRADED exactly when the code is [E] and the
    latency is over [L]; with POST it is UP whenever the code is [E], and
    never DEGRADED. *)
Theorem answered_probe_status env monitor_name config url method code w :
  cfg_url config = Some url ->
  Py.upper (default "GET" (cfg_method config)) = method ->
  method = "GET" \/ method = "POST" ->
  net_probe env (requests w) method url = Response code ->
  let E := default 200 (cfg_expected_status config) in
  let L := default 5000%Q (cfg_expected_response_time config) in
  let t := ((clock env (S (reads w)) - clock env (reads w)) * 1000)%Q in
  exists r,
    eval (_check_monitor env monitor_name config) w = Return (Some r)
    /\ (status r = DOWN <-> code <> E)
    /\ (status r = UP <-> code = E /\ (method = "GET" -> (t <= L)%Q))
    /\ (status r = DEGRADED <-> method = "GET" /\ code = E /\ (L < t)%Q)
    /\ status r <> MAINTENANCE.
Proof.
  intros Hurl Hm Hmethod Hnet E L t.
  destruct Hmethod as [-> | ->].
  - destruct (check_monitor_get env monitor_name config url code w
                Hurl Hm Hnet) as (r & Hret & _ & _ & Hup & Hdeg & Hdown).
    fold E L t in Hup, Hdeg, Hdown.
    exists r. split; [done|].
    destruct (decide (code = E)) as [HE|HE].
    + destruct (Qlt_le_dec L t) as [Hlt|Hle].
      * rewrite (Hdeg HE Hlt). split_and!; [| |done|done].
        -- split; [done | by intros ?].
        -- split; [done|]. intros [_ H]. exfalso.
           apply Qlt_not_le in Hlt. by apply Hlt, H.
      * rewrite (Hup HE Hle). split_and!; [| |  |done].
        -- split; [done | by intros ?].
        -- split; done.
        -- split; [done|]. intros (_ & _ & H). exfalso.
           apply Qlt_not_le in H. by apply H.
    + rewrite (Hdown HE). split_and!; [| |  |done].
      * split; done.
      * split; [done | by intros [? _]].
      * split; [done | by intros (_ & ? & _)].
  - destruct (check_monitor_post env monitor_name config url code w
                Hurl Hm Hnet) as (r & Hret & _ & _ & Hup & Hdown).
    fold E in Hup, Hdown.
    exists r. split; [done|].
    destruct (decide (code = E)) as [HE|HE].
    + rewrite (Hup HE). split_and!; [| |  |done].
      * split; [done | by intros ?].
      * split; [|done]. intros _. split; [done|]. by intros ?.
      * split; [done | by intros (? & _)].
    + rewrite (Hdown HE). split_and!; [| |  |done].
      * split; done.
      * split; [done | by intros [? _]].
      * split; [done | by intros (? & _)].
Qed.

Lemma answered_probe_status_witness :
  exists r,
    eval (_check_monitor Scenario.slow_clock "api"
            (Scenario.api_config (Some "get"))) Scenario.clear
      = Return (Some r)
    /\ status r = DEGRADED.
Proof.
  destruct (answered_probe_status Scenario.slow_clock "api"
              (Scenario.api_config (Some "get"))
              "https://example.org/api/health" "GET" 200 Scenario.clear
              eq_refl eq_refl (or_introl eq_refl) eq_refl)
    as (r & Hret & _ & _ & Hdeg & _).
  exists r. split; [exact Hret|]. apply Hdeg.
  split; [reflexivity|]. split; reflexivity.
Defined.

(** ** The Slack sink *)

(** X7.  The Slack sink succeeds exactly when the channel has a webhook
    and the webhook answers 200.  Without a webhook it raises [KeyError] and
    posts nothing; with one it posts exactly once, and any other answer
    raises the exception that names the status received.  The monitor is
    untouched in every case. *)
Theorem slack_sink_succeeds_iff_200 env channel alert_data w :
  let w' := exec (_send_slack_alert env channel alert_data) w in
  let run := eval (_send_slack_alert env channel alert_data) w in
  (run = Return tt
   <-> exists url, ch_webhook_url channel = Some url
                   /\ net_post env (requests w) url (slack_payload alert_data)
                      = Response 200)
  /\ posted (trace w')
     = (from_option (fun url => [url]) [] (ch_webhook_url channel)
          ++ posted (trace w))%list
  /\ (ch_webhook_url channel = None -> run = Raise (Py.KeyError "webhook_url"))
  /\ (forall url code,
        ch_webhook_url channel = Some url ->
        net_post env (requests w) url (slack_payload alert_data)
          = Response code ->
        code <> 200 ->
        run = Raise (Py.Exception
                       ("Slack webhook returned " +:+ Py.str_int code)))
  /\ self w' = self w.
Proof.
  intros w' run. subst w' run.
  unfold _send_slack_alert, eval, exec, bind, item, post_json.
  destruct (ch_webhook_url channel) as [url|]; simpl.
  2:{ split_and!; try done. split; [done | by intros (? & ? & _)]. }
  destruct (net_post env (requests w) url (slack_payload alert_data))
    as [code| |msg] eqn:Hnet; simpl.
  - destruct (Z.eqb_spec code 200) as [->|Hne]; simpl.
    + split_and!; try done.
      * split; [|done]. intros _. by exists url.
      * intros url' code' [= <-] Hn Hc. rewrite Hnet in Hn.
        injection Hn as <-. done.
    + split_and!; try done.
      * split; [done|]. intros (url' & [= <-] & Heq). congruence.
      * intros url' code' [= <-] Hn _. rewrite Hnet in Hn.
        by injection Hn as <-.
  - split_and!; try done.
    + split; [done|]. intros (url' & [= <-] & Heq). congruence.
    + intros url' code' [= <-] Hn _. congruence.
  - split_and!; try done.
    + split; [done|]. intros (url' & [= <-] & Heq). congruence.
    + intros url' code' [= <-] Hn _. congruence.
Qed.

(** ** Incident alerts *)

(** X8.  An incident is announced once, on any list of alert channels.
    When the monitor has an incident already, [_handle_incident] does
    nothing at all: no alert, no change, not even a reading of the clock.
    When it has none, [_handle_incident] records one that starts at the time
    of the result and keeps its status and its error, and builds exactly one
    alert that carries the identity of the incident, CRITICAL for a DOWN
    result and WARNING otherwise.  If every channel names its type the call
    returns and the incident is marked as alerted; if some channel has no
    ['type'] entry the call raises [KeyError('type')] and the incident stays
    recorded with [alert_sent] False. *)
Theorem incident_is_announced_once env monitor_name result w :
  let w' := exec (_handle_incident env monitor_name result) w in
  let run := eval (_handle_incident env monitor_name result) w in
  (is_Some (current_incidents (self w) !! monitor_name) ->
   run = Return tt /\ w' = w)
  /\ (current_incidents (self w) !! monitor_name = None ->
      exists i a,
        current_incidents (self w') !! monitor_name = Some i
        /\ start_time i = timestamp result
        /\ inc_status i = status_value (status result)
        /\ inc_error_message i = error_message result
        /\ alerts (trace w') = a :: alerts (trace w)
        /\ a_incident_id a = incident_id i
        /\ a_severity a
           = (if decide (status result = DOWN) then "critical" else "warning")
        /\ (typed (alert_channels (self w)) ->
            run = Return tt /\ alert_sent i = true)
        /\ (~ typed (alert_channels (self w)) ->
            run = Raise (Py.KeyError "type") /\ alert_sent i = false)).
Proof.
  intros w' run. subst w' run. split.
  { intros [i Hlook].
    unfold _handle_incident, eval, exec, bind, get_self. simpl.
    by rewrite Hlook. }
  intros Hlook.
  unfold _handle_incident, eval, exec, bind, get_self, time_time, modify_self.
  simpl. rewrite Hlook. simpl.
  match goal with |- context [_send_alert env ?sev ?ti ?me ?id ?w0] =>
    destruct (send_alert_run env sev ti me id w0)
      as (w2 & Hexec & Hself & _ & Hal & Hty & Hnot);
    unfold exec, eval in Hexec, Hty, Hnot;
    destruct (_send_alert env sev ti me id w0) as [[[]|e] w2'] eqn:Hrun
  end; simpl in *; subst w2'.
  - rewrite Hself. simpl. rewrite lookup_alter_eq, lookup_insert_eq. simpl.
    do 2 eexists. split; [reflexivity|]. simpl.
    split_and!; try done.
    + unfold alert_at. simpl. by destruct (decide (status result = DOWN)).
    + intros H. by apply Hnot in H.
  - rewrite Hself. simpl. rewrite lookup_insert_eq.
    do 2 eexists. split; [reflexivity|]. simpl.
    split_and!; try done.
    + unfold alert_at. simpl. by destruct (decide (status result = DOWN)).
    + intros H. by apply Hty in H.
    + intros H. by rewrite (Hnot H).
Qed.

(** A DOWN result on a clear monitor with one Slack channel: the incident
    is recorded as alerted and one critical alert is built. *)
Lemma incident_is_announced_once_witness :
  exists i a,
    current_incidents
      (self (exec (_handle_incident Scenario.calm "api"
                     (Scenario.result_at 0 DOWN None)) Scenario.one_sink))
      !! "api" = Some i
    /\ alert_sent i = true
    /\ alerts (trace (exec (_handle_incident Scenario.calm "api"
                              (Scenario.result_at 0 DOWN None))
                        Scenario.one_sink)) = [a]
    /\ a_severity a = "critical"
    /\ a_incident_id a = incident_id i
    /\ eval (_handle_incident Scenario.calm "api"
               (Scenario.result_at 0 DOWN None)) Scenario.one_sink
       = Return tt.
Proof.
  destruct (incident_is_announced_once Scenario.calm "api"
              (Scenario.result_at 0 DOWN None) Scenario.one_sink)
    as [_ Hnew].
  destruct (Hnew eq_refl)
    as (i & a & Hi & _ & _ & _ & Hal & Hid & Hsev & Hty & _).
  destruct Hty as [Hret Hsent].
  { repeat constructor; simpl; by eexists. }
  exists i, a. split_and!; done.
Defined.

(** X9.  A resolution is announced once, on any list of alert channels.
    When the monitor has no incident, [_resolve_incident] does nothing at
    all.  When it has one, [_resolve_incident] builds exactly one INFO alert
    that carries the identity of that incident and, in its message, the
    downtime from the start of the incident to the time of the result.  If
    every channel names its type the call returns and the incident is
    removed, those of the other monitors being left; if some channel has no
    ['type'] entry the call raises [KeyError('type')] and the incident stays
    open. *)
Theorem resolution_is_announced_once env monitor_name result w :
  let w' := exec (_resolve_incident env monitor_name result) w in
  let run := eval (_resolve_incident env monitor_name result) w in
  (current_incidents (self w) !! monitor_name = None ->
   run = Return tt /\ w' = w)
  /\ (forall i,
        current_incidents (self w) !! monitor_name = Some i ->
        exists a,
          alerts (trace w') = a :: alerts (trace w)
          /\ a_severity a = "info"
          /\ a_incident_id a = incident_id i
          /\ a_message a
             = "Monitor " +:+ monitor_name
                 +:+ " has recovered. Downtime: "
                 +:+ str_timedelta env (timestamp result - start_time i)
          /\ (typed (alert_channels (self w)) ->
              run = Return tt
              /\ current_incidents (self w')
                 = delete monitor_name (current_incidents (self w)))
          /\ (~ typed (alert_channels (self w)) ->
              run = Raise (Py.KeyError "type")
              /\ current_incidents (self w') = current_incidents (self w))).
Proof.
  intros w' run. subst w' run. split.
  { intros Hlook.
    unfold _resolve_incident, eval, exec, bind, get_self. simpl.
    by rewrite Hlook. }
  intros i Hlook.
  unfold _resolve_incident, eval, exec, bind, get_self, modify_self.
  simpl. rewrite Hlook. simpl.
  match goal with |- context [_send_alert env ?sev ?ti ?me ?id w] =>
    destruct (send_alert_run env sev ti me id w)
      as (w2 & Hexec & Hself & _ & Hal & Hty & Hnot);
    unfold exec, eval in Hexec, Hty, Hnot;
    destruct (_send_alert env sev ti me id w) as [[[]|e] w2'] eqn:Hrun
  end; simpl in *; subst w2'.
  - eexists. split; [exact Hal|]. split_and!; try done.
    + intros _. split; [done|]. rewrite Hself.
      apply map_eq. intros k.
      destruct (decide (k = monitor_name)) as [->|Hne].
      * by rewrite !lookup_delete_eq.
      * by rewrite !lookup_delete_ne, lookup_alter_ne.
    + intros H. by apply Hnot in H.
  - eexists. split; [exact Hal|]. split_and!; try done.
    + intros H. by apply Hty in H.
    + intros H. split; [by rewrite (Hnot H) | by rewrite Hself].
Qed.

(** An UP result on a monitor with one Slack channel and an open incident:
    one more alert, the call returns and the incident is gone. *)
Lemma resolution_is_announced_once_witness :
  incident_open (self Scenario.down_one_sink) "api"
  /\ eval (_resolve_incident Scenario.calm "api"
             (Scenario.result_at 60 UP None)) Scenario.down_one_sink
     = Return tt
  /\ current_incidents
       (self (exec (_resolve_incident Scenario.calm "api"
                      (Scenario.result_at 60 UP None)) Scenario.down_one_sink))
       !! "api" = None
  /\ exists a,
       alerts (trace (exec (_resolve_incident Scenario.calm "api"
                              (Scenario.result_at 60 UP None))
                        Scenario.down_one_sink))
       = a :: alerts (trace Scenario.down_one_sink)
       /\ a_severity a = "info".
Proof.
  assert (is_Some (current_incidents (self Scenario.down_one_sink) !! "api"))
    as [i Hi].
  { vm_compute. by eexists. }
  split; [by exists i|].
  destruct (resolution_is_announced_once Scenario.calm "api"
              (Scenario.result_at 60 UP None) Scenario.down_one_sink)
    as [_ Hopen].
  destruct (Hopen i Hi) as (a & Hal & Hsev & _ & _ & Hty & _).
  destruct Hty as [Hret Hinc].
  { repeat constructor; simpl; by eexists. }
  split; [exact Hret|]. split.
  - rewrite Hinc. apply lookup_delete_eq.
  - exists a. by split.
Defined.

(** ** The uptime SLA *)

Lemma latency_outcome_no_uptime s monitor_name result lat_v lat_a :
  latency_outcome s monitor_name result lat_v lat_a ->
  uptime_violations lat_v = [] /\ emergency_alerts lat_a = [].
Proof.
  unfold latency_outcome. intros H.
  destruct (response_time result) as [rt|]; [|by destruct H as [-> ->]].
  destruct (Py.truthy rt && Py.gtb rt _); [|by destruct H as [-> ->]].
  destruct H as (t & a & -> & -> & Hsev & _).
  unfold uptime_violations, emergency_alerts. simpl. by rewrite Hsev.
Qed.

Section UptimeSLA.

Variable env : Env.

Lemma wp_check_uptime_sla_outcome monitor_name result Q w :
  typed (alert_channels (self w)) ->
  (forall w' up_v up_a,
     self w' =
       set_sla_violations
         (fun _ => (sla_violations (self w) ++ up_v)%list) (self w) ->
     alerts (trace w') = (up_a ++ alerts (trace w))%list ->
     uptime_outcome (self w) monitor_name result
       (uptime_of (window (self w) monitor_name "monthly"
                     (datetime_of_clock (clock env (reads w)))))
       up_v up_a ->
     Q tt w') ->
  wp (check_uptime_sla env monitor_name result) Q w.
Proof.
  intros Hty HQ. unfold check_uptime_sla.
  assert (self w = set_sla_violations
            (fun _ => (sla_violations (self w) ++ [])%list) (self w)) as Hid.
  { symmetry. apply set_sla_violations_id. by rewrite app_nil_r. }
  unfold uptime_outcome in HQ.
  destruct (decide (status result = DOWN)) as [Hdown|Hup].
  2:{ apply wp_ret. apply (HQ w [] []); try done.
      by rewrite bool_decide_eq_false_2. }
  rewrite bool_decide_eq_true_2 in HQ by done. simpl in HQ.
  apply wp_bind, wp_calculate_uptime_percentage.
  intros w1 Hself Htrace. apply wp_bind, wp_get_self. rewrite Hself.
  match goal with |- context [Py.ltb ?a ?b] => destruct (Py.ltb a b) end.
  2:{ apply wp_ret. apply (HQ w1 [] []); try done.
      - by rewrite Hself.
      - by rewrite Htrace. }
  apply wp_bind, wp_time_time, wp_bind. unfold append_violation.
  apply wp_modify_self, wp_send_alert; simpl; [by rewrite Hself|].
  intros w2 a Hself2 _ Hal Hsev Hid2 _. simpl in *.
  eapply (HQ w2 [_] [a]).
  - rewrite Hself2, Hself. reflexivity.
  - rewrite Hal, Htrace. reflexivity.
  - eauto 10.
Qed.

(** What [_check_sla_violations] adds for the uptime SLA. *)
Lemma check_sla_violations_uptime monitor_name result w :
  typed (alert_channels (self w)) ->
  let w' := exec (_check_sla_violations env monitor_name result) w in
  uptime_outcome (self w) monitor_name result
    (uptime_of (window (self w) monitor_name "monthly"
                  (datetime_of_clock (clock env (reads w)))))
    (uptime_violations (new_violations w w'))
    (emergency_alerts (new_alerts w w')).
Proof.
  intros Hty w'.
  set (pct := uptime_of _).
  assert (wp (_check_sla_violations env monitor_name result)
            (fun _ w1 =>
               uptime_outcome (self w) monitor_name result pct
                 (uptime_violations (new_violations w w1))
                 (emergency_alerts (new_alerts w w1))) w) as Hwp.
  { unfold _check_sla_violations.
    apply wp_bind, wp_check_uptime_sla_outcome; [done|].
    intros w1 up_v up_a Hself1 Hal1 Hup. fold pct in Hup.
    apply wp_check_response_time_sla; [by rewrite Hself1|].
    intros w2 lat_v lat_a Hself2 Hal2 Hlat.
    apply latency_outcome_no_uptime in Hlat as [Hv0 Ha0].
    unfold new_violations, new_alerts.
    rewrite Hself2, Hself1, Hal2, Hal1. simpl.
    rewrite <- app_assoc, drop_app_length.
    rewrite !length_app, Nat.add_assoc, Nat.add_sub.
    rewrite <- length_app, app_assoc, take_app_length.
    unfold uptime_violations, emergency_alerts in *.
    rewrite !List.filter_app, Hv0, Ha0, app_nil_r. simpl.
    unfold uptime_outcome in *.
    destruct (bool_decide (status result = DOWN) && Py.ltb pct _);
      [|by destruct Hup as [-> ->]].
    destruct Hup as (t & a & -> & -> & Hsev & Hid).
    simpl. rewrite Hsev. simpl. eauto 10. }
  by apply wp_run_unit in Hwp as [_ H].
Qed.

End UptimeSLA.

(** X10.  The uptime SLA is checked on DOWN results only.  With alert
    channels that name their type, [_check_sla_violations] records an uptime
    violation, and sends an EMERGENCY alert that carries its identity, if and
    only if the result is DOWN and the uptime percentage of the monitor over
    the monthly window is strictly under the violation threshold of the
    uptime SLA.  The violation records the target of the SLA as its
    threshold, the percentage as the value observed, the compensation rate
    of the SLA and the time of the result; a DEGRADED or an UP result never
    records one, however low the uptime. *)
Theorem uptime_violation_iff_down_and_under env w monitor_name result :
  typed (alert_channels (self w)) ->
  let pct := uptime_of (window (self w) monitor_name "monthly"
                          (datetime_of_clock (clock env (reads w)))) in
  let th := uptime (sla_thresholds (self w)) in
  let w' := exec (_check_sla_violations env monitor_name result) w in
  let emitted := uptime_violations (new_violations w w') in
  let alarmed := emergency_alerts (new_alerts w w') in
  (emitted <> []
   <-> status result = DOWN /\ (pct < violation_threshold th)%Q)
  /\ (alarmed <> [] <-> emitted <> [])
  /\ (forall v, v ∈ emitted ->
        emitted = [v]
        /\ v_monitor_name v = monitor_name
        /\ v_threshold v = target_value th
        /\ actual_value v = pct
        /\ v_compensation_rate v = compensation_rate th
        /\ v_timestamp v = timestamp result
        /\ exists a, alarmed = [a] /\ a_incident_id a = violation_id v).
Proof.
  intros Hty. cbv zeta.
  pose proof (check_sla_violations_uptime env monitor_name result w Hty)
    as Hout.
  cbv zeta in Hout. unfold uptime_outcome in Hout.
  set (pct := uptime_of _) in *.
  set (th := uptime (sla_thresholds (self w))) in *.
  set (emitted := uptime_violations _) in *.
  set (alarmed := emergency_alerts _) in *.
  clearbody emitted alarmed.
  destruct (decide (status result = DOWN)) as [Hdown|Hup].
  - rewrite bool_decide_eq_true_2 in Hout by done.
    rewrite andb_true_l in Hout.
    destruct (Py.ltb pct (violation_threshold th)) eqn:Hlt.
    + destruct Hout as (t & a & Hv & Ha & Hsev & Hid).
      apply ltb_spec in Hlt. rewrite Hv, Ha. split_and!.
      * split; [by intros _ | done].
      * split; by intros _.
      * intros v Hin. apply list_elem_of_singleton in Hin. subst v.
        split_and!; try done. eauto.
    + destruct Hout as [Hv Ha]. rewrite Hv, Ha.
      assert (~ (pct < violation_threshold th)%Q) as Hn.
      { intros H. apply ltb_spec in H. congruence. }
      split_and!; [| done |].
      * split; [done | tauto].
      * intros v Hin. by apply elem_of_nil in Hin.
  - rewrite bool_decide_eq_false_2 in Hout by done.
    rewrite andb_false_l in Hout.
    destruct Hout as [Hv Ha]. rewrite Hv, Ha.
    split_and!; [| done |].
    + split; [done | tauto].
    + intros v Hin. by apply elem_of_nil in Hin.
Qed.

Lemma uptime_violation_iff_down_and_under_witness :
  typed (alert_channels (self Scenario.one_sink))
  /\ uptime_violations
       (new_violations Scenario.one_sink
          (exec (_check_sla_violations Scenario.calm "api"
                   (Scenario.result_at 0 DEGRADED (Some 100%Q)))
             Scenario.one_sink)) = [].
Proof.
  assert (typed (alert_channels (self Scenario.one_sink))) as Hty.
  { repeat constructor; simpl; by eexists. }
  split; [exact Hty|].
  destruct (uptime_violation_iff_down_and_under Scenario.calm
              Scenario.one_sink "api"
              (Scenario.result_at 0 DEGRADED (Some 100%Q)) Hty)
    as (Hiff & _).
  destruct (uptime_violations _) as [|v vs]; [reflexivity|].
  exfalso. assert (v :: vs <> []) as Hne by discriminate.
  apply Hiff in Hne as [Hdown _]. discriminate Hdown.
Defined.

(** ** The uptime percentage is a percentage *)

Lemma uptime_of_bounds win : (0 <= uptime_of win)%Q /\ (uptime_of win <= 100)%Q.
Proof.
  unfold uptime_of.
  destruct (Nat.eqb_spec (length win) 0) as [H0|Hpos]; [split; lra|].
  set (k := inject_Z (Z.of_nat (length (List.filter is_up win)))).
  set (n := inject_Z (Z.of_nat (length win))).
  assert (0 <= k)%Q as Hk.
  { subst k. change 0%Q with (inject_Z 0). rewrite <- Zle_Qle. lia. }
  assert (k <= n)%Q as Hkn.
  { subst k n. rewrite <- Zle_Qle. apply inj_le. apply List.filter_length_le. }
  assert (0 < n)%Q as Hn.
  { subst n. change 0%Q with (inject_Z 0). rewrite <- Zlt_Qlt. lia. }
  assert (0 <= k / n)%Q as Hlo.
  { apply Qle_shift_div_l; [done|]. lra. }
  assert (k / n <= 1)%Q as Hhi.
  { apply Qle_shift_div_r; [done|]. lra. }
  split; lra.
Qed.

(** X11.  The uptime percentage is a percentage: for every monitor, every
    period and every state, [_calculate_uptime_percentage] returns a value
    between 0 and 100. *)
Theorem uptime_percentage_is_a_percentage env monitor_name period w :
  exists q,
    eval (_calculate_uptime_percentage env monitor_name period) w = Return q
    /\ (0 <= q)%Q /\ (q <= 100)%Q.
Proof.
  apply (wp_run (_calculate_uptime_percentage env monitor_name period)
           (fun q _ => (0 <= q)%Q /\ (q <= 100)%Q) w).
  apply wp_calculate_uptime_percentage. intros w' _ _.
  apply uptime_of_bounds.
Qed.

(** ** Pruning the history *)

Lemma cleanup_run env w :
  _cleanup_old_results env w =
    (Return tt,
     {| self :=
          set_monitor_results
            (fmap (List.filter
                     (in_window (datetime_of_clock (clock env (reads w))
                                 - hours 24))))
            (self w);
        reads := S (reads w); requests := requests w; trace := trace w |}).
Proof. reflexivity. Qed.

(** X12.  Pruning keeps the last twenty-four hours.  [_cleanup_old_results]
    returns; a result is in the history of a monitor after it exactly when
    it was there before and its time is not before the cut-off, which is the
    reading of the clock less 24 hours; the results kept are in their order;
    the monitors that have a history are the same, possibly with an empty
    one; nothing else of the monitor changes. *)
Theorem cleanup_keeps_the_last_day env w :
  let cutoff := datetime_of_clock (clock env (reads w)) - hours 24 in
  let s := self w in
  let s' := self (exec (_cleanup_old_results env) w) in
  eval (_cleanup_old_results env) w = Return tt
  /\ (forall monitor_name r,
        r ∈ default [] (monitor_results s' !! monitor_name)
        <-> r ∈ default [] (monitor_results s !! monitor_name)
            /\ cutoff <= timestamp r)
  /\ (forall monitor_name,
        default [] (monitor_results s' !! monitor_name)
          `sublist_of` default [] (monitor_results s !! monitor_name))
  /\ dom (monitor_results s') = dom (monitor_results s)
  /\ current_incidents s' = current_incidents s
  /\ sla_violations s' = sla_violations s
  /\ uptime_stats s' = uptime_stats s
  /\ performance_stats s' = performance_stats s
  /\ monitors s' = monitors s
  /\ sla_thresholds s' = sla_thresholds s
  /\ alert_channels s' = alert_channels s.
Proof.
  intros cutoff s s'. subst s'. unfold eval, exec. rewrite cleanup_run. simpl.
  fold cutoff s.
  assert (forall monitor_name,
    default [] (List.filter (in_window cutoff) <$> monitor_results s !! monitor_name)
    = List.filter (in_window cutoff)
        (default [] (monitor_results s !! monitor_name))) as Hdef.
  { intros n. by destruct (monitor_results s !! n). }
  split_and!; try done.
  - intros n r. rewrite lookup_fmap, Hdef, !list_elem_of_In, List.filter_In.
    unfold in_window. by rewrite Z.leb_le.
  - intros n. rewrite lookup_fmap, Hdef.
    generalize (default [] (monitor_results s !! n)). intros l.
    induction l as [|x l IH]; simpl; [done|].
    destruct (in_window cutoff x); by constructor.
  - apply dom_fmap_L.
Qed.

(** X13.  After a pruning the monthly window holds a day at most.  Every
    result that [_cleanup_old_results] keeps is inside the daily window that
    ends at the reading of the clock of the pruning; and for any instant less
    than twenty-nine days after it, the monthly window of a monitor is its
    whole history: what the monthly uptime is computed on is what the
    pruning left. *)
Theorem after_cleanup_month_is_a_day env w monitor_name later :
  let now := datetime_of_clock (clock env (reads w)) in
  let s' := self (exec (_cleanup_old_results env) w) in
  later - days 30 <= now - hours 24 ->
  window s' monitor_name "monthly" later
    = default [] (monitor_results s' !! monitor_name)
  /\ window s' monitor_name "daily" now
    = default [] (monitor_results s' !! monitor_name).
Proof.
  intros now s' Hlater. subst s'. unfold exec. rewrite cleanup_run. simpl.
  fold now. unfold window. simpl. rewrite lookup_fmap.
  set (l := monitor_results (self w) !! monitor_name).
  assert (default [] (List.filter (in_window (now - hours 24)) <$> l)
          = List.filter (in_window (now - hours 24)) (default [] l)) as ->.
  { by destruct l. }
  generalize (default [] l). intros rs.
  assert (forall start, start <= now - hours 24 ->
    List.filter (fun r => bool_decide (start <= timestamp r))
      (List.filter (in_window (now - hours 24)) rs)
    = List.filter (in_window (now - hours 24)) rs) as Hall.
  { intros start Hstart. induction rs as [|r rs IH]; [done|]. simpl.
    destruct (in_window (now - hours 24) r) eqn:Hw; simpl; [|exact IH].
    unfold in_window in Hw. apply Z.leb_le in Hw.
    rewrite bool_decide_eq_true_2 by lia. by rewrite IH. }
  split; apply Hall.
  - change (period_length "monthly") with (days 30). exact Hlater.
  - change (period_length "daily") with (hours 24). lia.
Qed.

Lemma after_cleanup_month_is_a_day_witness :
  window (self (exec (_cleanup_old_results Scenario.two_days_later)
                  Scenario.four_results)) "api" "monthly"
    (datetime_of_clock (clock Scenario.two_days_later
                          (reads Scenario.four_results)))
  = default [] (monitor_results
                  (self (exec (_cleanup_old_results Scenario.two_days_later)
                           Scenario.four_results)) !! "api").
Proof.
  apply (after_cleanup_month_is_a_day Scenario.two_days_later
           Scenario.four_results "api"
           (datetime_of_clock (clock Scenario.two_days_later
                                 (reads Scenario.four_results)))).
  vm_compute. discriminate.
Defined.

(** ** The pipeline and the statistics *)

Lemma update_statistics_same_stats monitor_name result s1 s2 :
  same_stats s1 s2 ->
  same_stats (update_statistics monitor_name result s1)
    (update_statistics monitor_name result s2).
Proof.
  intros [Hu Hp]. unfold update_statistics, same_stats.
  destruct (response_time result) as [rt|]; [destruct (Py.truthy rt)|];
    simpl; by rewrite Hu, Hp.
Qed.

Lemma history_after_lookup monitor_name results d :
  default [] (history_after results d !! monitor_name)
    = (default [] (d !! monitor_name) ++ results_of monitor_name results)%list.
Proof.
  revert d. induction results as [|[n r] rest IH]; intros d.
  { simpl. by rewrite app_nil_r. }
  unfold history_after in *. simpl. rewrite IH. unfold results_of. simpl.
  destruct (String.eqb n monitor_name) eqn:Hn.
  - apply String.eqb_eq in Hn. subst n. rewrite lookup_insert_eq. simpl.
    by rewrite <- app_assoc.
  - apply String.eqb_neq in Hn. by rewrite lookup_insert_ne.
Qed.

Section PipelineStatistics.

Variable env : Env.

Lemma wp_process_monitor_result_stats monitor_name result Q w :
  typed (alert_channels (self w)) ->
  (forall w',
     alert_channels (self w') = alert_channels (self w) ->
     monitor_results (self w') = monitor_results (self w) ->
     same_stats (update_statistics monitor_name result (self w)) (self w') ->
     Q tt w') ->
  wp (_process_monitor_result env monitor_name result) Q w.
Proof.
  intros Hty HQ. unfold _process_monitor_result.
  apply wp_bind.
  assert (wp (if is_incident_status (status result)
              then _handle_incident env monitor_name result
              else bind get_self (fun s =>
                     match current_incidents s !! monitor_name with
                     | Some _ => _resolve_incident env monitor_name result
                     | None => ret tt
                     end))
            (fun _ w1 =>
               exists f, self w1 = set_current_incidents f (self w)) w)
    as Hinc.
  { destruct (is_incident_status (status result)).
    - apply wp_handle_incident; [done|]. eauto.
    - apply wp_bind, wp_get_self.
      destruct (current_incidents (self w) !! monitor_name) eqn:Hlook.
      + apply wp_resolve_incident; [done|]. eauto.
      + apply wp_ret. exists id. symmetry.
        by apply set_current_incidents_id. }
  eapply wp_mono; [exact Hinc|]. clear Hinc. simpl.
  intros [] w1 [f Hself1].
  apply wp_bind, wp_check_sla_violations; [by rewrite Hself1|].
  intros w2 up_v lat_v up_a lat_a Hself2 _ _ _ _.
  unfold _update_statistics. apply wp_modify_self, HQ; simpl.
  - destruct (update_statistics_frame monitor_name result (self w2))
      as (_ & -> & _).
    by rewrite Hself2, Hself1.
  - destruct (update_statistics_frame monitor_name result (self w2))
      as (_ & _ & _ & _ & ->).
    by rewrite Hself2, Hself1.
  - apply update_statistics_same_stats. by rewrite Hself2, Hself1.
Qed.

Lemma wp_process_all_stats results s w :
  typed (alert_channels (self w)) ->
  same_stats s (self w) ->
  wp (process_all env results)
    (fun _ w' =>
       same_stats (stats_after results s) (self w')
       /\ monitor_results (self w')
          = history_after results (monitor_results (self w))) w.
Proof.
  revert s w. unfold process_all.
  induction results as [|[n r] rest IH]; intros s w Hty Hstats.
  { by apply wp_ret. }
  simpl. apply wp_bind. unfold store_and_process.
  apply wp_bind, wp_modify_self, wp_process_monitor_result_stats; [done|].
  simpl. intros w1 Hch Hres Hst.
  eapply wp_mono; [apply (IH (update_statistics n r s) w1)|].
  - by rewrite Hch.
  - etransitivity; [|exact Hst].
    apply update_statistics_same_stats. exact Hstats.
  - intros [] w2 [Hst2 Hres2]. split; [done|]. by rewrite Hres2, Hres.
Qed.

End PipelineStatistics.

(** X14.  The pipeline counts every result once.  With alert channels that
    name their type, processing a sequence of results returns, and leaves
    the counters and the performance entries that the same sequence of
    statistics updates gives, whatever incidents and violations came in
    between; the history of each monitor has grown by its results, in order,
    and its number of checks by their number. *)
Theorem pipeline_counts_every_result env results w :
  typed (alert_channels (self w)) ->
  let w' := exec (process_all env results) w in
  eval (process_all env results) w = Return tt
  /\ uptime_stats (self w') = uptime_stats (stats_after results (self w))
  /\ performance_stats (self w')
     = performance_stats (stats_after results (self w))
  /\ (forall monitor_name,
        default [] (monitor_results (self w') !! monitor_name)
        = (default [] (monitor_results (self w) !! monitor_name)
             ++ results_of monitor_name results)%list)
  /\ (forall monitor_name,
        total_checks
          (default new_uptime_stat (uptime_stats (self w') !! monitor_name))
        = total_checks
            (default new_uptime_stat (uptime_stats (self w) !! monitor_name))
          + Z.of_nat (length (results_of monitor_name results))).
Proof.
  intros Hty w'.
  pose proof (wp_process_all_stats env results (self w) w Hty
                (reflexivity _)) as Hwp.
  apply wp_run_unit in Hwp as (Hret & [Hu Hp] & Hres). fold w' in Hu, Hp, Hres.
  split_and!; try done.
  - intros n. rewrite Hres. apply history_after_lookup.
  - intros n. rewrite Hu, stats_after_uptime.
    destruct (results_of n results) as [|r rs] eqn:Hrs; [simpl; lia|].
    destruct (counts_after_spec (r :: rs)
                (default new_uptime_stat (uptime_stats (self w) !! n)))
      as (Ht & _).
    exact Ht.
Qed.

Lemma pipeline_counts_every_result_witness :
  typed (alert_channels (self Scenario.one_sink))
  /\ uptime_stats
       (self (exec (process_all Scenario.calm
                      [("api", Scenario.result_at 0 DOWN None);
                       ("api", Scenario.result_at 60 UP (Some 150%Q))])
                Scenario.one_sink))
     = uptime_stats
         (stats_after [("api", Scenario.result_at 0 DOWN None);
                       ("api", Scenario.result_at 60 UP (Some 150%Q))]
            (self Scenario.one_sink)).
Proof.
  assert (typed (alert_channels (self Scenario.one_sink))) as Hty.
  { repeat constructor; simpl; by eexists. }
  split; [exact Hty|].
  apply (pipeline_counts_every_result Scenario.calm
           [("api", Scenario.result_at 0 DOWN None);
            ("api", Scenario.result_at 60 UP (Some 150%Q))]
           Scenario.one_sink Hty).
Defined.

(** ** The report reads, and writes nothing *)

Section ReadOnly.

Variable env : Env.

Lemma wp_monitor_reports_quiet period names w :
  wp (monitor_reports env period names)
    (fun _ w' => self w' = self w /\ trace w' = trace w) w.
Proof.
  revert w. induction names as [|n names IH]; intros w.
  { by apply wp_ret. }
  simpl. unfold monitor_report.
  apply wp_bind, wp_bind, wp_calculate_uptime_percentage.
  intros w1 Hself Htrace. apply wp_bind, wp_get_self, wp_ret, wp_bind.
  eapply wp_mono; [apply IH|].
  intros reports w2 [Hself2 Htrace2]. apply wp_ret. split; congruence.
Qed.

End ReadOnly.

(** X15.  A report reads the monitor and writes nothing: generating one
    leaves every attribute of the monitor as it was, sends no alert, makes no
    request and logs nothing; only the clock has been read. *)
Theorem report_is_read_only env period w :
  let w' := exec (generate_sla_report env period) w in
  self w' = self w /\ trace w' = trace w /\ requests w' = requests w.
Proof.
  intros w'.
  assert (wp (generate_sla_report env period)
            (fun _ w1 => self w1 = self w /\ trace w1 = trace w) w) as Hwp.
  { unfold generate_sla_report.
    apply wp_bind, wp_utcnow, wp_bind, wp_get_self, wp_bind. simpl.
    eapply wp_mono; [apply wp_monitor_reports_quiet|].
    intros reports w1 [Hself Htrace]. simpl in *.
    by apply wp_bind, wp_utcnow, wp_bind, wp_get_self, wp_ret. }
  apply wp_run in Hwp as (rep & _ & Hself & Htrace). fold w' in Hself, Htrace.
  split; [done|]. split; [done|].
  (* no request: every request leaves an event in the trace *)
  subst w'. clear Hself Htrace.
  assert (forall names w0,
    requests (exec (monitor_reports env period names) w0) = requests w0
    /\ exists a, eval (monitor_reports env period names) w0 = Return a) as Hrep.
  { induction names as [|n names IH]; intros w0; [by eauto|].
    simpl. unfold exec, eval, bind, monitor_report, bind,
      _calculate_uptime_percentage, bind, get_self, utcnow, bind, time_time,
      ret in *.
    simpl.
    destruct (monitor_results (self w0) !! n) as [rs|]; simpl.
    - destruct (List.filter _ rs); simpl;
        match goal with |- context [monitor_reports env period names ?w1] =>
          destruct (IH w1) as [Hreq [a Ha]];
          destruct (monitor_reports env period names w1) as [[x|e] w2];
          simpl in *; [eauto | discriminate Ha]
        end.
    - match goal with |- context [monitor_reports env period names ?w1] =>
        destruct (IH w1) as [Hreq [a Ha]];
        destruct (monitor_reports env period names w1) as [[x|e] w2];
        simpl in *; [eauto | discriminate Ha]
      end. }
  unfold generate_sla_report, exec, bind, utcnow, bind, time_time, get_self,
    ret.
  simpl.
  match goal with |- context [monitor_reports env period ?ns ?w1] =>
    destruct (Hrep ns w1) as [Hreq [a Ha]];
    unfold exec, eval in Hreq, Ha;
    destruct (monitor_reports env period ns w1) as [[x|e] w2];
    simpl in *; [exact Hreq | discriminate Ha]
  end.
Qed.

(** ** Loading the thresholds *)

Local Set Warnings "-clear-no-such-hyp".

Lemma default_table_dom :
  dom default_table
  = ({["uptime"; "api_response_time"; "harmonic_processing_time"]} : gset string).
Proof. unfold default_table. rewrite !dom_insert_L, dom_empty_L. set_solver. Qed.

(** What the loop of the loader leaves: the defaults keep their names, the
    thresholds gain the names configured; a name configured once has the
    value that its entry gives, a name not configured keeps what it had. *)
Lemma merge_config_spec sla_config defaults thresholds d t :
  merge_config sla_config defaults thresholds = Some (d, t) ->
  dom d = dom defaults
  /\ dom t = dom thresholds ∪ list_to_set sla_config.*1
  /\ (NoDup sla_config.*1 ->
      (forall n c, (n, c) ∈ sla_config ->
         is_Some (t !! n)
         /\ t !! n = match defaults !! n with
                     | Some th => Some (override th c)
                     | None => construct c
                     end
         /\ d !! n = (fun th => override th c) <$> defaults !! n)
      /\ (forall n, n ∉ sla_config.*1 ->
            t !! n = thresholds !! n /\ d !! n = defaults !! n)).
Proof.
  revert defaults thresholds.
  induction sla_config as [|[n0 c0] rest IH]; intros defaults thresholds Hm.
  { simpl in Hm. injection Hm as <- <-. split; [done|]. split; [set_solver|].
    intros _. split; [|done]. intros n c Hin. by apply elem_of_nil in Hin. }
  simpl in Hm.
  destruct (defaults !! n0) as [th0|] eqn:Hd0.
  - apply IH in Hm as (Hdom_d & Hdom_t & Hval).
    split; [|split].
    + rewrite Hdom_d, dom_insert_L.
      assert (n0 ∈ dom defaults) by (apply elem_of_dom; eauto). set_solver.
    + rewrite Hdom_t, dom_insert_L. simpl. set_solver.
    + intros Hnd. simpl in Hnd. apply NoDup_cons in Hnd as [Hn0 Hnd].
      destruct (Hval Hnd) as [Hin Hout]. split.
      * intros n c Hnc. apply elem_of_cons in Hnc as [[= -> ->]|Hnc].
        -- destruct (Hout n0 Hn0) as [Ht Hd].
           rewrite Ht, Hd, !lookup_insert_eq, Hd0. by split; [eexists|].
        -- assert (n <> n0) as Hne.
           { intros ->. apply Hn0. apply list_elem_of_fmap. by exists (n0, c). }
           destruct (Hin n c Hnc) as (Hs & Ht & Hd).
           by rewrite lookup_insert_ne in Ht, Hd.
      * intros n Hn. simpl in Hn. apply not_elem_of_cons in Hn as [Hne Hn].
        destruct (Hout n Hn) as [Ht Hd].
        by rewrite lookup_insert_ne in Ht, Hd.
  - destruct (construct c0) as [th0|] eqn:Hc0; [|done]. simpl in Hm.
    apply IH in Hm as (Hdom_d & Hdom_t & Hval).
    split; [done|]. split.
    + rewrite Hdom_t, dom_insert_L. simpl. set_solver.
    + intros Hnd. simpl in Hnd. apply NoDup_cons in Hnd as [Hn0 Hnd].
      destruct (Hval Hnd) as [Hin Hout]. split.
      * intros n c Hnc. apply elem_of_cons in Hnc as [[= -> ->]|Hnc].
        -- destruct (Hout n0 Hn0) as [Ht Hd].
           rewrite Ht, Hd, lookup_insert_eq, Hd0, Hc0. by split; [eexists|].
        -- assert (n <> n0) as Hne.
           { intros ->. apply Hn0. apply list_elem_of_fmap. by exists (n0, c). }
           destruct (Hin n c Hnc) as (Hs & Ht & Hd). done.
      * intros n Hn. simpl in Hn. apply not_elem_of_cons in Hn as [Hne Hn].
        destruct (Hout n Hn) as [Ht Hd].
        by rewrite lookup_insert_ne in Ht.
Qed.

(** The loop fails exactly on an entry that is under no default name and
    that the constructor refuses. *)
Lemma merge_config_fails sla_config defaults thresholds :
  merge_config sla_config defaults thresholds = None
  <-> exists n c, (n, c) ∈ sla_config /\ defaults !! n = None
                  /\ construct c = None.
Proof.
  revert defaults thresholds.
  induction sla_config as [|[n0 c0] rest IH]; intros defaults thresholds.
  { simpl. split; [done|]. intros (n & c & Hin & _). by apply elem_of_nil in Hin. }
  simpl. destruct (defaults !! n0) as [th0|] eqn:Hd0.
  - rewrite IH. split.
    + intros (n & c & Hin & Hd & Hc). exists n, c. split; [by right|].
      split; [|done]. destruct (decide (n = n0)) as [->|Hne].
      * by rewrite lookup_insert_eq in Hd.
      * by rewrite lookup_insert_ne in Hd.
    + intros (n & c & Hin & Hd & Hc).
      apply elem_of_cons in Hin as [[= -> ->]|Hin]; [congruence|].
      exists n, c. split; [done|]. split; [|done].
      rewrite lookup_insert_ne; [done|]. congruence.
  - destruct (construct c0) as [th0|] eqn:Hc0; simpl.
    + rewrite IH. split.
      * intros (n & c & Hin & Hd & Hc). exists n, c. by split; [right|].
      * intros (n & c & Hin & Hd & Hc).
        apply elem_of_cons in Hin as [[= -> ->]|Hin]; [congruence|].
        by exists n, c.
    + split; [|done]. intros _. exists n0, c0. by split; [left|].
Qed.

(** A load that returns gives the three default names and the names
    configured, hence the record that the methods read. *)
Lemma load_dom sla_config d :
  _load_sla_thresholds sla_config = Some d ->
  dom d
    = ({["uptime"; "api_response_time"; "harmonic_processing_time"]} : gset string)
        ∪ list_to_set sla_config.*1.
Proof.
  unfold _load_sla_thresholds. intros Hload.
  destruct (merge_config sla_config default_table ∅) as [[d' t']|] eqn:Hm;
    [|done].
  simpl in Hload. injection Hload as <-.
  apply merge_config_spec in Hm as (Hdom_d & Hdom_t & _).
  rewrite dom_union_L, Hdom_d, Hdom_t, default_table_dom, dom_empty_L.
  set_solver.
Qed.

Lemma load_record sla_config d :
  _load_sla_thresholds sla_config = Some d ->
  exists th,
    thresholds_record d = Some th
    /\ d !! "uptime" = Some (uptime th)
    /\ d !! "api_response_time" = Some (api_response_time th)
    /\ d !! "harmonic_processing_time" = Some (harmonic_processing_time th).
Proof.
  intros Hload. pose proof (load_dom _ _ Hload) as Hdom.
  assert (forall n, n ∈ ({["uptime"; "api_response_time";
                           "harmonic_processing_time"]} : gset string) ->
                    is_Some (d !! n)) as Hsome.
  { intros n Hn. apply elem_of_dom. rewrite Hdom. set_solver. }
  destruct (Hsome "uptime") as [u Hu]; [set_solver|].
  destruct (Hsome "api_response_time") as [a Ha]; [set_solver|].
  destruct (Hsome "harmonic_processing_time") as [h Hh]; [set_solver|].
  unfold thresholds_record. rewrite Hu, Ha, Hh. simpl.
  eexists. split; [reflexivity|]. done.
Qed.

(** X16.  The defaults are always there.  Whenever [_load_sla_thresholds]
    returns, the names of the thresholds are the three default names and the
    names configured; the record of thresholds that the methods read exists,
    and the monitor is built with it: [sla_thresholds['uptime']] and
    [sla_thresholds['api_response_time']] cannot be missing. *)
Theorem loaded_thresholds_hold_the_defaults ms sla_config chs d :
  _load_sla_thresholds sla_config = Some d ->
  dom d
    = ({["uptime"; "api_response_time"; "harmonic_processing_time"]} : gset string)
        ∪ list_to_set sla_config.*1
  /\ exists th,
       thresholds_record d = Some th
       /\ d !! "uptime" = Some (uptime th)
       /\ d !! "api_response_time" = Some (api_response_time th)
       /\ new_monitor ms sla_config chs = Some (init ms th chs).
Proof.
  intros Hload. split; [by apply load_dom|].
  destruct (load_record _ _ Hload) as (th & Hrec & Hu & Ha & _).
  exists th. split_and!; try done.
  unfold new_monitor. rewrite Hload. simpl. by rewrite Hrec.
Qed.

Lemma loaded_thresholds_hold_the_defaults_witness :
  exists d,
    _load_sla_thresholds Scenario.sla_config = Some d
    /\ is_Some (d !! "uptime") /\ is_Some (d !! "queue_delay").
Proof.
  eexists. split; [reflexivity|].
  destruct (loaded_thresholds_hold_the_defaults [] Scenario.sla_config []
              _ eq_refl) as (_ & th & _ & Hu & _).
  split; [rewrite Hu; by eexists | by eexists].
Defined.

(** The constructor call of line 134, field by field: it returns a
    threshold exactly when the entry gives the six fields and no other key,
    and the threshold has the values given. *)
Lemma construct_Some c t :
  construct c = Some t
  <-> c_name c = Some (name t)
      /\ c_target_value c = Some (target_value t)
      /\ c_measurement_unit c = Some (measurement_unit t)
      /\ c_measurement_period c = Some (measurement_period t)
      /\ c_violation_threshold c = Some (violation_threshold t)
      /\ c_compensation_rate c = Some (compensation_rate t)
      /\ c_other_keys c = [].
Proof.
  unfold construct. destruct c as [n tv mu mp vt cr ok], t as [n' tv' mu' mp' vt' cr'].
  simpl. split.
  - destruct ok; [|done].
    destruct n, tv, mu, mp, vt, cr; simpl; try done.
    by intros [= -> -> -> -> -> ->].
  - by intros ([= ->] & [= ->] & [= ->] & [= ->] & [= ->] & [= ->] & ->).
Qed.

Lemma construct_None c :
  construct c = None
  <-> c_name c = None \/ c_target_value c = None
      \/ c_measurement_unit c = None \/ c_measurement_period c = None
      \/ c_violation_threshold c = None \/ c_compensation_rate c = None
      \/ c_other_keys c <> [].
Proof.
  unfold construct. destruct c as [n tv mu mp vt cr ok]. simpl. split.
  - destruct ok; [|intros _; by do 6 right].
    destruct n; [|by left]. destruct tv; [|by right; left].
    destruct mu; [|by do 2 right; left]. destruct mp; [|by do 3 right; left].
    destruct vt; [|by do 4 right; left]. destruct cr; [|by do 5 right; left].
    done.
  - intros [->|[->|[->|[->|[->|[->|Hok]]]]]]; destruct ok; try done;
      by repeat (match goal with |- context [from_option _ _ ?o] => destruct o
                          | |- context [mbind _ ?o] => destruct o end; simpl).
Qed.

(** The names of [default_thresholds]. *)
Lemma default_table_None n :
  default_table !! n = None
  <-> n <> "uptime" /\ n <> "api_response_time"
      /\ n <> "harmonic_processing_time".
Proof.
  rewrite <- not_elem_of_dom, default_table_dom. set_solver.
Qed.

(** X17.  What a loaded threshold is, field by field.  For a configuration
    whose names are distinct, as those of a dict are: under a configured
    default name, each of the six fields of the loaded threshold is the value
    that the entry gives for it, and the value of the default when the entry
    gives none; under a configured name that is no default, the entry gives
    the six fields and no other key, and each field of the loaded threshold
    is the value given; a name that is not configured has the default of
    that name, if there is one, and nothing otherwise. *)
Theorem loaded_threshold_values sla_config d :
  NoDup sla_config.*1 ->
  _load_sla_thresholds sla_config = Some d ->
  (forall n c th,
     (n, c) ∈ sla_config ->
     default_table !! n = Some th ->
     exists t,
       d !! n = Some t
       /\ name t = default (name th) (c_name c)
       /\ target_value t = default (target_value th) (c_target_value c)
       /\ measurement_unit t
          = default (measurement_unit th) (c_measurement_unit c)
       /\ measurement_period t
          = default (measurement_period th) (c_measurement_period c)
       /\ violation_threshold t
          = default (violation_threshold th) (c_violation_threshold c)
       /\ compensation_rate t
          = default (compensation_rate th) (c_compensation_rate c))
  /\ (forall n c,
        (n, c) ∈ sla_config ->
        n <> "uptime" -> n <> "api_response_time" ->
        n <> "harmonic_processing_time" ->
        exists t,
          d !! n = Some t
          /\ c_name c = Some (name t)
          /\ c_target_value c = Some (target_value t)
          /\ c_measurement_unit c = Some (measurement_unit t)
          /\ c_measurement_period c = Some (measurement_period t)
          /\ c_violation_threshold c = Some (violation_threshold t)
          /\ c_compensation_rate c = Some (compensation_rate t)
          /\ c_other_keys c = [])
  /\ (forall n,
        n ∉ sla_config.*1 ->
        d !! n
        = if decide (n = "uptime") then Some default_uptime
          else if decide (n = "api_response_time")
               then Some default_api_response_time
          else if decide (n = "harmonic_processing_time")
               then Some default_harmonic_processing_time
          else None).
Proof.
  unfold _load_sla_thresholds. intros Hnd Hload.
  destruct (merge_config sla_config default_table ∅) as [[d' t']|] eqn:Hm;
    [|done].
  simpl in Hload. injection Hload as <-.
  apply merge_config_spec in Hm as (_ & _ & Hval).
  destruct (Hval Hnd) as [Hin Hout].
  assert (forall n c, (n, c) ∈ sla_config ->
            (t' ∪ d') !! n = match default_table !! n with
                             | Some th => Some (override th c)
                             | None => construct c
                             end) as Hcfg.
  { intros n c Hnc. destruct (Hin n c Hnc) as ([x Hx] & Ht & _).
    rewrite <- Ht, Hx. by apply lookup_union_Some_l. }
  split_and!.
  - intros n c th Hnc Hdef. rewrite (Hcfg n c Hnc), Hdef.
    eexists. split; [reflexivity|]. done.
  - intros n c Hnc H1 H2 H3.
    assert (default_table !! n = None) as Hdef by by apply default_table_None.
    rewrite (Hcfg n c Hnc), Hdef.
    destruct (Hin n c Hnc) as ([x Hx] & Ht & _). rewrite Hdef in Ht.
    rewrite Hx in Ht. symmetry in Ht. exists x. split; [done|].
    by apply construct_Some.
  - intros n Hn. destruct (Hout n Hn) as [Ht Hd].
    rewrite lookup_union_r; [|by rewrite Ht]. rewrite Hd.
    unfold default_table.
    destruct (decide (n = "uptime")) as [->|H1];
      [by rewrite lookup_insert_eq|].
    rewrite lookup_insert_ne by done.
    destruct (decide (n = "api_response_time")) as [->|H2];
      [by rewrite lookup_insert_eq|].
    rewrite lookup_insert_ne by done.
    destruct (decide (n = "harmonic_processing_time")) as [->|H3];
      [by rewrite lookup_insert_eq|].
    by rewrite lookup_insert_ne by done.
Qed.

(** The uptime SLA configured with a violation threshold only, and a custom
    SLA: the loaded uptime threshold has the violation threshold configured
    and the target of the default; the custom threshold has the fields
    given; the response time SLA, not configured, is the default. *)
Lemma loaded_threshold_values_witness :
  NoDup Scenario.sla_config.*1
  /\ exists d u q a,
       _load_sla_thresholds Scenario.sla_config = Some d
       /\ d !! "uptime" = Some u
       /\ (violation_threshold u == 995 # 10)%Q
       /\ (target_value u == 999 # 10)%Q
       /\ name u = "Service Uptime"
       /\ d !! "queue_delay" = Some q
       /\ name q = "Queue delay"
       /\ (target_value q == 50)%Q
       /\ (violation_threshold q == 80)%Q
       /\ d !! "api_response_time" = Some a
       /\ (target_value a == 200)%Q
       /\ (violation_threshold a == 500)%Q.
Proof.
  assert (NoDup Scenario.sla_config.*1) as Hnd.
  { simpl. repeat constructor; set_solver. }
  split; [exact Hnd|].
  destruct (_load_sla_thresholds Scenario.sla_config) as [d|] eqn:Hload;
    [|by vm_compute in Hload].
  destruct (loaded_threshold_values Scenario.sla_config d Hnd Hload)
    as (Hdef & Hcustom & Hout).
  destruct (Hdef "uptime" (Scenario.only (995 # 10)%Q) default_uptime)
    as (u & Hu & Hun & Hut & _ & _ & Huv & _); [set_solver | done |].
  destruct (Hcustom "queue_delay" (Scenario.full "Queue delay" 50 80))
    as (q & Hq & Hqn & Hqt & _ & _ & Hqv & _); [set_solver | done..|].
  pose proof (Hout "api_response_time") as Ha. simpl in Ha.
  exists d, u, q, default_api_response_time.
  split; [reflexivity|]. split; [exact Hu|].
  split; [by rewrite Huv|]. split; [by rewrite Hut|].
  split; [by rewrite Hun|]. split; [exact Hq|].
  simpl in Hqn, Hqt, Hqv.
  injection Hqn as <-. injection Hqt as <-. injection Hqv as <-.
  split; [done|]. split; [done|]. split; [done|].
  split; [apply Ha; set_solver|]. by split.
Defined.

(** X18.  When loading fails.  [_load_sla_thresholds] raises, and the
    monitor is not built, exactly when some configured name is not one of
    the three default names and its entry lacks one of the six fields of a
    threshold or has a key that is no field; an entry under a default name
    never makes it fail, whatever it gives. *)
Theorem loading_fails_iff_incomplete_custom ms sla_config chs :
  (_load_sla_thresholds sla_config = None
   <-> exists n c,
         (n, c) ∈ sla_config
         /\ (n <> "uptime" /\ n <> "api_response_time"
             /\ n <> "harmonic_processing_time")
         /\ (c_name c = None \/ c_target_value c = None
             \/ c_measurement_unit c = None \/ c_measurement_period c = None
             \/ c_violation_threshold c = None \/ c_compensation_rate c = None
             \/ c_other_keys c <> []))
  /\ (new_monitor ms sla_config chs = None
      <-> _load_sla_thresholds sla_config = None).
Proof.
  split.
  - assert (_load_sla_thresholds sla_config = None
            <-> merge_config sla_config default_table ∅ = None) as ->.
    { unfold _load_sla_thresholds.
      by destruct (merge_config sla_config default_table ∅). }
    rewrite merge_config_fails. split.
    + intros (n & c & Hin & Hd & Hc). exists n, c. split; [done|].
      split; [by apply default_table_None | by apply construct_None].
    + intros (n & c & Hin & Hd & Hc). exists n, c. split; [done|].
      split; [by apply default_table_None | by apply construct_None].
  - destruct (_load_sla_thresholds sla_config) as [d|] eqn:Hload.
    + destruct (load_record _ _ Hload) as (th & Hrec & _).
      unfold new_monitor. rewrite Hload. simpl. rewrite Hrec. by split.
    + unfold new_monitor. by rewrite Hload.
Qed.

(** A custom SLA that gives a violation threshold only cannot be built, and
    neither can the monitor; the same entry under the default name
    ['uptime'] loads. *)
Lemma loading_fails_iff_incomplete_custom_witness :
  _load_sla_thresholds [("queue_delay", Scenario.only 80)] = None
  /\ new_monitor [] [("queue_delay", Scenario.only 80)] [] = None
  /\ is_Some (_load_sla_thresholds [("uptime", Scenario.only 80)]).
Proof.
  destruct (loading_fails_iff_incomplete_custom []
              [("queue_delay", Scenario.only 80)] [])
    as [[_ Hfail] [_ Hnew]].
  assert (_load_sla_thresholds [("queue_delay", Scenario.only 80)] = None)
    as Hload.
  { apply Hfail. exists "queue_delay", (Scenario.only 80).
    split; [set_solver|]. split; [done|]. by left. }
  split; [exact Hload|]. split; [exact (Hnew Hload)|].
  destruct (_load_sla_thresholds [("uptime", Scenario.only 80)]) as [d|] eqn:Hd.
  - by eexists.
  - destruct (loading_fails_iff_incomplete_custom []
                [("uptime", Scenario.only 80)] []) as [[Honly _] _].
    destruct (Honly Hd) as (n & c & Hin & (Hn & _) & _).
    apply list_elem_of_singleton in Hin. injection Hin as -> _. done.
Defined.

(** ** Identities *)

(** X19.  An identity is a second of the clock.  Two incidents of a
    monitor have the same identity exactly when the clock was within the
    same second as each was opened, and so have two violations of the same
    monitor and the same SLA: within one second identities repeat, across
    seconds they never do. *)
Theorem identity_is_the_second t1 t2 monitor_name r1 r2 th1 th2 q1 q2 :
  (incident_id (new_incident t1 monitor_name r1)
     = incident_id (new_incident t2 monitor_name r2)
   <-> Py.int t1 = Py.int t2)
  /\ (violation_id (uptime_violation t1 monitor_name th1 q1 r1)
        = violation_id (uptime_violation t2 monitor_name th2 q2 r2)
      <-> Py.int t1 = Py.int t2)
  /\ (violation_id (response_time_violation t1 monitor_name th1 q1 r1)
        = violation_id (response_time_violation t2 monitor_name th2 q2 r2)
      <-> Py.int t1 = Py.int t2).
Proof.
  split_and!.
  - split; [apply incident_id_same_second|].
    unfold new_incident. simpl. by intros ->.
  - unfold uptime_violation. simpl. split; [|by intros ->].
    intros H. injection H as H.
    apply (string_app_inv_tail (Py.str_int (Py.int t1))
             (Py.str_int (Py.int t2)) ("_" +:+ monitor_name +:+ "_uptime"))
      in H.
    unfold Py.str_int in H. by apply (inj pretty) in H.
  - unfold response_time_violation. simpl. split; [|by intros ->].
    intros H. injection H as H.
    apply (string_app_inv_tail (Py.str_int (Py.int t1))
             (Py.str_int (Py.int t2))
             ("_" +:+ monitor_name +:+ "_response_time")) in H.
    unfold Py.str_int in H. by apply (inj pretty) in H.
Qed.

(** ** A channel without a type *)

(** X20.  What an alert channel without a ['type'] entry costs.  When the
    first channel has none and a DOWN or DEGRADED result comes for a monitor
    that has no incident, [_process_monitor_result] raises the [KeyError]:
    the incident is recorded, but marked as not alerted; no sink has been
    posted to; the SLA check and the statistics update are skipped, so the
    violations and the counters are those before the result. *)
Theorem untyped_channel_stops_the_pipeline env monitor_name result w c rest :
  alert_channels (self w) = c :: rest ->
  ch_type c = None ->
  current_incidents (self w) !! monitor_name = None ->
  status result = DOWN \/ status result = DEGRADED ->
  let w' := exec (_process_monitor_result env monitor_name result) w in
  eval (_process_monitor_result env monitor_name result) w
    = Raise (Py.KeyError "type")
  /\ (exists i, current_incidents (self w') !! monitor_name = Some i
                /\ alert_sent i = false
                /\ start_time i = timestamp result)
  /\ posted (trace w') = posted (trace w)
  /\ sla_violations (self w') = sla_violations (self w)
  /\ uptime_stats (self w') = uptime_stats (self w)
  /\ performance_stats (self w') = performance_stats (self w).
Proof.
  intros Hch Hty Hlook Hst w'. subst w'.
  apply is_incident_status_spec in Hst.
  unfold _process_monitor_result, eval, exec, bind. rewrite Hst.
  unfold _handle_incident, bind, get_self. rewrite Hlook. simpl.
  unfold _send_alert, bind, utcnow, bind, time_time, emit, get_self. simpl.
  rewrite Hch. simpl.
  unfold bind, send_to_channel, try_except, bind, item. rewrite Hty. simpl.
  split_and!; try done.
  eexists. rewrite lookup_insert_eq. done.
Qed.

Lemma untyped_channel_stops_the_pipeline_witness :
  eval (_process_monitor_result Scenario.calm "api"
          (Scenario.result_at 0 DOWN None)) Scenario.untyped_first
  = Raise (Py.KeyError "type").
Proof.
  apply (untyped_channel_stops_the_pipeline Scenario.calm "api"
           (Scenario.result_at 0 DOWN None) Scenario.untyped_first
           {| ch_type := None; ch_webhook_url := Some "A" |}
           [Scenario.slack "B"] eq_refl eq_refl eq_refl (or_introl eq_refl)).
Defined.
